(** * The datamover operator: reconcilers of DataMover and of populated claims

    A shallow embedding of [internal/controller/datamover_controller.go] and
    [internal/controller/datamoverpopulator_controller.go].

    The reconcilers are programs over a resource store client.  A call of the
    client is answered from the content of the store, unless the environment
    refuses it: the refusals (stale version tokens, unavailable store) come
    from a script that is consumed one entry per call.  Every call, every
    sleep and every metric is recorded in a trace. *)

From stdpp Require Import base strings gmap list fin_maps pretty.
From Stdlib Require Import ZArith Lia.

Open Scope string_scope.
Open Scope Z_scope.

(** ** Errors and results *)

Inductive ApiError :=
| ErrNotFound
| ErrAlreadyExists
| ErrConflict
| ErrOther (msg : string).

#[global] Instance ApiError_eq_dec : EqDecision ApiError.
Proof. solve_decision. Defined.

(** [errors.IsNotFound] and [errors.IsConflict]; a nil error is neither. *)
Definition IsNotFound (err : option ApiError) : bool :=
  match err with Some ErrNotFound => true | _ => false end.

Definition IsConflict (err : option ApiError) : bool :=
  match err with Some ErrConflict => true | _ => false end.

(** [time.Duration] counts nanoseconds. *)
Definition Millisecond : Z := 1000000.
Definition Second : Z := 1000 * Millisecond.
Definition Minute : Z := 60 * Second.

(** [ctrl.Result] *)
Record Result := { Requeue : bool; RequeueAfter : Z }.

#[global] Instance Result_eq_dec : EqDecision Result.
Proof. solve_decision. Defined.

Definition ResultZero : Result := {| Requeue := false; RequeueAfter := 0 |}.
Definition ResultRequeue : Result := {| Requeue := true; RequeueAfter := 0 |}.
Definition ResultAfter (d : Z) : Result := {| Requeue := false; RequeueAfter := d |}.

(** What a reconciler returns: [(ctrl.Result, error)]. *)
Definition Reply : Type := Result * option ApiError.

(** ** Objects of the store *)

(** [types.NamespacedName]: the namespace, then the name. *)
Abbreviation NamespacedName := (string * string)%type.

(** [types.NamespacedName.String] *)
Definition nnString (nn : NamespacedName) : string := nn.1 +:+ "/" +:+ nn.2.

Record OwnerReference := {
  owner_Kind : string;
  owner_Name : string;
  owner_Controller : bool
}.

Record ObjectMeta := {
  Name : string;
  Namespace : string;
  Labels : gmap string string;
  Annotations : option (gmap string string);   (* a nil map is [None] *)
  DeletionTimestamp : option Z;
  Finalizers : list string;
  OwnerReferences : list OwnerReference
}.

Definition newMeta (name ns : string) : ObjectMeta :=
  {| Name := name; Namespace := ns; Labels := ∅; Annotations := None;
     DeletionTimestamp := None; Finalizers := []; OwnerReferences := [] |}.

Definition metaKey (m : ObjectMeta) : NamespacedName := (Namespace m, Name m).

Definition setAnnotations (a : option (gmap string string)) (m : ObjectMeta) : ObjectMeta :=
  {| Name := Name m; Namespace := Namespace m; Labels := Labels m; Annotations := a;
     DeletionTimestamp := DeletionTimestamp m; Finalizers := Finalizers m;
     OwnerReferences := OwnerReferences m |}.

Definition setDeletionTimestamp (t : option Z) (m : ObjectMeta) : ObjectMeta :=
  {| Name := Name m; Namespace := Namespace m; Labels := Labels m;
     Annotations := Annotations m; DeletionTimestamp := t; Finalizers := Finalizers m;
     OwnerReferences := OwnerReferences m |}.

Definition setLabels (l : gmap string string) (m : ObjectMeta) : ObjectMeta :=
  {| Name := Name m; Namespace := Namespace m; Labels := l; Annotations := Annotations m;
     DeletionTimestamp := DeletionTimestamp m; Finalizers := Finalizers m;
     OwnerReferences := OwnerReferences m |}.

Definition setOwnerReferences (o : list OwnerReference) (m : ObjectMeta) : ObjectMeta :=
  {| Name := Name m; Namespace := Namespace m; Labels := Labels m;
     Annotations := Annotations m; DeletionTimestamp := DeletionTimestamp m;
     Finalizers := Finalizers m; OwnerReferences := o |}.

(** Reading a Go map: a nil map has no key. *)
Definition annotation (m : ObjectMeta) (k : string) : option string :=
  match Annotations m with
  | None => None
  | Some a => a !! k
  end.

(** [if x.Annotations == nil { x.Annotations = make(map[string]string) }] *)
Definition annotationsOrEmpty (m : ObjectMeta) : gmap string string :=
  match Annotations m with
  | None => ∅
  | Some a => a
  end.

(** [resource.Quantity], as a number of bytes; the zero value is [0]. *)
Definition Quantity : Type := Z.

Definition ResourceStorage : string := "storage".

Record VolumeResourceRequirements := {
  Limits : gmap string Quantity;
  Requests : gmap string Quantity
}.

(** [corev1.TypedLocalObjectReference] *)
Record TypedLocalObjectReference := {
  local_APIGroup : option string;
  local_Kind : string;
  local_Name : string
}.

(** [corev1.TypedObjectReference] *)
Record TypedObjectReference := {
  ref_APIGroup : option string;
  ref_Kind : string;
  ref_Name : string;
  ref_Namespace : option string
}.

Record PersistentVolumeClaimSpec := {
  AccessModes : list string;
  Resources : VolumeResourceRequirements;
  VolumeName : string;
  StorageClassName : option string;
  VolumeMode : option string;
  DataSource : option TypedLocalObjectReference;
  DataSourceRef : option TypedObjectReference
}.

Definition setVolumeName (v : string) (s : PersistentVolumeClaimSpec) : PersistentVolumeClaimSpec :=
  {| AccessModes := AccessModes s; Resources := Resources s; VolumeName := v;
     StorageClassName := StorageClassName s; VolumeMode := VolumeMode s;
     DataSource := DataSource s; DataSourceRef := DataSourceRef s |}.

Definition ClaimPending : string := "Pending".
Definition ClaimBound : string := "Bound".

Record PersistentVolumeClaim := {
  pvc_ObjectMeta :> ObjectMeta;
  pvc_Spec : PersistentVolumeClaimSpec;
  pvc_Phase : string                              (* Status.Phase *)
}.

Definition pvcWithMeta (m : ObjectMeta) (p : PersistentVolumeClaim) : PersistentVolumeClaim :=
  {| pvc_ObjectMeta := m; pvc_Spec := pvc_Spec p; pvc_Phase := pvc_Phase p |}.

Definition pvcWithSpec (s : PersistentVolumeClaimSpec) (p : PersistentVolumeClaim) :
  PersistentVolumeClaim :=
  {| pvc_ObjectMeta := pvc_ObjectMeta p; pvc_Spec := s; pvc_Phase := pvc_Phase p |}.

Record ObjectReference := {
  claimRef_Namespace : string;
  claimRef_Name : string
}.

Record PersistentVolume := {
  pv_ObjectMeta :> ObjectMeta;
  ClaimRef : option ObjectReference               (* Spec.ClaimRef *)
}.

Record SecretKeySelector := {
  selector_Name : string;
  selector_Key : string
}.

Record EnvVar := {
  env_Name : string;
  env_Value : string;
  env_SecretKeyRef : option SecretKeySelector     (* ValueFrom.SecretKeyRef *)
}.

Definition envValue (n v : string) : EnvVar :=
  {| env_Name := n; env_Value := v; env_SecretKeyRef := None |}.

Record VolumeMount := {
  mount_Name : string;
  MountPath : string
}.

Record Container := {
  container_Name : string;
  Image : string;
  ImagePullPolicy : string;
  Command : list string;
  Env : list EnvVar;
  EnvFrom : list string;                          (* names of the SecretRef sources *)
  VolumeMounts : list VolumeMount
}.

Inductive VolumeSource :=
| FromClaim (ClaimName : string)
| EmptyDir.

Record Volume := {
  volume_Name : string;
  volume_Source : VolumeSource
}.

(** The pod template of a job; its security contexts are constants of the
    source and are left out. *)
Record JobSpec := {
  BackoffLimit : option Z;
  InitContainers : list Container;
  Containers : list Container;
  Volumes : list Volume;
  RestartPolicy : string
}.

Record JobStatus := {
  Active : Z;
  Succeeded : Z;
  Failed : Z
}.

Definition JobStatusZero : JobStatus := {| Active := 0; Succeeded := 0; Failed := 0 |}.

Record Job := {
  job_ObjectMeta :> ObjectMeta;
  job_Spec : JobSpec;
  job_Status : JobStatus
}.

Record Secret := {
  secret_ObjectMeta :> ObjectMeta;
  Data : gmap string string
}.

(** The image of a DataMover, as [createVerificationJob] reads it. *)
Record DataMoverImage := {
  image_Name : string;
  image_Tag : string;
  image_PullPolicy : string
}.

Record DataMoverSpec := {
  SourcePVC : string;
  SecretName : string;
  AdditionalEnv : list EnvVar;
  AddTimestampPrefix : bool;
  DeletePvcAfterBackup : bool;
  dm_Image : DataMoverImage
}.

Record DataMoverStatus := {
  Phase : string;
  RestoredPVCName : string
}.

Record DataMover := {
  dm_ObjectMeta :> ObjectMeta;
  dm_Spec : DataMoverSpec;
  dm_Status : DataMoverStatus
}.

Definition dmWithStatus (s : DataMoverStatus) (dm : DataMover) : DataMover :=
  {| dm_ObjectMeta := dm_ObjectMeta dm; dm_Spec := dm_Spec dm; dm_Status := s |}.

(** [dm.Status.Phase = p] *)
Definition dmSetPhase (p : string) (dm : DataMover) : DataMover :=
  dmWithStatus {| Phase := p; RestoredPVCName := RestoredPVCName (dm_Status dm) |} dm.

(** [dm.Status.RestoredPVCName = n] *)
Definition dmSetRestoredPVCName (n : string) (dm : DataMover) : DataMover :=
  dmWithStatus {| Phase := Phase (dm_Status dm); RestoredPVCName := n |} dm.

(** [v1alpha1.ImageSpec] *)
Record ImageSpec := {
  Repository : string;
  Tag : string;
  PullPolicy : string
}.

Record DataMoverPopulatorSpec := {
  pop_SecretName : string;
  Path : string;
  pop_Image : option ImageSpec;
  pop_AdditionalEnv : list EnvVar
}.

Record DataMoverPopulator := {
  pop_ObjectMeta :> ObjectMeta;
  pop_Spec : DataMoverPopulatorSpec
}.

(** ** The store and the world of one invocation *)

Record Cluster := {
  dataMovers : gmap NamespacedName DataMover;
  populators : gmap NamespacedName DataMoverPopulator;
  claims : gmap NamespacedName PersistentVolumeClaim;
  jobs : gmap NamespacedName Job;
  secrets : gmap NamespacedName Secret;
  volumes : gmap string PersistentVolume          (* cluster scoped *)
}.

Definition withDataMovers (m : gmap NamespacedName DataMover) (c : Cluster) : Cluster :=
  {| dataMovers := m; populators := populators c; claims := claims c; jobs := jobs c;
     secrets := secrets c; volumes := volumes c |}.

Definition withClaims (m : gmap NamespacedName PersistentVolumeClaim) (c : Cluster) : Cluster :=
  {| dataMovers := dataMovers c; populators := populators c; claims := m; jobs := jobs c;
     secrets := secrets c; volumes := volumes c |}.

Definition withJobs (m : gmap NamespacedName Job) (c : Cluster) : Cluster :=
  {| dataMovers := dataMovers c; populators := populators c; claims := claims c; jobs := m;
     secrets := secrets c; volumes := volumes c |}.

Definition withVolumes (m : gmap string PersistentVolume) (c : Cluster) : Cluster :=
  {| dataMovers := dataMovers c; populators := populators c; claims := claims c;
     jobs := jobs c; secrets := secrets c; volumes := m |}.

Inductive Kind := KDataMover | KPopulator | KClaim | KJob | KSecret | KVolume.

#[global] Instance Kind_eq_dec : EqDecision Kind.
Proof. solve_decision. Defined.

(** Everything an invocation does to its surroundings, in order. *)
Inductive Event :=
| EvGet (k : Kind) (key : NamespacedName)
| EvCreateClaim (o : PersistentVolumeClaim)
| EvCreateJob (o : Job)
| EvUpdateClaim (o : PersistentVolumeClaim)
| EvUpdateVolume (o : PersistentVolume)
| EvUpdateStatus (o : DataMover)
| EvDelete (k : Kind) (key : NamespacedName)
| EvSleep (d : Z)
| EvMetric (fn : string) (args : list string).

(** The calls that change the store when they are accepted. *)
Definition isWrite (e : Event) : bool :=
  match e with
  | EvCreateClaim _ | EvCreateJob _ | EvUpdateClaim _ | EvUpdateVolume _
  | EvUpdateStatus _ | EvDelete _ _ => true
  | EvGet _ _ | EvSleep _ | EvMetric _ _ => false
  end.

(** [time.Now()]: its Unix seconds and its RFC 3339 rendering. *)
Record Clock := {
  Unix : Z;
  RFC3339 : string
}.

Record World := {
  cluster : Cluster;
  faults : list (option ApiError);   (* the environment's answer to the next calls *)
  now : Clock;
  PhaseStart : gmap string Z;        (* the reconciler's own field *)
  trace : list Event                 (* newest first *)
}.

Definition withCluster (c : Cluster) (w : World) : World :=
  {| cluster := c; faults := faults w; now := now w; PhaseStart := PhaseStart w;
     trace := trace w |}.

Definition withFaults (f : list (option ApiError)) (w : World) : World :=
  {| cluster := cluster w; faults := f; now := now w; PhaseStart := PhaseStart w;
     trace := trace w |}.

Definition withPhaseStart (p : gmap string Z) (w : World) : World :=
  {| cluster := cluster w; faults := faults w; now := now w; PhaseStart := p;
     trace := trace w |}.

Definition record (e : Event) (w : World) : World :=
  {| cluster := cluster w; faults := faults w; now := now w; PhaseStart := PhaseStart w;
     trace := e :: trace w |}.

(** The world an invocation starts in. *)
Definition enter (c : Cluster) (f : list (option ApiError)) (t : Clock)
    (ps : gmap string Z) : World :=
  {| cluster := c; faults := f; now := t; PhaseStart := ps; trace := [] |}.

(** The events of an invocation, oldest first. *)
Definition events (w : World) : list Event := reverse (trace w).

Definition writes (w : World) : list Event := filter (λ e, isWrite e = true) (events w).

(** ** Programs: state, and the runtime panic of Go *)

Inductive Outcome (A : Type) :=
| Returned (a : A)
| Panicked (msg : string).
Arguments Returned {A} a.
Arguments Panicked {A} msg.

Definition M (A : Type) : Type := World → Outcome A * World.

#[global] Instance M_ret : MRet M := λ A a w, (Returned a, w).

#[global] Instance M_bind : MBind M := λ A B f m w,
  match m w with
  | (Returned a, w') => f a w'
  | (Panicked msg, w') => (Panicked msg, w')
  end.

#[global] Instance M_fmap : FMap M := λ A B f m w,
  match m w with
  | (Returned a, w') => (Returned (f a), w')
  | (Panicked msg, w') => (Panicked msg, w')
  end.

Definition panic {A} (msg : string) : M A := λ w, (Panicked msg, w).
Definition emit (e : Event) : M unit := λ w, (Returned tt, record e w).
Definition timeNow : M Clock := λ w, (Returned (now w), w).
Definition getPhaseStart : M (gmap string Z) := λ w, (Returned (PhaseStart w), w).
Definition setPhaseStart (p : gmap string Z) : M unit :=
  λ w, (Returned tt, withPhaseStart p w).

(** [time.Sleep] *)
Definition Sleep (d : Z) : M unit := emit (EvSleep d).

(** A call of the client: recorded, then refused by the environment or
    answered from the store. *)
Definition call {A} (e : Event) (op : Cluster → ApiError + (A * Cluster)) :
    M (ApiError + A) := λ w,
  let w1 := record e w in
  let answer (w2 : World) :=
    match op (cluster w2) with
    | inl err => (Returned (inl err), w2)
    | inr (a, c) => (Returned (inr a), withCluster c w2)
    end in
  match faults w1 with
  | Some err :: rest => (Returned (inl err), withFaults rest w1)
  | None :: rest => answer (withFaults rest w1)
  | [] => answer w1
  end.

(** The error of a call whose value is not used. *)
Definition errOf {A} (r : ApiError + A) : option ApiError :=
  match r with inl err => Some err | inr _ => None end.

Definition read {A} (m : Cluster → option A) (c : Cluster) : ApiError + (A * Cluster) :=
  match m c with
  | Some a => inr (a, c)
  | None => inl ErrNotFound
  end.

(** [r.Get] *)
Definition GetDataMover (key : NamespacedName) : M (ApiError + DataMover) :=
  call (EvGet KDataMover key) (read (λ c, dataMovers c !! key)).
Definition GetPopulator (key : NamespacedName) : M (ApiError + DataMoverPopulator) :=
  call (EvGet KPopulator key) (read (λ c, populators c !! key)).
Definition GetClaim (key : NamespacedName) : M (ApiError + PersistentVolumeClaim) :=
  call (EvGet KClaim key) (read (λ c, claims c !! key)).
Definition GetJob (key : NamespacedName) : M (ApiError + Job) :=
  call (EvGet KJob key) (read (λ c, jobs c !! key)).
Definition GetSecret (key : NamespacedName) : M (ApiError + Secret) :=
  call (EvGet KSecret key) (read (λ c, secrets c !! key)).
Definition GetVolume (name : string) : M (ApiError + PersistentVolume) :=
  call (EvGet KVolume ("", name)) (read (λ c, volumes c !! name)).

(** [r.Create]: the name must be free. *)
Definition CreateClaim (o : PersistentVolumeClaim) : M (option ApiError) :=
  errOf <$> call (EvCreateClaim o) (λ c,
    match claims c !! metaKey o with
    | Some _ => inl ErrAlreadyExists
    | None => inr (tt, withClaims (<[metaKey o := o]> (claims c)) c)
    end).

Definition CreateJob (o : Job) : M (option ApiError) :=
  errOf <$> call (EvCreateJob o) (λ c,
    match jobs c !! metaKey o with
    | Some _ => inl ErrAlreadyExists
    | None => inr (tt, withJobs (<[metaKey o := o]> (jobs c)) c)
    end).

(** [r.Update] of a claim writes its metadata and its spec; the status of a
    claim is a subresource and stays as stored. *)
Definition UpdateClaim (o : PersistentVolumeClaim) : M (option ApiError) :=
  errOf <$> call (EvUpdateClaim o) (λ c,
    match claims c !! metaKey o with
    | None => inl ErrNotFound
    | Some old =>
        let new := {| pvc_ObjectMeta := pvc_ObjectMeta o; pvc_Spec := pvc_Spec o;
                      pvc_Phase := pvc_Phase old |} in
        inr (tt, withClaims (<[metaKey o := new]> (claims c)) c)
    end).

Definition UpdateVolume (o : PersistentVolume) : M (option ApiError) :=
  errOf <$> call (EvUpdateVolume o) (λ c,
    match volumes c !! Name o with
    | None => inl ErrNotFound
    | Some _ => inr (tt, withVolumes (<[Name o := o]> (volumes c)) c)
    end).

(** [r.Status().Update] writes the status only. *)
Definition UpdateStatus (o : DataMover) : M (option ApiError) :=
  errOf <$> call (EvUpdateStatus o) (λ c,
    match dataMovers c !! metaKey o with
    | None => inl ErrNotFound
    | Some old =>
        inr (tt, withDataMovers (<[metaKey o := dmWithStatus (dm_Status o) old]> (dataMovers c)) c)
    end).

(** [r.Delete]: an object that carries finalizers is only marked, and goes
    when its finalizers are removed. *)
Definition DeleteClaim (t : Z) (o : PersistentVolumeClaim) : M (option ApiError) :=
  errOf <$> call (EvDelete KClaim (metaKey o)) (λ c,
    match claims c !! metaKey o : option PersistentVolumeClaim with
    | None => inl ErrNotFound
    | Some old =>
        match Finalizers old, DeletionTimestamp old with
        | [], _ => inr (tt, withClaims (delete (metaKey o) (claims c)) c)
        | _ :: _, Some _ => inr (tt, c)
        | _ :: _, None =>
            let marked := pvcWithMeta (setDeletionTimestamp (Some t) old) old in
            inr (tt, withClaims (<[metaKey o := marked]> (claims c)) c)
        end
    end).

Definition DeleteJob (t : Z) (o : Job) : M (option ApiError) :=
  errOf <$> call (EvDelete KJob (metaKey o)) (λ c,
    match jobs c !! metaKey o : option Job with
    | None => inl ErrNotFound
    | Some old =>
        match Finalizers old, DeletionTimestamp old with
        | [], _ => inr (tt, withJobs (delete (metaKey o) (jobs c)) c)
        | _ :: _, Some _ => inr (tt, c)
        | _ :: _, None =>
            let marked := {| job_ObjectMeta := setDeletionTimestamp (Some t) old;
                             job_Spec := job_Spec old; job_Status := job_Status old |} in
            inr (tt, withJobs (<[metaKey o := marked]> (jobs c)) c)
        end
    end).

(** [metrics.*]: the recorder is an outside sink, the call is traced. *)
Definition metric (fn : string) (args : list string) : M unit := emit (EvMetric fn args).

(** [int32] arithmetic wraps around. *)
Definition wrap32 (z : Z) : Z := (z + 2 ^ 31) mod 2 ^ 32 - 2 ^ 31.

(** ** The DataMover reconciler ([datamover_controller.go]) *)

Module DataMoverReconciler.

Definition PhaseInitial : string := "".
Definition PhaseCreatingPVC : string := "CreatingClonedPVC".
Definition PhasePVCReady : string := "ClonedPVCReady".
Definition PhaseCreatingPod : string := "CreatingPod".
Definition PhaseCleaningUp : string := "CleaningUp".
Definition PhaseCompleted : string := "Completed".
Definition PhaseFailed : string := "Failed".

(** [metrics.GetPhaseMetricValue] *)
Definition GetPhaseMetricValue (phase : string) : Z :=
  if decide (phase = "") then 0
  else if decide (phase = "CreatingClonedPVC") then 1
  else if decide (phase = "ClonedPVCReady") then 2
  else if decide (phase = "CreatingPod") then 3
  else if decide (phase = "CleaningUp") then 4
  else if decide (phase = "Completed") then 5
  else if decide (phase = "Failed") then 6
  else 0.

Definition createClonedPVC (dm : DataMover) : M Reply :=
  t ← timeNow;
  let clonedPVCName := SourcePVC (dm_Spec dm) +:+ "-cloned-" +:+ pretty (Unix t) in
  r ← GetClaim (Namespace dm, SourcePVC (dm_Spec dm));
  match r with
  | inl err =>
      metric "RecordError" ["source_pvc_not_found"; PhaseCreatingPVC; Namespace dm];;
      metric "RecordPVCCloneOperation" ["failure"; Namespace dm];;
      mret (ResultZero, Some err)
  | inr sourcePVC =>
      let pvcSize : Quantity :=
        default 0 (Requests (Resources (pvc_Spec sourcePVC)) !! ResourceStorage) in
      let pvc :=
        {| pvc_ObjectMeta := newMeta clonedPVCName (Namespace dm);
           pvc_Spec :=
             {| AccessModes := AccessModes (pvc_Spec sourcePVC);
                Resources := {| Limits := ∅; Requests := {[ ResourceStorage := pvcSize ]} |};
                VolumeName := "";
                StorageClassName := StorageClassName (pvc_Spec sourcePVC);
                VolumeMode := None;
                DataSource := Some {| local_APIGroup := None;
                                      local_Kind := "PersistentVolumeClaim";
                                      local_Name := SourcePVC (dm_Spec dm) |};
                DataSourceRef := None |};
           pvc_Phase := "" |} in
      err ← CreateClaim pvc;
      match err with
      | Some e =>
          metric "RecordError" ["pvc_creation_failed"; PhaseCreatingPVC; Namespace dm];;
          metric "RecordPVCCloneOperation" ["failure"; Namespace dm];;
          mret (ResultZero, Some e)
      | None =>
          metric "RecordPVCCloneOperation" ["started"; Namespace dm];;
          let dm := dmSetPhase PhaseCreatingPVC dm in
          let dm := dmSetRestoredPVCName clonedPVCName dm in
          err ← UpdateStatus dm;
          match err with
          | Some e =>
              metric "RecordError" ["status_update_failed"; PhaseCreatingPVC; Namespace dm];;
              mret (ResultZero, Some e)
          | None => mret (ResultRequeue, None)
          end
      end
  end.

Definition waitForPVCBound (dm : DataMover) : M Reply :=
  r ← GetClaim (Namespace dm, RestoredPVCName (dm_Status dm));
  match r with
  | inl err =>
      metric "RecordError" ["pvc_get_failed"; PhaseCreatingPVC; Namespace dm];;
      mret (ResultZero, Some err)
  | inr pvc =>
      if decide (pvc_Phase pvc = ClaimBound) then
        metric "RecordPVCCloneOperation" ["success"; Namespace dm];;
        let dm := dmSetPhase PhasePVCReady dm in
        err ← UpdateStatus dm;
        match err with
        | Some e =>
            metric "RecordError" ["status_update_failed"; PhasePVCReady; Namespace dm];;
            mret (ResultZero, Some e)
        | None => mret (ResultRequeue, None)
        end
      else mret (ResultAfter (15 * Second), None)
  end.

(** The job that [createVerificationJob] builds. *)
Definition verificationJob (dm : DataMover) : Job :=
  let jobName := "verify-" +:+ RestoredPVCName (dm_Status dm) in
  let envVars :=
    ((if AddTimestampPrefix (dm_Spec dm)
      then [envValue "ADD_TIMESTAMP_PREFIX" "true"]
      else [envValue "ADD_TIMESTAMP_PREFIX" "false"])
     ++ (if decide (0 < length (AdditionalEnv (dm_Spec dm)))%nat
         then AdditionalEnv (dm_Spec dm) else []))%list in
  let imageName :=
    if decide (image_Name (dm_Image (dm_Spec dm)) = "")
    then "ghcr.io/qjoly/datamover-rclone" else image_Name (dm_Image (dm_Spec dm)) in
  let imageTag :=
    if decide (image_Tag (dm_Image (dm_Spec dm)) = "")
    then "latest" else image_Tag (dm_Image (dm_Spec dm)) in
  let pullPolicy :=
    if decide (image_PullPolicy (dm_Image (dm_Spec dm)) = "")
    then "Always" else image_PullPolicy (dm_Image (dm_Spec dm)) in
  let fullImageName := imageName +:+ ":" +:+ imageTag in
  (* backoffLimit 2 for 3 total attempts (initial + 2 retries) *)
  let backoffLimit := 2 in
  {| job_ObjectMeta := newMeta jobName (Namespace dm);
     job_Spec :=
       {| BackoffLimit := Some backoffLimit;
          InitContainers := [];
          Containers :=
            [ {| container_Name := "rclone";
                 Image := fullImageName;
                 ImagePullPolicy := pullPolicy;
                 Command := [];
                 Env := envVars;
                 EnvFrom := [SecretName (dm_Spec dm)];
                 VolumeMounts := [ {| mount_Name := "restored-data"; MountPath := "/data/" |} ] |} ];
          Volumes :=
            [ {| volume_Name := "restored-data";
                 volume_Source := FromClaim (RestoredPVCName (dm_Status dm)) |} ];
          RestartPolicy := "Never" |};
     job_Status := JobStatusZero |}.

Definition createVerificationJob (dm : DataMover) : M Reply :=
  let job := verificationJob dm in
  r ← GetJob (Namespace dm, Name job);
  match r with
  | inl ErrNotFound =>
      err ← CreateJob job;
      match err with
      | Some e =>
          metric "RecordError" ["job_creation_failed"; PhaseCreatingPod; Namespace dm];;
          metric "RecordPodCreationOperation" ["failure"; Namespace dm];;
          mret (ResultZero, Some e)
      | None =>
          metric "RecordPodCreationOperation" ["started"; Namespace dm];;
          let dm := dmSetPhase PhaseCreatingPod dm in
          err ← UpdateStatus dm;
          match err with
          | Some e =>
              metric "RecordError" ["status_update_failed"; PhaseCreatingPod; Namespace dm];;
              mret (ResultZero, Some e)
          | None => mret (ResultRequeue, None)
          end
      end
  | inl err =>
      metric "RecordError" ["job_get_failed"; PhaseCreatingPod; Namespace dm];;
      mret (ResultZero, Some err)
  | inr _foundJob =>
      (* the job already exists: move to the next step *)
      let dm := dmSetPhase PhaseCreatingPod dm in
      err ← UpdateStatus dm;
      match err with
      | Some e =>
          metric "RecordError" ["status_update_failed"; PhaseCreatingPod; Namespace dm];;
          mret (ResultZero, Some e)
      | None => mret (ResultRequeue, None)
      end
  end.

Definition waitForJobCompletion (dm : DataMover) : M Reply :=
  let jobName := "verify-" +:+ RestoredPVCName (dm_Status dm) in
  r ← GetJob (Namespace dm, jobName);
  match r with
  | inl err =>
      metric "RecordError" ["job_get_failed"; PhaseCreatingPod; Namespace dm];;
      mret (ResultZero, Some err)
  | inr job =>
      if decide (0 < Succeeded (job_Status job)) then
        let key := nnString (Namespace dm, Name dm) +:+ "-" +:+ PhaseCreatingPod in
        ps ← getPhaseStart;
        match ps !! key with
        | Some startTime =>
            t ← timeNow;
            metric "RecordPhaseDuration"
                   [PhaseCreatingPod; Namespace dm; pretty (Unix t - startTime)];;
            setPhaseStart (delete key ps)
        | None => mret tt
        end;;
        metric "RecordPodCreationOperation" ["success"; Namespace dm];;
        metric "RecordDataSyncOperation" ["success"; Namespace dm];;
        let dm :=
          if DeletePvcAfterBackup (dm_Spec dm)
          then dmSetPhase PhaseCleaningUp dm
          else dmSetPhase PhaseCompleted dm in
        err ← UpdateStatus dm;
        match err with
        | Some e =>
            metric "RecordError" ["status_update_failed"; Phase (dm_Status dm); Namespace dm];;
            mret (ResultZero, Some e)
        | None => mret (ResultRequeue, None)
        end
      else if decide (0 < Failed (job_Status job)) then
        (* the test of the backoff limit only chooses between two log lines *)
        let _allRetriesUsed :=
          match BackoffLimit (job_Spec job) with
          | Some limit => bool_decide (wrap32 (limit + 1) <= Failed (job_Status job))%Z
          | None => false
          end in
        metric "RecordError" ["job_failed"; PhaseCreatingPod; Namespace dm];;
        metric "RecordPodCreationOperation" ["failure"; Namespace dm];;
        let dm := dmSetPhase PhaseFailed dm in
        err ← UpdateStatus dm;
        match err with
        | Some e =>
            metric "RecordError" ["status_update_failed"; PhaseFailed; Namespace dm];;
            mret (ResultZero, Some e)
        | None => mret (ResultZero, None)
        end
      else mret (ResultAfter (15 * Second), None)
  end.

Definition cleanupClonedPVC (dm : DataMover) : M Reply :=
  if decide (RestoredPVCName (dm_Status dm) = "") then
    let dm := dmSetPhase PhaseCompleted dm in
    err ← UpdateStatus dm;
    match err with
    | Some e =>
        metric "RecordError" ["status_update_failed"; PhaseCompleted; Namespace dm];;
        mret (ResultZero, Some e)
    | None => mret (ResultZero, None)
    end
  else
    r ← GetClaim (Namespace dm, RestoredPVCName (dm_Status dm));
    match r with
    | inl ErrNotFound =>
        metric "RecordPVCCleanupOperation" ["already_deleted"; Namespace dm];;
        let dm := dmSetPhase PhaseCompleted dm in
        err ← UpdateStatus dm;
        match err with
        | Some e =>
            metric "RecordError" ["status_update_failed"; PhaseCompleted; Namespace dm];;
            mret (ResultZero, Some e)
        | None => mret (ResultZero, None)
        end
    | inl err =>
        metric "RecordError" ["pvc_get_failed"; PhaseCleaningUp; Namespace dm];;
        mret (ResultZero, Some err)
    | inr pvc =>
        t ← timeNow;
        err ← DeleteClaim (Unix t) pvc;
        match err with
        | Some _ =>
            metric "RecordError" ["pvc_delete_failed"; PhaseCleaningUp; Namespace dm];;
            metric "RecordPVCCleanupOperation" ["failure"; Namespace dm];;
            let dm := dmSetPhase PhaseFailed dm in
            err ← UpdateStatus dm;
            match err with
            | Some e =>
                metric "RecordError" ["status_update_failed"; PhaseFailed; Namespace dm];;
                mret (ResultZero, Some e)
            | None => mret (ResultZero, None)
            end
        | None =>
            metric "RecordPVCCleanupOperation" ["success"; Namespace dm];;
            let dm := dmSetPhase PhaseCompleted dm in
            err ← UpdateStatus dm;
            match err with
            | Some e =>
                metric "RecordError" ["status_update_failed"; PhaseCompleted; Namespace dm];;
                mret (ResultZero, Some e)
            | None => mret (ResultZero, None)
            end
        end
    end.

(** The loop of the [Failed] case over the keys of [r.PhaseStart]:
    [key[:len(nn)]] is a slice expression, and Go panics when [len(nn)]
    exceeds [len(key)].  The keys are visited in the order they are given;
    Go fixes no order. *)
Fixpoint forgetPhaseStarts (nn : string) (keys : list string) : M unit :=
  match keys with
  | [] => mret tt
  | key :: rest =>
      if decide (String.length key < String.length nn)%nat then
        panic "slice bounds out of range"
      else
        (if decide (nn = String.substring 0 (String.length nn) key)
         then ps ← getPhaseStart; setPhaseStart (delete key ps)
         else mret tt);;
        forgetPhaseStarts nn rest
  end.

(** [r.PhaseStart] is a map from the start: the source makes it on the
    first invocation, when it is nil. *)
Definition Reconcile (req : NamespacedName) : M Reply :=
  r ← GetDataMover req;
  match r with
  | inl err =>
      if IsNotFound (Some err) then
        metric "DataMoverCurrentPhase.DeleteLabelValues" [req.2; req.1];;
        ps ← getPhaseStart;
        setPhaseStart (delete (nnString req) ps);;
        mret (ResultZero, None)
      else
        metric "RecordError" ["get_datamover"; ""; req.1];;
        mret (ResultZero, Some err)
  | inr dataMover =>
      let phase := Phase (dm_Status dataMover) in
      metric "SetCurrentPhase"
             [Name dataMover; Namespace dataMover; pretty (GetPhaseMetricValue phase)];;
      if decide (phase = PhaseInitial) then
        metric "RecordOperationStart" [PhaseCreatingPVC; Namespace dataMover];;
        t ← timeNow;
        ps ← getPhaseStart;
        setPhaseStart (<[nnString req +:+ "-" +:+ PhaseCreatingPVC := Unix t]> ps);;
        createClonedPVC dataMover
      else if decide (phase = PhaseCreatingPVC) then
        waitForPVCBound dataMover
      else if decide (phase = PhasePVCReady) then
        ps ← getPhaseStart;
        match ps !! (nnString req +:+ "-" +:+ PhaseCreatingPVC) with
        | Some startTime =>
            t ← timeNow;
            metric "RecordPhaseDuration"
                   [PhaseCreatingPVC; Namespace dataMover; pretty (Unix t - startTime)];;
            setPhaseStart (delete (nnString req +:+ "-" +:+ PhaseCreatingPVC) ps)
        | None => mret tt
        end;;
        metric "RecordOperationSuccess" [PhaseCreatingPVC; Namespace dataMover];;
        metric "RecordOperationStart" [PhaseCreatingPod; Namespace dataMover];;
        t ← timeNow;
        ps ← getPhaseStart;
        setPhaseStart (<[nnString req +:+ "-" +:+ PhaseCreatingPod := Unix t]> ps);;
        createVerificationJob dataMover
      else if decide (phase = PhaseCreatingPod) then
        waitForJobCompletion dataMover
      else if decide (phase = PhaseCleaningUp) then
        cleanupClonedPVC dataMover
      else if decide (phase = PhaseCompleted) then
        mret (ResultZero, None)
      else if decide (phase = PhaseFailed) then
        ps ← getPhaseStart;
        forgetPhaseStarts (nnString req) (map_to_list ps).*1;;
        metric "RecordOperationFailure" [phase; Namespace dataMover];;
        metric "RecordDataSyncOperation" ["failure"; Namespace dataMover];;
        mret (ResultZero, None)
      else
        mret (ResultRequeue, None)
  end.

End DataMoverReconciler.

(** ** The reconciler of populated claims ([datamoverpopulator_controller.go]) *)

Module DataMoverPopulatorReconciler.

Definition GroupName : string := "datamover.a-cup-of.coffee".
Definition KindPopulator : string := "DataMoverPopulator".
Definition annPopulated : string := "datamover.a-cup-of.coffee/populated".
Definition annPopulatedBy : string := "datamover.a-cup-of.coffee/populated-by".
Definition annPopulatedAt : string := "datamover.a-cup-of.coffee/populated-at".
Definition annPopulating : string := "datamover.a-cup-of.coffee/populating".
Definition annPrimePVC : string := "datamover.a-cup-of.coffee/prime-pvc".
Definition annCleanup : string := "datamover.a-cup-of.coffee/cleanup-in-progress".

(** [if v, exists := x.Annotations[k]; exists && v == "true"], under the
    guard [x.Annotations != nil]. *)
Definition flagged (m : ObjectMeta) (k : string) : bool :=
  bool_decide (annotation m k = Some "true").

Definition primeName (pvc : PersistentVolumeClaim) : string := Name pvc +:+ "-prime".
Definition populationJobName (prime : string) : string := "datamover-populator-" +:+ prime.

(** [controllerutil.SetControllerReference]: the job is new and lives in the
    namespace of its owner, so the reference is added. *)
Definition SetControllerReference (owner : PersistentVolumeClaim) (job : Job) : Job :=
  let ref := {| owner_Kind := "PersistentVolumeClaim"; owner_Name := Name owner;
                owner_Controller := true |} in
  {| job_ObjectMeta := setOwnerReferences (OwnerReferences job ++ [ref])%list job;
     job_Spec := job_Spec job; job_Status := job_Status job |}.

(** The job of [createPopulationJob], from the secret it has read.  The
    keys of the secret are ranged over in the order of [map_to_list]; Go
    fixes no order. *)
Definition populationJob (pvc : PersistentVolumeClaim) (populator : DataMoverPopulator)
    (secret : Secret) : Job :=
  let spec := pop_Spec populator in
  let fromSecret :=
    (λ key, {| env_Name := key; env_Value := "";
               env_SecretKeyRef := Some {| selector_Name := pop_SecretName spec;
                                           selector_Key := key |} |})
      <$> (map_to_list (Data secret)).*1 in
  let envVars :=
    (fromSecret ++ [envValue "SOURCE_PATH" (Path spec)]
       ++ [envValue "POPULATION_MODE" "true"]
       ++ (if decide (0 < length (pop_AdditionalEnv spec))%nat
           then pop_AdditionalEnv spec else []))%list in
  let '(image, pullPolicy) :=
    match pop_Image spec with
    | Some img =>
        let imageName :=
          if decide (Repository img = "") then "ghcr.io/qjoly/datamover-rclone"
          else Repository img in
        let imageTag := if decide (Tag img = "") then "latest" else Tag img in
        (imageName +:+ ":" +:+ imageTag,
         if decide (PullPolicy img = "") then "Always" else PullPolicy img)
    | None => ("ghcr.io/qjoly/datamover-rclone:latest", "Always")
    end in
  let jobName := populationJobName (Name pvc) in
  let backoffLimit := 2 in
  let job :=
    {| job_ObjectMeta :=
         setLabels {[ "app.kubernetes.io/created-by" := "datamover-populator";
                      "datamover.a-cup-of.coffee/populator" := Name populator;
                      "datamover.a-cup-of.coffee/pvc" := Name pvc ]}
                   (newMeta jobName (Namespace pvc));
       job_Spec :=
         {| BackoffLimit := Some backoffLimit;
            InitContainers :=
              [ {| container_Name := "chown-data";
                   Image := image;
                   ImagePullPolicy := "";
                   Command := ["sh"; "-c"; "chmod a+rwx /data/"];
                   Env := envVars;
                   EnvFrom := [];
                   VolumeMounts := [ {| mount_Name := "target-data"; MountPath := "/data/" |} ] |} ];
            Containers :=
              [ {| container_Name := "population";
                   Image := image;
                   ImagePullPolicy := pullPolicy;
                   Command := [];
                   Env := envVars;
                   EnvFrom := [];
                   VolumeMounts := [ {| mount_Name := "target-data"; MountPath := "/data/" |};
                                     {| mount_Name := "config-dir"; MountPath := "/config" |} ] |} ];
            Volumes :=
              [ {| volume_Name := "target-data"; volume_Source := FromClaim (Name pvc) |};
                {| volume_Name := "config-dir"; volume_Source := EmptyDir |} ];
            RestartPolicy := "Never" |};
       job_Status := JobStatusZero |} in
  SetControllerReference pvc job.

Definition createPopulationJob (pvc : PersistentVolumeClaim)
    (populator : DataMoverPopulator) : M (ApiError + Job) :=
  r ← GetSecret (Namespace pvc, pop_SecretName (pop_Spec populator));
  match r : ApiError + Secret with
  | inl err => mret (inl err)
  | inr secret => mret (inr (populationJob pvc populator secret))
  end.

(** The first loop of [finalizePopulation], entered at attempt [i] with
    [left] attempts to go ([for i := 0; i < maxRetries; i++]).  [Some err] is
    the [return ctrl.Result{}, err] of the body; [None] is the loop left by
    [break] or by its condition. *)
Fixpoint clearClaimRef (volumeName : string) (maxRetries i : Z) (left : nat) :
    M (option ApiError) :=
  match left with
  | O => mret None
  | S left' =>
      r ← GetVolume volumeName;
      match r : ApiError + PersistentVolume with
      | inl err => mret (Some err)
      | inr freshPV =>
          let freshPV := {| pv_ObjectMeta := pv_ObjectMeta freshPV; ClaimRef := None |} in
          err ← UpdateVolume freshPV;
          match err with
          | Some e =>
              if IsConflict (Some e) && bool_decide (i < maxRetries - 1)%Z then
                Sleep (Millisecond * 100 * (i + 1));;
                clearClaimRef volumeName maxRetries (i + 1) left'
              else mret (Some e)
          | None => mret None
          end
      end
  end.

(** The second loop of [finalizePopulation]: the final update of the claim. *)
Fixpoint markPopulated (key : NamespacedName) (maxPVCRetries i : Z) (left : nat) :
    M (option ApiError) :=
  match left with
  | O => mret None
  | S left' =>
      r ← GetClaim key;
      match r : ApiError + PersistentVolumeClaim with
      | inl err => mret (Some err)
      | inr freshFinalPVC =>
          let annotations := annotationsOrEmpty freshFinalPVC in
          let annotations := <[annPopulated := "true"]> annotations in
          let annotations := delete annPopulating annotations in
          let annotations := delete annCleanup annotations in
          let freshFinalPVC :=
            pvcWithMeta (setAnnotations (Some annotations) freshFinalPVC) freshFinalPVC in
          err ← UpdateClaim freshFinalPVC;
          match err with
          | Some e =>
              if IsConflict (Some e) && bool_decide (i < maxPVCRetries - 1)%Z then
                Sleep (Millisecond * 100 * (i + 1));;
                markPopulated key maxPVCRetries (i + 1) left'
              else mret (Some e)
          | None => mret None
          end
      end
  end.

(** The hand-off of [finalizePopulation], under its guard. *)
Definition transferVolume (originalPVC primePVC : PersistentVolumeClaim) : M Reply :=
  let volumeName := VolumeName (pvc_Spec primePVC) in
  r ← GetVolume volumeName;
  match r : ApiError + PersistentVolume with
  | inl err => mret (ResultZero, Some err)
  | inr _pv =>
  r ← GetClaim (Namespace originalPVC, Name originalPVC);
  match r : ApiError + PersistentVolumeClaim with
  | inl err => mret (ResultZero, Some err)
  | inr freshOriginalPVC =>
  let freshOriginalPVC :=
    pvcWithSpec (setVolumeName volumeName (pvc_Spec freshOriginalPVC)) freshOriginalPVC in
  let freshOriginalPVC :=
    pvcWithMeta (setAnnotations
                   (Some (<[annCleanup := "true"]> (annotationsOrEmpty freshOriginalPVC)))
                   freshOriginalPVC) freshOriginalPVC in
  err ← UpdateClaim freshOriginalPVC;
  match err with
  | Some e => mret (ResultZero, Some e)
  | None =>
  let jobName := populationJobName (Name primePVC) in
  r ← GetJob (Namespace primePVC, jobName);
  match r : ApiError + Job with
  | inr existingJob =>
      match DeletionTimestamp existingJob with
      | None =>
          t ← timeNow;
          err ← DeleteJob (Unix t) existingJob;    (* propagation: Background *)
          match err with
          | Some e => mret (ResultZero, Some e)
          | None => mret (ResultAfter (Second * 3), None)
          end
      | Some _ => mret (ResultAfter (Second * 3), None)
      end
  | inl jobErr =>
  if negb (IsNotFound (Some jobErr)) then mret (ResultZero, Some jobErr) else
  r ← GetClaim (Namespace primePVC, Name primePVC);
  match r : ApiError + PersistentVolumeClaim with
  | inl err => mret (ResultZero, Some err)
  | inr latestPrimePVC =>
  err ← match DeletionTimestamp latestPrimePVC with
        | Some _ => mret None
        | None => t ← timeNow; DeleteClaim (Unix t) latestPrimePVC
        end;
  match err with
  | Some e => mret (ResultZero, Some e)
  | None =>
  let maxRetries := 3 in
  err ← clearClaimRef volumeName maxRetries 0 (Z.to_nat maxRetries);
  match err with
  | Some e => mret (ResultZero, Some e)
  | None =>
  let maxPVCRetries := 3 in
  err ← markPopulated (Namespace originalPVC, Name originalPVC)
          maxPVCRetries 0 (Z.to_nat maxPVCRetries);
  match err with
  | Some e => mret (ResultZero, Some e)
  | None => mret (ResultAfter (Second * 5), None)
  end end end end end end end end.

Definition finalizePopulation (originalPVC primePVC : PersistentVolumeClaim)
    (populator : DataMoverPopulator) : M Reply :=
  t ← timeNow;
  let primeAnnotations := annotationsOrEmpty primePVC in
  let primeUpdated := bool_decide (primeAnnotations !! annPopulated = None) in
  let primePVC :=
    if primeUpdated then
      pvcWithMeta (setAnnotations
                     (Some (<[annPopulatedAt := RFC3339 t]>
                              (<[annPopulatedBy := Name populator]>
                                 (<[annPopulated := "true"]> primeAnnotations))))
                     primePVC) primePVC
    else pvcWithMeta (setAnnotations (Some primeAnnotations) primePVC) primePVC in
  err ← (if primeUpdated then UpdateClaim primePVC else mret None);
  match err with
  | Some e => mret (ResultZero, Some e)
  | None =>
  (* the original claim is marked "populating"; "populated" comes after cleanup *)
  let originalAnnotations := annotationsOrEmpty originalPVC in
  let originalUpdated := bool_decide (originalAnnotations !! annPopulating = None) in
  let originalPVC :=
    if originalUpdated then
      pvcWithMeta (setAnnotations
                     (Some (<[annPrimePVC := Name primePVC]>
                              (<[annPopulatedAt := RFC3339 t]>
                                 (<[annPopulatedBy := Name populator]>
                                    (<[annPopulating := "true"]> originalAnnotations)))))
                     originalPVC) originalPVC
    else pvcWithMeta (setAnnotations (Some originalAnnotations) originalPVC) originalPVC in
  err ← (if originalUpdated then UpdateClaim originalPVC else mret None);
  match err with
  | Some e => mret (ResultZero, Some e)
  | None =>
      if bool_decide (pvc_Phase originalPVC = ClaimPending)
         && bool_decide (pvc_Phase primePVC = ClaimBound)
      then transferVolume originalPVC primePVC
      else mret (ResultZero, None)
  end end.

(** The prime claim that [ensurePopulationJob] creates. *)
Definition newPrimePVC (pvc : PersistentVolumeClaim) (populator : DataMoverPopulator) :
    PersistentVolumeClaim :=
  {| pvc_ObjectMeta :=
       setLabels {[ "datamover.a-cup-of.coffee/prime-for" := Name pvc;
                    "datamover.a-cup-of.coffee/populator" := Name populator ]}
                 (newMeta (primeName pvc) (Namespace pvc));
     pvc_Spec :=
       {| AccessModes := AccessModes (pvc_Spec pvc);
          Resources := Resources (pvc_Spec pvc);
          VolumeName := "";
          StorageClassName := StorageClassName (pvc_Spec pvc);
          VolumeMode := VolumeMode (pvc_Spec pvc);
          (* importantly: no dataSourceRef here *)
          DataSource := None;
          DataSourceRef := None |};
     pvc_Phase := "" |}.

(** [ensurePopulationJob] once the prime claim is there and bound. *)
Definition runPopulationJob (pvc primePVC : PersistentVolumeClaim)
    (populator : DataMoverPopulator) : M Reply :=
  let jobName := populationJobName (primeName pvc) in
  r ← GetJob (Namespace pvc, jobName);
  match r : ApiError + Job with
  | inr existingJob =>
      if decide (0 < Succeeded (job_Status existingJob)) then
        finalizePopulation pvc primePVC populator
      else if decide (0 < Failed (job_Status existingJob)) then
        t ← timeNow;
        err ← DeleteJob (Unix t) existingJob;
        match err with
        | Some e => mret (ResultZero, Some e)
        | None => mret (ResultAfter (Minute * 2), None)
        end
      else mret (ResultAfter (Minute * 1), None)
  | inl err =>
      if negb (IsNotFound (Some err)) then mret (ResultZero, Some err) else
      r ← createPopulationJob primePVC populator;
      match r with
      | inl e => mret (ResultZero, Some e)
      | inr job =>
          err ← CreateJob job;
          match err with
          | Some e => mret (ResultZero, Some e)
          | None => mret (ResultAfter (Minute * 1), None)
          end
      end
  end.

Definition ensurePopulationJob (pvc : PersistentVolumeClaim)
    (populator : DataMoverPopulator) : M Reply :=
  if flagged pvc annPopulated then mret (ResultZero, None)
  else if flagged pvc annCleanup then
    (* cleanup is in progress: no population job is created or processed *)
    r ← GetClaim (Namespace pvc, primeName pvc);
    match r : ApiError + PersistentVolumeClaim with
    | inr primePVC => finalizePopulation pvc primePVC populator
    | inl _ => mret (ResultAfter (Second * 3), None)
    end
  else
    r ← GetClaim (Namespace pvc, primeName pvc);
    match r : ApiError + PersistentVolumeClaim with
    | inr primePVC =>
        match DeletionTimestamp primePVC with
        | Some _ => mret (ResultAfter (Second * 5), None)
        | None =>
            if decide (pvc_Phase primePVC ≠ ClaimBound)
            then mret (ResultAfter (Second * 10), None)
            else runPopulationJob pvc primePVC populator
        end
    | inl err =>
        if negb (IsNotFound (Some err)) then mret (ResultZero, Some err)
        else if flagged pvc annCleanup then mret (ResultAfter (Second * 3), None)
        else if flagged pvc annPopulating then mret (ResultAfter (Second * 5), None)
        else
          err ← CreateClaim (newPrimePVC pvc populator);
          match err with
          | Some e => mret (ResultZero, Some e)
          | None => mret (ResultAfter (Second * 10), None)
          end
    end.

Definition Reconcile (req : NamespacedName) : M Reply :=
  r ← GetClaim req;
  match r : ApiError + PersistentVolumeClaim with
  | inl err =>
      if IsNotFound (Some err) then mret (ResultZero, None)
      else mret (ResultZero, Some err)
  | inr pvc =>
      match DataSourceRef (pvc_Spec pvc) with
      | None => mret (ResultZero, None)
      | Some ref =>
      match ref_APIGroup ref with
      | None => mret (ResultZero, None)
      | Some group =>
      if decide (group ≠ GroupName) then mret (ResultZero, None)
      else if decide (ref_Kind ref ≠ KindPopulator) then mret (ResultZero, None)
      else
        let populatorName := ref_Name ref in
        r ← GetPopulator (Namespace pvc, populatorName);
        match r : ApiError + DataMoverPopulator with
        | inl err =>
            if IsNotFound (Some err) then
              if decide (pvc_Phase pvc = ClaimBound) then mret (ResultZero, None)
              else if flagged pvc annPopulated then mret (ResultZero, None)
              else mret (ResultAfter (Second * 10), None)
            else mret (ResultZero, Some err)
        | inr populator =>
            if flagged pvc annPopulated then
              (* also check that cleanup is complete (no prime claim exists) *)
              r ← GetClaim (Namespace pvc, primeName pvc);
              match r : ApiError + PersistentVolumeClaim with
              | inl err =>
                  if IsNotFound (Some err) then mret (ResultZero, None)
                  else mret (ResultZero, Some err)
              | inr _ => ensurePopulationJob pvc populator
              end
            else ensurePopulationJob pvc populator
        end
      end end
  end.

End DataMoverPopulatorReconciler.

(** ** Vocabulary of the statements *)

(** The environment's answer to the [i]-th call of an invocation (from 0):
    [None] when it lets the call through to the store. *)
Definition refusal (f : list (option ApiError)) (i : nat) : option ApiError :=
  mjoin (f !! i).

(** Every claim of the store lies under its own identity. *)
Definition claimsKeyed (c : Cluster) : Prop :=
  map_Forall (λ k (o : PersistentVolumeClaim), metaKey o = k) (claims c).

(** The table of section 4.1 of the specification, as the claim lists it:
    the phases that a phase may be followed by. *)
Definition phaseEdge (from to : string) : bool :=
  if decide (from = "") then bool_decide (to = "CreatingClonedPVC")
  else if decide (from = "CreatingClonedPVC") then bool_decide (to = "ClonedPVCReady")
  else if decide (from = "ClonedPVCReady") then bool_decide (to = "CreatingPod")
  else if decide (from = "CreatingPod")
       then bool_decide (to = "CleaningUp" ∨ to = "Completed" ∨ to = "Failed")
  else if decide (from = "CleaningUp") then bool_decide (to = "Completed" ∨ to = "Failed")
  else false.

Definition isDelete (e : Event) : bool :=
  match e with EvDelete _ _ => true | _ => false end.

Definition isCreate (e : Event) : bool :=
  match e with EvCreateClaim _ | EvCreateJob _ => true | _ => false end.

Definition isUpdateVolume (e : Event) : bool :=
  match e with EvUpdateVolume _ => true | _ => false end.

Definition isUpdateClaim (e : Event) : bool :=
  match e with EvUpdateClaim _ => true | _ => false end.

Definition sleeps (l : list Event) : list Z :=
  omap (λ e, match e with EvSleep d => Some d | _ => None end) l.

(** The phase of a DataMover in a store. *)
Definition phaseOf (c : Cluster) (key : NamespacedName) : option string :=
  (λ dm : DataMover, Phase (dm_Status dm)) <$> dataMovers c !! key.

(** The condition of the claim: no data-source reference, or a reference
    of another API group (a missing group is another group), or of another kind. *)
Definition notForPopulator (pvc : PersistentVolumeClaim) : Prop :=
  match DataSourceRef (pvc_Spec pvc) with
  | None => True
  | Some ref =>
      ref_APIGroup ref ≠ Some "datamover.a-cup-of.coffee"
      ∨ ref_Kind ref ≠ "DataMoverPopulator"
  end.

(** A status write is for the request that the store held when the
    invocation began, and carries a phase that the table allows after the
    phase the request had then. *)
Definition phaseWriteOk (stored : option DataMover) (e : Event) : Prop :=
  match e with
  | EvUpdateStatus o =>
      ∃ dm : DataMover, stored = Some dm
        ∧ dm_ObjectMeta o = dm_ObjectMeta dm
        ∧ phaseEdge (Phase (dm_Status dm)) (Phase (dm_Status o)) = true
  | _ => True
  end.

(** The calls of a kind that a trace holds. *)
Definition attempts (p : Event → bool) (w : World) : nat :=
  length (List.filter p (trace w)).

(** The attempts of the final update of the hand-off in a trace (newest
    first): the claim updates that come after a volume update. *)
Fixpoint finalAttempts (tr : list Event) : nat :=
  match tr with
  | [] => O
  | e :: tr =>
      if existsb isUpdateVolume tr
      then (if isUpdateClaim e then S (finalAttempts tr) else finalAttempts tr)
      else O
  end.


(** An invocation of the Volume Population reconciler creates the claim
    [o]: it asks the store to create it and the store accepts, so that the
    invocation returns without an error. *)
Definition createsClaim (c : Cluster) (f : list (option ApiError)) (t : Clock)
    (ps : gmap string Z) (req : NamespacedName) (o : PersistentVolumeClaim) : Prop :=
  let r := DataMoverPopulatorReconciler.Reconcile req (enter c f t ps) in
  EvCreateClaim o ∈ events r.2 ∧ ∃ result, r.1 = Returned (result, None).



(** The annotations that the final update of the hand-off leaves. *)
Definition finalAnnotations (o : ObjectMeta) : Prop :=
  annotation o "datamover.a-cup-of.coffee/populated" = Some "true"
  ∧ annotation o "datamover.a-cup-of.coffee/populating" = None
  ∧ annotation o "datamover.a-cup-of.coffee/cleanup-in-progress" = None.





(** ** Reasoning about programs *)

(** [wp m Q w]: running [m] in [w] ends in an outcome and a world that
    satisfy [Q]. *)
Definition wp {A} (m : M A) (Q : Outcome A → World → Prop) (w : World) : Prop :=
  Q (m w).1 (m w).2.

(** What [wp] asks of the rest of a program once its first part has run. *)
Definition andThen {A B} (f : A → M B) (Q : Outcome B → World → Prop) :
    Outcome A → World → Prop :=
  λ o w, match o with
         | Returned a => wp (f a) Q w
         | Panicked msg => Q (Panicked msg) w
         end.

(** The world after a call: the trace grows by the call, the script of the
    environment has moved on, the store is the one given. *)
Definition after (e : Event) (c : Cluster) (f : list (option ApiError)) (w : World) : World :=
  {| cluster := c; faults := f; now := now w; PhaseStart := PhaseStart w;
     trace := e :: trace w |}.


(** ** Vocabulary of the further properties *)

(** The phases that the state machine names, in the order of the values
    that [metrics.go] gives them. *)
Definition knownPhases : list string :=
  [DataMoverReconciler.PhaseInitial; DataMoverReconciler.PhaseCreatingPVC;
   DataMoverReconciler.PhasePVCReady; DataMoverReconciler.PhaseCreatingPod;
   DataMoverReconciler.PhaseCleaningUp; DataMoverReconciler.PhaseCompleted;
   DataMoverReconciler.PhaseFailed].

(** [key[:len(nn)] == nn], for a key that is long enough. *)
Definition startsWith (nn key : string) : Prop :=
  nn = String.substring 0 (String.length nn) key.

(** The phase durations that a trace reports, oldest first: for each call
    of [metrics.RecordPhaseDuration] its labels, the phase and the
    namespace.  The value of the duration is left out: the clock of the
    embedding reads whole seconds. *)
Fixpoint durationLabels (l : list Event) : list (list string) :=
  match l with
  | [] => []
  | EvMetric fn args :: l =>
      if decide (fn = "RecordPhaseDuration") then take 2 args :: durationLabels l
      else durationLabels l
  | _ :: l => durationLabels l
  end.

(** What the DataMover reconciler may ask of the store in an invocation
    for the request [req], given the store [c] it starts from. *)
Definition moverCallOk (c : Cluster) (req : NamespacedName) (e : Event) : Prop :=
  match e with
  | EvGet k _ => k = KDataMover ∨ k = KClaim ∨ k = KJob
  | EvCreateClaim o =>
      ∃ dm : DataMover,
        dataMovers c !! req = Some dm
        ∧ Phase (dm_Status dm) = ""
        ∧ Namespace o = Namespace dm
        ∧ Name o ≠ SourcePVC (dm_Spec dm)
  | EvCreateJob o =>
      ∃ dm : DataMover,
        dataMovers c !! req = Some dm
        ∧ Phase (dm_Status dm) = "ClonedPVCReady"
        ∧ o = DataMoverReconciler.verificationJob dm
  | EvDelete k key =>
      ∃ (dm : DataMover) (clone : PersistentVolumeClaim),
        dataMovers c !! req = Some dm
        ∧ Phase (dm_Status dm) = "CleaningUp"
        ∧ k = KClaim
        ∧ claims c !! (Namespace dm, RestoredPVCName (dm_Status dm)) = Some clone
        ∧ key = metaKey clone
  | EvUpdateStatus o =>
      ∃ dm : DataMover,
        dataMovers c !! req = Some dm
        ∧ dm_ObjectMeta o = dm_ObjectMeta dm
        ∧ dm_Spec o = dm_Spec dm
  | EvUpdateClaim _ | EvUpdateVolume _ => False
  | EvSleep _ | EvMetric _ _ => True
  end.

(** The surroundings of the DataMover reconciler: the provisioner binds a
    claim, the job controller reports a success. *)
Definition claimIsBound (key : NamespacedName) (c : Cluster) : Cluster :=
  withClaims (alter (λ p : PersistentVolumeClaim,
                       {| pvc_ObjectMeta := pvc_ObjectMeta p; pvc_Spec := pvc_Spec p;
                          pvc_Phase := ClaimBound |}) key (claims c)) c.

Definition jobHasSucceeded (key : NamespacedName) (c : Cluster) : Cluster :=
  withJobs (alter (λ j : Job,
                     {| job_ObjectMeta := job_ObjectMeta j; job_Spec := job_Spec j;
                        job_Status := {| Active := 0; Succeeded := 1;
                                         Failed := Failed (job_Status j) |} |})
                  key (jobs c)) c.

(** The next invocation for [req], at the time [t], without refusals, once
    the surroundings have done [env] to the store; the reconciler keeps its
    start times from the invocation before. *)
Definition thenReconcile (req : NamespacedName) (t : Clock) (env : Cluster → Cluster)
    (r : Outcome Reply * World) : Outcome Reply * World :=
  DataMoverReconciler.Reconcile req (enter (env (cluster r.2)) [] t (PhaseStart r.2)).

(** The populator that a claim names: the name of its data-source
    reference, when the reference is of the API group and the kind that the
    Volume Population reconciler answers to. *)
Definition populatorName (pvc : PersistentVolumeClaim) : option string :=
  match DataSourceRef (pvc_Spec pvc) with
  | Some ref =>
      match ref_APIGroup ref with
      | Some group =>
          if decide (group = DataMoverPopulatorReconciler.GroupName
                     ∧ ref_Kind ref = DataMoverPopulatorReconciler.KindPopulator)
          then Some (ref_Name ref) else None
      | None => None
      end
  | None => None
  end.

(** Every job of the store lies under its own identity. *)
Definition jobsKeyed (c : Cluster) : Prop :=
  map_Forall (λ k (o : Job), metaKey o = k) (jobs c).

(** The store in which the hand-off reaches its loops: the target claim
    [pvc] of the request is [Pending], marked [cleanup-in-progress=true] and
    not [populated=true], and carries a [populating] annotation; its prime
    claim is [Bound] to the volume [pv] of the store, is not being deleted
    and carries a [populated] annotation; the populator is there and the
    population job is gone. *)
Definition handoffUnderWay (c : Cluster) (req : NamespacedName)
    (pvc prime : PersistentVolumeClaim) (populator : DataMoverPopulator)
    (pv : PersistentVolume) : Prop :=
  claims c !! req = Some pvc
  ∧ metaKey pvc = req
  ∧ populatorName pvc = Some (Name populator)
  ∧ populators c !! (Namespace pvc, Name populator) = Some populator
  ∧ annotation pvc "datamover.a-cup-of.coffee/populated" ≠ Some "true"
  ∧ annotation pvc "datamover.a-cup-of.coffee/cleanup-in-progress" = Some "true"
  ∧ is_Some (annotation pvc "datamover.a-cup-of.coffee/populating")
  ∧ pvc_Phase pvc = "Pending"
  ∧ claims c !! (Namespace pvc, Name pvc +:+ "-prime") = Some prime
  ∧ metaKey prime = (Namespace pvc, Name pvc +:+ "-prime")
  ∧ DeletionTimestamp prime = None
  ∧ pvc_Phase prime = "Bound"
  ∧ is_Some (annotation prime "datamover.a-cup-of.coffee/populated")
  ∧ jobs c !! (Namespace pvc, "datamover-populator-" +:+ Name pvc +:+ "-prime") = None
  ∧ volumes c !! VolumeName (pvc_Spec prime) = Some pv
  ∧ Name pv = VolumeName (pvc_Spec prime).

(** What the Volume Population reconciler may ask of the store in an
    invocation for the claim [req]. *)
Definition populatorCallOk (req : NamespacedName) (e : Event) : Prop :=
  let primeKey := (req.1, req.2 +:+ "-prime") in
  let jobKey := (req.1, "datamover-populator-" +:+ req.2 +:+ "-prime") in
  match e with
  | EvGet k _ => k ≠ KDataMover
  | EvCreateClaim o => metaKey o = primeKey ∧ DataSourceRef (pvc_Spec o) = None
  | EvCreateJob o => metaKey o = jobKey
  | EvUpdateClaim o => metaKey o = req ∨ metaKey o = primeKey
  | EvUpdateVolume o => ClaimRef o = None
  | EvDelete k key => (k = KClaim ∧ key = primeKey) ∨ (k = KJob ∧ key = jobKey)
  | EvUpdateStatus _ => False
  | EvSleep _ | EvMetric _ _ => True
  end.

(** A world whose claims and jobs lie under their own identities, and whose
    trace holds only such calls. *)
Definition confined (req : NamespacedName) (w : World) : Prop :=
  claimsKeyed (cluster w) ∧ jobsKeyed (cluster w)
  ∧ Forall (populatorCallOk req) (trace w).

(** ** Fixtures: a small cluster for the closed examples *)

Module Fixtures.

Definition clock : Clock := {| Unix := 1700000000; RFC3339 := "2023-11-14T22:13:20Z" |}.

Definition claimSpec (vol : string) (ref : option TypedObjectReference) :
    PersistentVolumeClaimSpec :=
  {| AccessModes := ["ReadWriteOnce"];
     Resources := {| Limits := ∅; Requests := {[ ResourceStorage := 1073741824 ]} |};
     VolumeName := vol; StorageClassName := Some "fast"; VolumeMode := Some "Filesystem";
     DataSource := None; DataSourceRef := ref |}.

Definition source : PersistentVolumeClaim :=
  {| pvc_ObjectMeta := newMeta "app-data" "prod"; pvc_Spec := claimSpec "pv-0" None;
     pvc_Phase := "Bound" |}.

Definition clone : PersistentVolumeClaim :=
  {| pvc_ObjectMeta := newMeta "app-data-cloned-1700000000" "prod";
     pvc_Spec := claimSpec "pv-9" None; pvc_Phase := "Bound" |}.

Definition mover (name phase restored : string) (cleanup : bool) : DataMover :=
  {| dm_ObjectMeta := newMeta name "prod";
     dm_Spec := {| SourcePVC := "app-data"; SecretName := "s3-credentials";
                   AdditionalEnv := []; AddTimestampPrefix := true;
                   DeletePvcAfterBackup := cleanup;
                   dm_Image := {| image_Name := ""; image_Tag := ""; image_PullPolicy := "" |} |};
     dm_Status := {| Phase := phase; RestoredPVCName := restored |} |}.

Definition syncJob (succeeded failed : Z) : Job :=
  {| job_ObjectMeta := newMeta "verify-app-data-cloned-1700000000" "prod";
     job_Spec := {| BackoffLimit := Some 2; InitContainers := []; Containers := [];
                    Volumes := []; RestartPolicy := "Never" |};
     job_Status := {| Active := 1; Succeeded := succeeded; Failed := failed |} |}.

(** A cluster with one DataMover named [backup], its source claim, and
    whatever else is given. *)
Definition moverCluster (dm : DataMover) (more : list PersistentVolumeClaim)
    (js : list Job) : Cluster :=
  {| dataMovers := {[ metaKey dm := dm ]};
     populators := ∅;
     claims := list_to_map ((λ p : PersistentVolumeClaim, (metaKey p, p)) <$> source :: more);
     jobs := list_to_map ((λ j : Job, (metaKey j, j)) <$> js);
     secrets := ∅; volumes := ∅ |}.

Definition populatorRef : TypedObjectReference :=
  {| ref_APIGroup := Some "datamover.a-cup-of.coffee"; ref_Kind := "DataMoverPopulator";
     ref_Name := "restore"; ref_Namespace := None |}.

Definition target (ann : option (gmap string string)) : PersistentVolumeClaim :=
  {| pvc_ObjectMeta := setAnnotations ann (newMeta "data" "prod");
     pvc_Spec := claimSpec "" (Some populatorRef); pvc_Phase := "Pending" |}.

Definition prime (ann : option (gmap string string)) : PersistentVolumeClaim :=
  {| pvc_ObjectMeta := setAnnotations ann (newMeta "data-prime" "prod");
     pvc_Spec := claimSpec "pv-1" None; pvc_Phase := "Bound" |}.

Definition populator : DataMoverPopulator :=
  {| pop_ObjectMeta := newMeta "restore" "prod";
     pop_Spec := {| pop_SecretName := "s3-credentials"; Path := "s3://bucket/path/";
                    pop_Image := None; pop_AdditionalEnv := [] |} |}.

Definition volume : PersistentVolume :=
  {| pv_ObjectMeta := newMeta "pv-1" "";
     ClaimRef := Some {| claimRef_Namespace := "prod"; claimRef_Name := "data-prime" |} |}.

Definition populatorCluster (ps : list PersistentVolumeClaim) (js : list Job) : Cluster :=
  {| dataMovers := ∅;
     populators := {[ metaKey populator := populator ]};
     claims := list_to_map ((λ p : PersistentVolumeClaim, (metaKey p, p)) <$> ps);
     jobs := list_to_map ((λ j : Job, (metaKey j, j)) <$> js);
     secrets := ∅;
     volumes := {[ "pv-1" := volume ]} |}.

End Fixtures.

(** ** Tactics *)

Ltac unfold_client :=
  unfold GetDataMover, GetPopulator, GetClaim, GetJob, GetSecret, GetVolume,
    CreateClaim, CreateJob, UpdateClaim, UpdateVolume, UpdateStatus, DeleteClaim, DeleteJob,
    metric, Sleep, emit, timeNow, getPhaseStart, setPhaseStart, panic,
    call, read, enter in *.

Ltac run_monad :=
  unfold mbind, M_bind, mret, M_ret, fmap, M_fmap in *; simpl in *.

(** Case analysis on the next answer of the environment. *)
Ltac next_answer f :=
  destruct f as [|[?|] f]; simpl in *; try discriminate.

Ltac unfold_phases :=
  unfold DataMoverReconciler.PhaseInitial, DataMoverReconciler.PhaseCreatingPVC,
    DataMoverReconciler.PhasePVCReady, DataMoverReconciler.PhaseCreatingPod,
    DataMoverReconciler.PhaseCleaningUp, DataMoverReconciler.PhaseCompleted,
    DataMoverReconciler.PhaseFailed in *.

#[local] Arguments String.append : simpl never.
#[local] Arguments pretty : simpl never.

(** ** Elementary facts *)

Lemma phaseOf_status_written (dms : gmap NamespacedName DataMover) c (dm old : DataMover) s :
  phaseOf (withDataMovers (<[metaKey dm := dmWithStatus s old]> dms) c) (metaKey dm)
  = Some (Phase s).
Proof. unfold phaseOf. simpl. by rewrite lookup_insert_eq. Qed.

Lemma append_length (a b : string) :
  String.length (a +:+ b) = (String.length a + String.length b)%nat.
Proof. induction a as [|x a IH]; simpl; [done | by rewrite IH]. Qed.

(** A claim is not its own prime claim. *)
Lemma primeName_neq (pvc : PersistentVolumeClaim) :
  DataMoverPopulatorReconciler.primeName pvc ≠ Name pvc.
Proof.
  unfold DataMoverPopulatorReconciler.primeName. intros H.
  apply (f_equal String.length) in H. rewrite append_length in H. simpl in H. lia.
Qed.

(** ** C10: claims that are not for the populator *)


(** C10. A storage claim that the store returns and whose data-source
    reference is nil, or names another API group, or another kind, is left
    alone by the Volume Population reconciler: it returns success with no
    requeue, the store is unchanged, and its only call was the read of the
    claim. *)
Theorem foreign_claims_are_left_alone c f t ps req (pvc : PersistentVolumeClaim) :
  claims c !! req = Some pvc →
  refusal f 0 = None →
  notForPopulator pvc →
  let r := DataMoverPopulatorReconciler.Reconcile req (enter c f t ps) in
  r.1 = Returned (ResultZero, None)
  ∧ cluster r.2 = c
  ∧ events r.2 = [EvGet KClaim req].
Proof.
  intros Hpvc Hf Hforeign.
  unfold DataMoverPopulatorReconciler.Reconcile. unfold_client. run_monad.
  next_answer f; rewrite Hpvc; simpl;
    unfold notForPopulator in Hforeign;
    destruct (DataSourceRef (pvc_Spec pvc)) as [ref|]; simpl; auto;
    destruct (ref_APIGroup ref) as [g|]; simpl; auto;
    unfold DataMoverPopulatorReconciler.GroupName,
      DataMoverPopulatorReconciler.KindPopulator in *;
    repeat case_decide; simpl; auto; subst; destruct Hforeign; congruence.
Qed.

Lemma foreign_claims_are_left_alone_witness :
  let c := Fixtures.populatorCluster [Fixtures.source] [] in
  let r := DataMoverPopulatorReconciler.Reconcile ("prod", "app-data")
             (enter c [] Fixtures.clock ∅) in
  r.1 = Returned (ResultZero, None)
  ∧ cluster r.2 = c
  ∧ events r.2 = [EvGet KClaim ("prod", "app-data")].
Proof.
  apply (foreign_claims_are_left_alone _ [] _ _ _ Fixtures.source).
  - vm_compute. reflexivity.
  - reflexivity.
  - exact I.
Defined.

(** ** C1: the wait for the sync job *)


(** A job observed with a success moves the phase on: to [CleaningUp] when
    cleanup was requested, to [Completed] otherwise. *)
Lemma success_advances (dm : DataMover) (job : Job) c f t ps :
  dataMovers c !! metaKey dm = Some dm →
  jobs c !! (Namespace dm, "verify-" +:+ RestoredPVCName (dm_Status dm)) = Some job →
  refusal f 0 = None → refusal f 1 = None →
  0 < Succeeded (job_Status job) →
  let r := DataMoverReconciler.waitForJobCompletion dm (enter c f t ps) in
  r.1 = Returned (ResultRequeue, None)
  ∧ phaseOf (cluster r.2) (metaKey dm)
    = Some (if DeletePvcAfterBackup (dm_Spec dm) then "CleaningUp" else "Completed").
Proof.
  intros Hdm Hjob H0 H1 Hs.
  unfold DataMoverReconciler.waitForJobCompletion. unfold_client. run_monad.
  next_answer f; rewrite Hjob; simpl.
  all: case_decide; [|lia]; simpl.
  all: destruct (ps !! _); simpl.
  all: try next_answer f.
  all: destruct (DeletePvcAfterBackup (dm_Spec dm)); simpl; rewrite Hdm; simpl.
  all: split; [done|]; apply phaseOf_status_written.
Qed.

(** What the code does with a job that has failed once or more and never
    succeeded: the phase becomes [Failed], whatever the backoff limit. *)
Lemma any_failure_marks_failed (dm : DataMover) (job : Job) c f t ps :
  dataMovers c !! metaKey dm = Some dm →
  jobs c !! (Namespace dm, "verify-" +:+ RestoredPVCName (dm_Status dm)) = Some job →
  refusal f 0 = None → refusal f 1 = None →
  Succeeded (job_Status job) ≤ 0 → 0 < Failed (job_Status job) →
  let r := DataMoverReconciler.waitForJobCompletion dm (enter c f t ps) in
  r.1 = Returned (ResultZero, None)
  ∧ phaseOf (cluster r.2) (metaKey dm) = Some "Failed".
Proof.
  intros Hdm Hjob H0 H1 Hs Hf.
  unfold DataMoverReconciler.waitForJobCompletion. unfold_client. run_monad.
  next_answer f; rewrite Hjob; simpl.
  all: repeat case_decide; try lia; simpl.
  all: try next_answer f; rewrite ?Hdm; simpl; rewrite ?Hdm; simpl.
  all: split; [done|]; apply phaseOf_status_written.
Qed.

(** C1, at the input where the code leaves it.  The sync job of the request
    [prod/backup] has the backoff limit 2 of [createVerificationJob] (3 attempts
    in all), no success, and one failed attempt: its retry budget is not
    used up.  The reconciler, in phase [CreatingPod], writes the terminal
    phase [Failed] and asks for no requeue. *)
Theorem first_failure_marks_failed :
  let job := Fixtures.syncJob 0 1 in
  let dm := Fixtures.mover "backup" "CreatingPod" "app-data-cloned-1700000000" false in
  let c := Fixtures.moverCluster dm [Fixtures.clone] [job] in
  let r := DataMoverReconciler.Reconcile ("prod", "backup") (enter c [] Fixtures.clock ∅) in
  BackoffLimit (job_Spec job) = BackoffLimit (job_Spec (DataMoverReconciler.verificationJob dm))
  ∧ BackoffLimit (job_Spec job) = Some 2
  ∧ Succeeded (job_Status job) = 0
  ∧ Failed (job_Status job) = 1
  ∧ phaseOf c ("prod", "backup") = Some "CreatingPod"
  ∧ r.1 = Returned (ResultZero, None)
  ∧ phaseOf (cluster r.2) ("prod", "backup") = Some "Failed".
Proof. vm_compute. repeat split. Qed.

(** ** C3: the initial step *)

(** C3. A DataMover request in the initial phase [""], read from the store.
    When its source claim exists (and the read of it goes through), the step
    issues exactly one creation: a claim named [<source>-cloned-<unix-seconds>]
    in the namespace of the request, with the access modes, the storage
    request and the storage class of the source claim as just read, and a
    data source that names the source claim.  When the store accepts the
    creation and the status update, the clone is the one claim added, the
    status holds the clone name and the phase [CreatingClonedPVC], and a
    requeue is asked.  When the source claim is absent the step returns an
    error, the store is unchanged and nothing was written. *)
Theorem initial_step_clones_the_source (dm : DataMover) c f t ps req :
  dataMovers c !! req = Some dm →
  metaKey dm = req →
  Phase (dm_Status dm) = "" →
  refusal f 0 = None →
  let source := SourcePVC (dm_Spec dm) in
  let name := source +:+ "-cloned-" +:+ pretty (Unix t) in
  let r := DataMoverReconciler.Reconcile req (enter c f t ps) in
  (∀ src : PersistentVolumeClaim,
      claims c !! (Namespace dm, source) = Some src →
      refusal f 1 = None →
      ∃ clone : PersistentVolumeClaim,
        filter (λ e, isCreate e = true) (events r.2) = [EvCreateClaim clone]
        ∧ metaKey clone = (Namespace dm, name)
        ∧ AccessModes (pvc_Spec clone) = AccessModes (pvc_Spec src)
        ∧ Requests (Resources (pvc_Spec clone))
          = {[ ResourceStorage :=
                 default 0 (Requests (Resources (pvc_Spec src)) !! ResourceStorage) ]}
        ∧ StorageClassName (pvc_Spec clone) = StorageClassName (pvc_Spec src)
        ∧ DataSource (pvc_Spec clone)
          = Some {| local_APIGroup := None; local_Kind := "PersistentVolumeClaim";
                    local_Name := source |}
        ∧ (claims c !! (Namespace dm, name) = None →
           refusal f 2 = None → refusal f 3 = None →
           r.1 = Returned (ResultRequeue, None)
           ∧ claims (cluster r.2) = <[(Namespace dm, name) := clone]> (claims c)
           ∧ dm_Status <$> dataMovers (cluster r.2) !! req
             = Some {| Phase := "CreatingClonedPVC"; RestoredPVCName := name |}))
  ∧ (claims c !! (Namespace dm, source) = None →
     ∃ err, r.1 = Returned (ResultZero, Some err)
            ∧ cluster r.2 = c
            ∧ writes r.2 = []).
Proof.
  intros Hdm Hkey Hphase H0. subst req.
  unfold DataMoverReconciler.Reconcile, DataMoverReconciler.createClonedPVC.
  unfold_client. unfold metaKey, newMeta in *. run_monad. unfold_phases.
  split.
  - intros src Hsrc H1.
    destruct f as [|[e0|] [|[e1|] [|[e2|] [|[e3|] f]]]]; simpl in *; try discriminate.
    all: rewrite Hdm; simpl; rewrite Hphase; simpl; rewrite Hsrc; simpl.
    all: destruct (claims c !! (_, _ +:+ _)) eqn:Hfree; simpl; rewrite ?Hdm; simpl.
    all: eexists; (split; [reflexivity|]); repeat (split; [reflexivity|]).
    all: intros; try discriminate.
    all: by rewrite lookup_insert_eq.
  - intros Habsent.
    destruct f as [|[e0|] [|[e1|] f]]; simpl in *; try discriminate.
    all: rewrite Hdm; simpl; rewrite Hphase; simpl; rewrite ?Habsent; simpl.
    all: eexists; repeat split.
Qed.

Lemma initial_step_clones_the_source_witness :
  let dm := Fixtures.mover "backup" "" "" true in
  let c := Fixtures.moverCluster dm [] [] in
  let r := DataMoverReconciler.Reconcile ("prod", "backup") (enter c [] Fixtures.clock ∅) in
  ∃ clone : PersistentVolumeClaim,
    claims (cluster r.2) !! ("prod", "app-data-cloned-1700000000") = Some clone
    ∧ AccessModes (pvc_Spec clone) = ["ReadWriteOnce"]
    ∧ Requests (Resources (pvc_Spec clone)) !! ResourceStorage = Some 1073741824
    ∧ StorageClassName (pvc_Spec clone) = Some "fast"
    ∧ phaseOf (cluster r.2) ("prod", "backup") = Some "CreatingClonedPVC".
Proof.
  intros dm c r.
  destruct (initial_step_clones_the_source dm c [] Fixtures.clock ∅ ("prod", "backup"))
    as [Hpresent _]; [reflexivity..|].
  destruct (Hpresent Fixtures.source) as (clone & _ & _ & Hmodes & Hsize & Hclass & _ & Hdone);
    [reflexivity..|].
  destruct Hdone as (_ & Hclaims & Hstatus); [reflexivity..|].
  exists clone. subst r.
  split; [rewrite Hclaims; apply lookup_insert_eq|].
  split; [rewrite Hmodes; reflexivity|].
  split; [rewrite Hsize; reflexivity|].
  split; [rewrite Hclass; reflexivity|].
  unfold phaseOf.
  destruct (dataMovers _ !! ("prod", "backup")) as [stored|]; [|discriminate].
  simpl in *. injection Hstatus as Hstatus. by rewrite Hstatus.
Defined.

(** ** C4: the cleanup step *)

(** C4. A DataMover request in phase [CleaningUp], read from the store.
    With no clone name in its status, no deletion is attempted and the phase
    becomes [Completed].  With a clone name whose claim the store does not
    hold, no deletion is attempted either and the phase becomes [Completed].
    With a clone that the store holds, one deletion, of the clone, is
    attempted; when it fails the phase becomes [Failed] and the claims of the
    store are as before; when it is accepted the phase becomes [Completed]
    and a clone without finalizers is gone.  (The phase is the one of the
    store once it has accepted the status update.) *)
Theorem cleanup_step_outcomes (dm : DataMover) c f t ps req :
  dataMovers c !! req = Some dm →
  metaKey dm = req →
  Phase (dm_Status dm) = "CleaningUp" →
  refusal f 0 = None →
  let cloneKey := (Namespace dm, RestoredPVCName (dm_Status dm)) in
  let r := DataMoverReconciler.Reconcile req (enter c f t ps) in
  (RestoredPVCName (dm_Status dm) = "" →
     filter (λ e, isDelete e = true) (events r.2) = []
     ∧ (refusal f 1 = None →
        r.1 = Returned (ResultZero, None) ∧ phaseOf (cluster r.2) req = Some "Completed"))
  ∧ (RestoredPVCName (dm_Status dm) ≠ "" →
     claims c !! cloneKey = None → refusal f 1 = None →
     filter (λ e, isDelete e = true) (events r.2) = []
     ∧ (refusal f 2 = None →
        r.1 = Returned (ResultZero, None) ∧ phaseOf (cluster r.2) req = Some "Completed"))
  ∧ (∀ clone : PersistentVolumeClaim,
     RestoredPVCName (dm_Status dm) ≠ "" →
     claims c !! cloneKey = Some clone → metaKey clone = cloneKey → refusal f 1 = None →
     filter (λ e, isDelete e = true) (events r.2) = [EvDelete KClaim cloneKey]
     ∧ (∀ err, refusal f 2 = Some err → refusal f 3 = None →
        r.1 = Returned (ResultZero, None)
        ∧ phaseOf (cluster r.2) req = Some "Failed"
        ∧ claims (cluster r.2) = claims c)
     ∧ (refusal f 2 = None → refusal f 3 = None →
        r.1 = Returned (ResultZero, None)
        ∧ phaseOf (cluster r.2) req = Some "Completed"
        ∧ (Finalizers clone = [] → claims (cluster r.2) !! cloneKey = None))).
Proof.
  intros Hdm Hkey Hphase H0. subst req.
  unfold DataMoverReconciler.Reconcile, DataMoverReconciler.cleanupClonedPVC.
  unfold_client. unfold phaseOf, metaKey in *. run_monad. unfold_phases.
  split; [|split].
  - intros Hnone.
    destruct f as [|[e0|] [|[e1|] f]]; simpl in *; try discriminate.
    all: rewrite Hdm; simpl; rewrite Hphase; simpl.
    all: repeat (case_decide; try done); simpl; rewrite ?Hdm; simpl.
    all: split; [reflexivity|]; intros; try discriminate.
    all: by rewrite lookup_insert_eq.
  - intros Hsome Habsent H1.
    destruct f as [|[e0|] [|[e1|] [|[e2|] f]]]; simpl in *; try discriminate.
    all: rewrite Hdm; simpl; rewrite Hphase; simpl.
    all: repeat (case_decide; try done); simpl; rewrite ?Habsent; simpl; rewrite ?Hdm; simpl.
    all: split; [reflexivity|]; intros; try discriminate.
    all: by rewrite lookup_insert_eq.
  - intros clone Hsome Hclone Hid H1. injection Hid as Hns Hname.
    destruct f as [|[e0|] [|[e1|] [|[e2|] [|[e3|] f]]]]; simpl in *; try discriminate.
    all: rewrite Hdm; simpl; rewrite Hphase; simpl.
    all: repeat (case_decide; try done); simpl; rewrite ?Hclone; simpl.
    all: rewrite ?Hns, ?Hname, ?Hclone; simpl.
    all: destruct (Finalizers clone) eqn:Hfin; simpl;
         try destruct (DeletionTimestamp clone) eqn:Hdel; simpl; rewrite ?Hdm; simpl.
    all: rewrite ?Hns, ?Hname.
    all: split; [reflexivity|]; split; intros; try discriminate.
    all: rewrite ?lookup_insert_eq; repeat split; try done.
    all: intros _; apply lookup_delete_eq.
Qed.

Lemma cleanup_step_outcomes_witness :
  let dm := Fixtures.mover "backup" "CleaningUp" "app-data-cloned-1700000000" true in
  let c := Fixtures.moverCluster dm [Fixtures.clone] [] in
  let f := [None; None; Some (ErrOther "forbidden"); None] in
  let r := DataMoverReconciler.Reconcile ("prod", "backup") (enter c f Fixtures.clock ∅) in
  filter (λ e, isDelete e = true) (events r.2)
  = [EvDelete KClaim ("prod", "app-data-cloned-1700000000")]
  ∧ r.1 = Returned (ResultZero, None)
  ∧ phaseOf (cluster r.2) ("prod", "backup") = Some "Failed".
Proof.
  intros dm c f r.
  destruct (cleanup_step_outcomes dm c f Fixtures.clock ∅ ("prod", "backup"))
    as (_ & _ & Hheld); [reflexivity..|].
  destruct (Hheld Fixtures.clone) as (Hdelete & Hfails & _);
    [discriminate | reflexivity..|].
  destruct (Hfails (ErrOther "forbidden")) as (Hreply & Hphase & _); [reflexivity..|].
  split; [exact Hdelete|]. split; [exact Hreply|exact Hphase].
Defined.

(** ** Rules of [wp]

    The rules for the calls of the client leave the answer of the
    environment open: a call may be refused with any error, and otherwise
    the store answers. *)

Lemma wp_ret {A} (a : A) Q w : Q (Returned a) w → wp (mret a) Q w.
Proof. done. Qed.

Lemma wp_bind {A B} (m : M A) (f : A → M B) Q w :
  wp m (andThen f Q) w → wp (m ≫= f) Q w.
Proof.
  unfold wp, andThen, mbind, M_bind. by destruct (m w) as [[a|msg] w'].
Qed.

Lemma wp_fmap {A B} (g : A → B) (m : M A) Q w :
  wp m (λ o w', match o with
                | Returned a => Q (Returned (g a)) w'
                | Panicked msg => Q (Panicked msg) w'
                end) w →
  wp (g <$> m) Q w.
Proof.
  unfold wp, fmap, M_fmap. by destruct (m w) as [[a|msg] w'].
Qed.

Lemma wp_metric fn args Q w :
  Q (Returned ()) (record (EvMetric fn args) w) → wp (metric fn args) Q w.
Proof. done. Qed.

Lemma wp_Sleep d Q w : Q (Returned ()) (record (EvSleep d) w) → wp (Sleep d) Q w.
Proof. done. Qed.

Lemma wp_timeNow Q w : Q (Returned (now w)) w → wp timeNow Q w.
Proof. done. Qed.

Lemma wp_getPhaseStart Q w : Q (Returned (PhaseStart w)) w → wp getPhaseStart Q w.
Proof. done. Qed.

Lemma wp_setPhaseStart p Q w :
  Q (Returned ()) (withPhaseStart p w) → wp (setPhaseStart p) Q w.
Proof. done. Qed.

Lemma wp_panic {A} msg (Q : Outcome A → World → Prop) w :
  Q (Panicked msg) w → wp (panic msg) Q w.
Proof. done. Qed.

Lemma wp_call {A} e (op : Cluster → ApiError + (A * Cluster)) Q w :
  (∀ err, head (faults w) = Some (Some err) ∨ op (cluster w) = inl err →
          Q (Returned (inl err)) (after e (cluster w) (tail (faults w)) w)) →
  (∀ a c, op (cluster w) = inr (a, c) →
          Q (Returned (inr a)) (after e c (tail (faults w)) w)) →
  wp (call e op) Q w.
Proof.
  intros Herr Hok. unfold wp, call, after, record, withFaults, withCluster in *. simpl.
  destruct (faults w) as [|[err|] rest]; simpl in *.
  - destruct (op (cluster w)) as [err|[a c]] eqn:Hop; simpl.
    + apply Herr. by right.
    + by apply Hok.
  - apply Herr. by left.
  - destruct (op (cluster w)) as [err|[a c]] eqn:Hop; simpl.
    + apply Herr. by right.
    + by apply Hok.
Qed.

Lemma wp_read {A} e (m : Cluster → option A) Q w :
  (∀ err, head (faults w) = Some (Some err) ∨ (m (cluster w) = None ∧ err = ErrNotFound) →
          Q (Returned (inl err)) (after e (cluster w) (tail (faults w)) w)) →
  (∀ a, m (cluster w) = Some a →
        Q (Returned (inr a)) (after e (cluster w) (tail (faults w)) w)) →
  wp (call e (read m)) Q w.
Proof.
  intros Herr Hok. apply wp_call.
  - intros err [Href|Hop]; apply Herr; [by left|right].
    unfold read in Hop. destruct (m (cluster w)); [done|]. by injection Hop as <-.
  - intros a c. unfold read. destruct (m (cluster w)) eqn:Hm; [|done].
    intros [= <- <-]. by apply Hok.
Qed.

Lemma wp_write e (op : Cluster → ApiError + (unit * Cluster)) Q w :
  (∀ err, Q (Returned (Some err)) (after e (cluster w) (tail (faults w)) w)) →
  (∀ c, op (cluster w) = inr ((), c) → Q (Returned None) (after e c (tail (faults w)) w)) →
  wp (errOf <$> call e op) Q w.
Proof.
  intros Herr Hok. apply wp_fmap, wp_call; [by intros; apply Herr|].
  intros [] c Hop. by apply Hok.
Qed.

Lemma wp_CreateClaim o Q w :
  (∀ err, Q (Returned (Some err)) (after (EvCreateClaim o) (cluster w) (tail (faults w)) w)) →
  (claims (cluster w) !! metaKey o = None →
   Q (Returned None)
     (after (EvCreateClaim o)
            (withClaims (<[metaKey o := o]> (claims (cluster w))) (cluster w))
            (tail (faults w)) w)) →
  wp (CreateClaim o) Q w.
Proof.
  intros Herr Hok. apply wp_write; [done|]. intros c.
  destruct (claims (cluster w) !! metaKey o) eqn:Hfree; [done|].
  intros [= <-]. by apply Hok.
Qed.

Lemma wp_CreateJob o Q w :
  (∀ err, Q (Returned (Some err)) (after (EvCreateJob o) (cluster w) (tail (faults w)) w)) →
  Q (Returned None)
    (after (EvCreateJob o)
           (withJobs (<[metaKey o := o]> (jobs (cluster w))) (cluster w))
           (tail (faults w)) w) →
  wp (CreateJob o) Q w.
Proof.
  intros Herr Hok. apply wp_write; [done|]. intros c.
  destruct (jobs (cluster w) !! metaKey o) eqn:Hfree; [done|].
  by intros [= <-].
Qed.

Lemma wp_UpdateClaim o Q w :
  (∀ err, Q (Returned (Some err)) (after (EvUpdateClaim o) (cluster w) (tail (faults w)) w)) →
  (∀ old : PersistentVolumeClaim,
      claims (cluster w) !! metaKey o = Some old →
      Q (Returned None)
        (after (EvUpdateClaim o)
               (withClaims (<[metaKey o := {| pvc_ObjectMeta := pvc_ObjectMeta o;
                                              pvc_Spec := pvc_Spec o;
                                              pvc_Phase := pvc_Phase old |}]>
                              (claims (cluster w))) (cluster w))
               (tail (faults w)) w)) →
  wp (UpdateClaim o) Q w.
Proof.
  intros Herr Hok. apply wp_write; [done|]. intros c.
  destruct (claims (cluster w) !! metaKey o) eqn:Hold; [|done].
  intros [= <-]. by apply Hok.
Qed.

Lemma wp_UpdateVolume o Q w :
  (∀ err, Q (Returned (Some err)) (after (EvUpdateVolume o) (cluster w) (tail (faults w)) w)) →
  Q (Returned None)
    (after (EvUpdateVolume o)
           (withVolumes (<[Name o := o]> (volumes (cluster w))) (cluster w))
           (tail (faults w)) w) →
  wp (UpdateVolume o) Q w.
Proof.
  intros Herr Hok. apply wp_write; [done|]. intros c.
  destruct (volumes (cluster w) !! Name o) eqn:Hold; [|done].
  by intros [= <-].
Qed.

Lemma wp_UpdateStatus o Q w :
  (∀ err, Q (Returned (Some err)) (after (EvUpdateStatus o) (cluster w) (tail (faults w)) w)) →
  (∀ old : DataMover,
      dataMovers (cluster w) !! metaKey o = Some old →
      Q (Returned None)
        (after (EvUpdateStatus o)
               (withDataMovers (<[metaKey o := dmWithStatus (dm_Status o) old]>
                                  (dataMovers (cluster w))) (cluster w))
               (tail (faults w)) w)) →
  wp (UpdateStatus o) Q w.
Proof.
  intros Herr Hok. apply wp_write; [done|]. intros c.
  destruct (dataMovers (cluster w) !! metaKey o) eqn:Hold; [|done].
  intros [= <-]. by apply Hok.
Qed.

(** A deletion that is accepted removes the claim, or leaves the store as
    it is, or marks the claim; a claim that stays keeps its annotations. *)
Lemma wp_DeleteClaim t (o : PersistentVolumeClaim) Q w :
  (∀ err, Q (Returned (Some err))
            (after (EvDelete KClaim (metaKey o)) (cluster w) (tail (faults w)) w)) →
  (∀ m,
      (∀ k (p : PersistentVolumeClaim), m !! k = Some p →
         ∃ old : PersistentVolumeClaim,
           claims (cluster w) !! k = Some old ∧ Annotations p = Annotations old) →
      Q (Returned None)
        (after (EvDelete KClaim (metaKey o)) (withClaims m (cluster w)) (tail (faults w)) w)) →
  wp (DeleteClaim t o) Q w.
Proof.
  intros Herr Hok. apply wp_write; [done|]. intros c.
  destruct (claims (cluster w) !! metaKey o) as [old|] eqn:Hold; [|done].
  destruct (Finalizers old) as [|x l]; [|destruct (DeletionTimestamp old)].
  - intros [= <-]. apply Hok. intros k p.
    destruct (decide (metaKey o = k)) as [<-|Hne].
    + by rewrite lookup_delete_eq.
    + rewrite lookup_delete_ne by done. eauto.
  - intros [= <-].
    replace (cluster w) with (withClaims (claims (cluster w)) (cluster w)) at 1
      by (by destruct (cluster w)).
    apply Hok. eauto.
  - intros [= <-]. apply Hok. intros k p.
    destruct (decide (metaKey o = k)) as [<-|Hne].
    + rewrite lookup_insert_eq. intros [= <-]. eauto.
    + rewrite lookup_insert_ne by done. eauto.
Qed.

Lemma wp_DeleteJob t (o : Job) Q w :
  (∀ err, Q (Returned (Some err))
            (after (EvDelete KJob (metaKey o)) (cluster w) (tail (faults w)) w)) →
  (∀ m, Q (Returned None)
          (after (EvDelete KJob (metaKey o)) (withJobs m (cluster w)) (tail (faults w)) w)) →
  wp (DeleteJob t o) Q w.
Proof.
  intros Herr Hok. apply wp_write; [done|]. intros c.
  destruct (jobs (cluster w) !! metaKey o) as [old|] eqn:Hold; [|done].
  destruct (Finalizers old) as [|x l]; [|destruct (DeletionTimestamp old)].
  - intros [= <-]. apply Hok.
  - intros [= <-].
    replace (cluster w) with (withJobs (jobs (cluster w)) (cluster w)) at 1
      by (by destruct (cluster w)).
    apply Hok.
  - intros [= <-]. apply Hok.
Qed.

Lemma wp_mono {A} (m : M A) (Q Q' : Outcome A → World → Prop) w :
  wp m Q' w → (∀ o w', Q' o w' → Q o w') → wp m Q w.
Proof. unfold wp. auto. Qed.

(** The loop over the keys of [PhaseStart] touches nothing else. *)
Lemma wp_forgetPhaseStarts nn keys (Q : Outcome unit → World → Prop) w :
  (∀ o p, Q o (withPhaseStart p w)) →
  wp (DataMoverReconciler.forgetPhaseStarts nn keys) Q w.
Proof.
  intros HQ. unfold wp.
  assert (∃ p, (DataMoverReconciler.forgetPhaseStarts nn keys w).2 = withPhaseStart p w)
    as [p ->]; [|apply HQ].
  clear HQ. revert w. induction keys as [|key rest IH]; intros w; simpl.
  - exists (PhaseStart w). by destruct w.
  - case_decide; [exists (PhaseStart w); by destruct w|].
    unfold mbind, M_bind. case_decide; simpl.
    + destruct (IH (withPhaseStart (delete key (PhaseStart w)) w)) as [p Hp].
      rewrite Hp. by exists p.
    + apply IH.
Qed.

(** ** Stepping through a program *)

Ltac wp_simpl :=
  cbn [andThen after record withPhaseStart cluster faults now PhaseStart trace enter
       IsNotFound IsConflict negb andb fst snd tail head].

Ltac wp_step :=
  lazymatch goal with
  | |- wp (mret _) _ _ => apply wp_ret
  | |- wp (_ ≫= _) _ _ => apply wp_bind
  | |- wp (metric _ _) _ _ => apply wp_metric
  | |- wp (Sleep _) _ _ => apply wp_Sleep
  | |- wp timeNow _ _ => apply wp_timeNow
  | |- wp getPhaseStart _ _ => apply wp_getPhaseStart
  | |- wp (setPhaseStart _) _ _ => apply wp_setPhaseStart
  | |- wp (panic _) _ _ => apply wp_panic
  | |- wp (GetDataMover _) _ _ => apply wp_read; [intros ?err ?Herr | intros ?dm ?Hget]
  | |- wp (GetPopulator _) _ _ => apply wp_read; [intros ?err ?Herr | intros ?pop ?Hget]
  | |- wp (GetClaim _) _ _ => apply wp_read; [intros ?err ?Herr | intros ?pvc ?Hget]
  | |- wp (GetJob _) _ _ => apply wp_read; [intros ?err ?Herr | intros ?job ?Hget]
  | |- wp (GetSecret _) _ _ => apply wp_read; [intros ?err ?Herr | intros ?sec ?Hget]
  | |- wp (GetVolume _) _ _ => apply wp_read; [intros ?err ?Herr | intros ?pv ?Hget]
  | |- wp (CreateClaim _) _ _ => apply wp_CreateClaim; [intros ?err | intros ?Hfree]
  | |- wp (CreateJob _) _ _ => apply wp_CreateJob; [intros ?err | ]
  | |- wp (UpdateClaim _) _ _ => apply wp_UpdateClaim; [intros ?err | intros ?old ?Hold]
  | |- wp (UpdateVolume _) _ _ => apply wp_UpdateVolume; [intros ?err | ]
  | |- wp (UpdateStatus _) _ _ => apply wp_UpdateStatus; [intros ?err | intros ?old ?Hold]
  | |- wp (DeleteClaim _ _) _ _ => apply wp_DeleteClaim; [intros ?err | intros ?m ?Hm]
  | |- wp (DeleteJob _ _) _ _ => apply wp_DeleteJob; [intros ?err | intros ?m]
  | |- wp (DataMoverReconciler.forgetPhaseStarts _ _) _ _ =>
      apply wp_forgetPhaseStarts; intros [[]|?msg] ?p
  | |- wp (match decide ?P with _ => _ end) _ _ => destruct (decide P)
  | |- wp (match ?x with _ => _ end) _ _ => destruct x eqn:?
  | |- wp (if ?x then _ else _) _ _ => destruct x eqn:?
  end; wp_simpl; try (progress cbn [cluster after enter] in * ).

(** ** Running a program against answers that are known *)

Lemma refusal_tail f i : refusal (tail f) i = refusal f (S i).
Proof. by destruct f. Qed.

Lemma refusal_cons x f : refusal (x :: f) 0 = x.
Proof. done. Qed.

Lemma refusal_nil i : refusal [] i = None.
Proof. done. Qed.

(** A call whose answer is known: the environment refuses it, or the store
    answers. *)
Lemma wp_call_known {A} e (op : Cluster → ApiError + (A * Cluster)) Q w r x :
  refusal (faults w) 0 = r →
  op (cluster w) = x →
  match r with
  | Some err => Q (Returned (inl err)) (after e (cluster w) (tail (faults w)) w)
  | None =>
      match x with
      | inl err => Q (Returned (inl err)) (after e (cluster w) (tail (faults w)) w)
      | inr (a, c) => Q (Returned (inr a)) (after e c (tail (faults w)) w)
      end
  end →
  wp (call e op) Q w.
Proof.
  intros <- <-.
  unfold wp, call, after, record, withFaults, withCluster, refusal. simpl.
  destruct (faults w) as [|[err|] rest]; simpl; [|done|].
  all: by destruct (op (cluster w)) as [err|[a c]].
Qed.

Lemma wp_decide {A} (P : Prop) `{Decision P} (m1 m2 : M A) Q w :
  (P → wp m1 Q w) → (¬ P → wp m2 Q w) →
  wp (if decide P then m1 else m2) Q w.
Proof. intros. by destruct (decide P); auto. Qed.

Lemma verificationJob_name dm :
  Name (DataMoverReconciler.verificationJob dm) = "verify-" +:+ RestoredPVCName (dm_Status dm).
Proof. done. Qed.

Lemma verificationJob_namespace dm :
  Namespace (DataMoverReconciler.verificationJob dm) = Namespace dm.
Proof. done. Qed.

Lemma populationJob_name pvc populator secret :
  Name (DataMoverPopulatorReconciler.populationJob pvc populator secret)
  = "datamover-populator-" +:+ Name pvc.
Proof.
  unfold DataMoverPopulatorReconciler.populationJob. by destruct (pop_Image _).
Qed.

Lemma populationJob_namespace pvc populator secret :
  Namespace (DataMoverPopulatorReconciler.populationJob pvc populator secret) = Namespace pvc.
Proof.
  unfold DataMoverPopulatorReconciler.populationJob. by destruct (pop_Image _).
Qed.

Ltac unfold_calls :=
  unfold GetDataMover, GetPopulator, GetClaim, GetJob, GetSecret, GetVolume,
    CreateClaim, CreateJob, UpdateClaim, UpdateVolume, UpdateStatus, DeleteClaim, DeleteJob.

(** The answer of the environment to the call at hand. *)
Ltac known_refusal :=
  cbn [faults after record withPhaseStart enter tail app];
  first [ apply refusal_cons
        | rewrite ?refusal_tail, ?refusal_nil; first [eassumption | reflexivity] ].

(** The answer of the store to the call at hand. *)
Ltac known_answer :=
  unfold read, metaKey;
  repeat first
    [ progress cbn [cluster after record withPhaseStart enter
        claims jobs dataMovers populators secrets volumes
        withClaims withJobs withDataMovers withVolumes
        Name Namespace dm_ObjectMeta pvc_ObjectMeta job_ObjectMeta pv_ObjectMeta
        pop_ObjectMeta secret_ObjectMeta pvc_Spec VolumeName setVolumeName
        dm_Status dm_Spec Phase RestoredPVCName dmSetPhase dmSetRestoredPVCName dmWithStatus
        pvcWithMeta pvcWithSpec setAnnotations setLabels setOwnerReferences
        setDeletionTimestamp newMeta
        Finalizers DeletionTimestamp fmap option_fmap option_map]
    | rewrite verificationJob_name
    | rewrite verificationJob_namespace
    | rewrite populationJob_name
    | rewrite populationJob_namespace
    | rewrite lookup_insert_eq
    | rewrite lookup_delete_eq
    | rewrite lookup_alter_eq
    | rewrite lookup_insert_ne by done
    | rewrite lookup_delete_ne by done
    | rewrite lookup_alter_ne by done
    | match goal with
      | H : ?b = _ |- context [if ?b then _ else _] => rewrite H
      | H : _ !! _ = _ |- _ => rewrite H
      | H : dataMovers _ = _ |- _ => rewrite H
      | H : claims _ = _ |- _ => rewrite H
      | H : jobs _ = _ |- _ => rewrite H
      | H : volumes _ = _ |- _ => rewrite H
      | H : populators _ = _ |- _ => rewrite H
      | H : Name _ = _ |- _ => rewrite H
      | H : Namespace _ = _ |- _ => rewrite H
      | H : Finalizers _ = _ |- _ => rewrite H
      | H : DeletionTimestamp _ = _ |- _ => rewrite H
      end ];
  reflexivity.

(** One step of a program; what is not known of an answer is split into
    its cases. *)
Ltac run_step :=
  lazymatch goal with
  | |- wp (mret _) _ _ => apply wp_ret
  | |- wp (_ ≫= _) _ _ => apply wp_bind
  | |- wp (_ <$> _) _ _ => apply wp_fmap
  | |- wp (metric _ _) _ _ => apply wp_metric
  | |- wp (Sleep _) _ _ => apply wp_Sleep
  | |- wp timeNow _ _ => apply wp_timeNow
  | |- wp getPhaseStart _ _ => apply wp_getPhaseStart
  | |- wp (setPhaseStart _) _ _ => apply wp_setPhaseStart
  | |- wp (panic _) _ _ => apply wp_panic
  | |- wp (call _ _) _ _ => eapply wp_call_known; [known_refusal | known_answer | ]
  | |- wp (match decide ?P with _ => _ end) _ _ =>
      let H := fresh "Hcase" in
      apply wp_decide; intros H;
      try (exfalso; unfold ClaimBound, ClaimPending in H; cbn in H;
           first [ congruence | lia | contradiction | tauto
                 | apply (f_equal String.length) in H;
                   rewrite ?append_length in H; cbn in H; lia ])
  | |- wp (match <[?k:=?v]> ?m !! ?k with _ => _ end) _ _ =>
      rewrite (lookup_insert_eq m k v)
  | |- wp (if bool_decide ?P && _ then _ else _) _ _ =>
      first [ rewrite (bool_decide_eq_true_2 P) by done
            | rewrite (bool_decide_eq_false_2 P) by done
            | destruct (bool_decide P) eqn:? ]
  | |- wp (if bool_decide ?P then _ else _) _ _ =>
      first [ rewrite (bool_decide_eq_true_2 P) by done
            | rewrite (bool_decide_eq_false_2 P) by done
            | destruct (bool_decide P) eqn:? ]
  | |- wp (match ?x with _ => _ end) _ _ =>
      first [ match goal with H : x = _ |- _ => rewrite H end | destruct x eqn:? ]
  | |- wp (if ?x then _ else _) _ _ =>
      first [ match goal with H : x = _ |- _ => rewrite H end | destruct x eqn:? ]
  | |- match (match ?y with _ => _ end) with _ => _ end => destruct y eqn:?
  | |- match ?x with _ => _ end => destruct x eqn:?
  | |- wp _ _ _ => progress unfold_calls
  end;
  cbn [andThen after record withPhaseStart enter cluster faults now PhaseStart trace
       IsNotFound IsConflict negb andb fst snd errOf
       Name Namespace dm_ObjectMeta dm_Status dm_Spec Phase RestoredPVCName
       dmSetPhase dmSetRestoredPVCName dmWithStatus
       pvc_ObjectMeta pvc_Spec pvc_Phase pvcWithMeta pvcWithSpec
       setAnnotations setVolumeName VolumeName DeletionTimestamp Finalizers
       job_ObjectMeta job_Status Succeeded Failed
       DataMoverPopulatorReconciler.clearClaimRef
       DataMoverPopulatorReconciler.markPopulated].

(** From a statement about the result [r] of a run to [wp]. *)
Ltac as_wp :=
  lazymatch goal with
  | r := ?m ?w |- _ =>
      pattern (r.1), (r.2);
      lazymatch goal with |- ?Q _ _ => change (wp m Q w) end;
      clear r
  end.

Ltac unfold_mover :=
  unfold DataMoverReconciler.Reconcile, DataMoverReconciler.createClonedPVC,
    DataMoverReconciler.waitForPVCBound, DataMoverReconciler.createVerificationJob,
    DataMoverReconciler.waitForJobCompletion, DataMoverReconciler.cleanupClonedPVC;
  unfold_calls; unfold_phases.

Ltac unfold_populator :=
  unfold DataMoverPopulatorReconciler.Reconcile,
    DataMoverPopulatorReconciler.ensurePopulationJob,
    DataMoverPopulatorReconciler.runPopulationJob,
    DataMoverPopulatorReconciler.createPopulationJob,
    DataMoverPopulatorReconciler.finalizePopulation,
    DataMoverPopulatorReconciler.transferVolume,
    DataMoverPopulatorReconciler.primeName,
    DataMoverPopulatorReconciler.populationJobName,
    DataMoverPopulatorReconciler.GroupName,
    DataMoverPopulatorReconciler.KindPopulator in *;
  unfold_calls; unfold ClaimBound, ClaimPending in *;
  change (Z.to_nat 3) with 3%nat.

(** The lookups in a store that the program has written to. *)
Ltac store_lookups :=
  cbn [cluster after claims jobs volumes populators
       withClaims withJobs withVolumes withDataMovers];
  repeat first [ rewrite lookup_insert_eq
               | rewrite lookup_delete_eq
               | rewrite lookup_insert_ne by done
               | rewrite lookup_delete_ne by done ].

Lemma annotation_set (m : ObjectMeta) a k : annotation (setAnnotations (Some a) m) k = a !! k.
Proof. done. Qed.

Lemma annotation_orEmpty (m : ObjectMeta) k : annotationsOrEmpty m !! k = annotation m k.
Proof. unfold annotationsOrEmpty, annotation. by destruct (Annotations m). Qed.

Lemma populatorName_Some pvc name :
  populatorName pvc = Some name →
  ∃ ref, DataSourceRef (pvc_Spec pvc) = Some ref
         ∧ ref_APIGroup ref = Some "datamover.a-cup-of.coffee"
         ∧ ref_Kind ref = "DataMoverPopulator"
         ∧ ref_Name ref = name.
Proof.
  unfold populatorName, DataMoverPopulatorReconciler.GroupName,
    DataMoverPopulatorReconciler.KindPopulator.
  destruct (DataSourceRef (pvc_Spec pvc)) as [ref|]; [|done].
  destruct (ref_APIGroup ref) as [group|] eqn:Hgroup; [|done].
  case_decide as Hfor; [|done]. destruct Hfor as [-> Hkind].
  intros [= <-]. by exists ref.
Qed.

(** The facts of a claim that names a populator, in the form the program
    tests them. *)
Ltac populator_facts Hname :=
  let ref := fresh "ref" in
  let Href := fresh "Href" in
  let Hgroup := fresh "Hgroup" in
  let Hkind := fresh "Hkind" in
  let Hrefname := fresh "Hrefname" in
  destruct (populatorName_Some _ _ Hname) as (ref & Href & Hgroup & Hkind & Hrefname).

Ltac flag_false H pvc ann :=
  let F := fresh "Hflagged" in
  assert (DataMoverPopulatorReconciler.flagged pvc ann = false) as F
    by (by apply bool_decide_eq_false);
  clear H.

Ltac flag_true H pvc ann :=
  let F := fresh "Hflagged" in
  assert (DataMoverPopulatorReconciler.flagged pvc ann = true) as F
    by (by apply bool_decide_eq_true);
  clear H.

Ltac flag_facts :=
  repeat match goal with
         | H : annotation ?pvc "datamover.a-cup-of.coffee/populated" ≠ Some "true" |- _ =>
             flag_false H pvc DataMoverPopulatorReconciler.annPopulated
         | H : annotation ?pvc "datamover.a-cup-of.coffee/populated" = Some "true" |- _ =>
             flag_true H pvc DataMoverPopulatorReconciler.annPopulated
         | H : annotation ?pvc "datamover.a-cup-of.coffee/cleanup-in-progress" ≠ Some "true"
           |- _ =>
             flag_false H pvc DataMoverPopulatorReconciler.annCleanup
         | H : annotation ?pvc "datamover.a-cup-of.coffee/cleanup-in-progress" = Some "true"
           |- _ =>
             flag_true H pvc DataMoverPopulatorReconciler.annCleanup
         | H : annotation ?pvc "datamover.a-cup-of.coffee/populating" ≠ Some "true" |- _ =>
             flag_false H pvc DataMoverPopulatorReconciler.annPopulating
         end.

(** ** C2: the phase writes of the DataMover reconciler *)


(** C2. Every status write that an invocation of the DataMover reconciler
    attempts carries a phase that follows the stored phase of the request in
    the table of section 4.1: [CreatingClonedPVC] after the initial phase,
    [ClonedPVCReady] after [CreatingClonedPVC], [CreatingPod] after
    [ClonedPVCReady], one of [CleaningUp], [Completed], [Failed] after
    [CreatingPod], one of [Completed], [Failed] after [CleaningUp]; from any
    other phase nothing is written. *)
Theorem phase_writes_follow_the_table c f t ps req :
  Forall (phaseWriteOk (dataMovers c !! req))
         (events (DataMoverReconciler.Reconcile req (enter c f t ps)).2).
Proof.
  unfold events. rewrite Forall_reverse.
  change (wp (DataMoverReconciler.Reconcile req)
             (λ _ w, Forall (phaseWriteOk (dataMovers c !! req)) (trace w))
             (enter c f t ps)).
  unfold DataMoverReconciler.Reconcile, DataMoverReconciler.createClonedPVC,
    DataMoverReconciler.waitForPVCBound, DataMoverReconciler.createVerificationJob,
    DataMoverReconciler.waitForJobCompletion, DataMoverReconciler.cleanupClonedPVC.
  repeat wp_step.
  all: repeat first [apply Forall_nil_2 | apply Forall_cons_2]; try exact I.
  all: cbn [phaseWriteOk]; eexists; (split; [eassumption|]).
  all: split; [by repeat match goal with |- context [if ?b then _ else _] => destruct b end|].
  all: repeat match goal with H : Phase _ = _ |- _ => rewrite H; clear H end.
  all: unfold dmSetPhase, dmSetRestoredPVCName, dmWithStatus; cbn [dm_Status Phase].
  all: repeat match goal with |- context [if ?b then _ else _] => destruct b end.
  all: vm_compute; reflexivity.
Qed.

(** ** C9 and C7: terminal and converged states *)

(** A trace without writing calls has no writes. *)
Lemma no_writes (w : World) :
  Forall (λ e, isWrite e = false) (trace w) → writes w = [].
Proof.
  intros H. unfold writes, events.
  apply Forall_reverse in H.
  induction H as [|e l He _ IH]; [done|].
  rewrite filter_cons. case_decide; [congruence|done].
Qed.

(** In phase [Completed] or [Failed] an invocation writes nothing to the
    store, whatever the environment answers and even when it panics. *)
Lemma terminal_phase_writes_nothing (dm : DataMover) c f t ps req :
  dataMovers c !! req = Some dm →
  Phase (dm_Status dm) = "Completed" ∨ Phase (dm_Status dm) = "Failed" →
  let r := DataMoverReconciler.Reconcile req (enter c f t ps) in
  cluster r.2 = c ∧ writes r.2 = [].
Proof.
  intros Hdm Hphase.
  cut (wp (DataMoverReconciler.Reconcile req)
          (λ _ w, cluster w = c ∧ Forall (λ e, isWrite e = false) (trace w))
          (enter c f t ps)).
  { unfold wp. intros [? ?]. split; [done|]. by apply no_writes. }
  unfold DataMoverReconciler.Reconcile.
  wp_step. wp_step.
  { repeat wp_step. all: split; [done|repeat constructor]. }
  rewrite Hdm in Hget. injection Hget as <-.
  wp_step. wp_step.
  unfold DataMoverReconciler.PhaseInitial, DataMoverReconciler.PhaseCreatingPVC,
    DataMoverReconciler.PhasePVCReady, DataMoverReconciler.PhaseCreatingPod,
    DataMoverReconciler.PhaseCleaningUp, DataMoverReconciler.PhaseCompleted,
    DataMoverReconciler.PhaseFailed in *.
  repeat (wp_step; try (destruct Hphase; congruence)).
  all: split; [done|repeat constructor].
Qed.

(** In phase [Completed] the invocation returns, with no requeue. *)
Lemma completed_phase_returns (dm : DataMover) c f t ps req :
  dataMovers c !! req = Some dm →
  Phase (dm_Status dm) = "Completed" →
  refusal f 0 = None →
  (DataMoverReconciler.Reconcile req (enter c f t ps)).1 = Returned (ResultZero, None).
Proof.
  intros Hdm Hphase H0.
  unfold DataMoverReconciler.Reconcile. unfold_client. run_monad.
  next_answer f; rewrite Hdm; simpl; rewrite Hphase; simpl; reflexivity.
Qed.

Lemma forgetPhaseStarts_returns nn keys w :
  Forall (λ key, (String.length nn ≤ String.length key)%nat) keys →
  (DataMoverReconciler.forgetPhaseStarts nn keys w).1 = Returned ().
Proof.
  intros Hkeys. revert w. induction Hkeys as [|key rest Hkey _ IH]; intros w; simpl; [done|].
  case_decide; [lia|]. unfold mbind, M_bind. case_decide; simpl; apply IH.
Qed.

(** In phase [Failed] the invocation returns, with no requeue, when no key
    of [PhaseStart] is shorter than the name of the request. *)
Lemma failed_phase_returns_when_keys_are_long (dm : DataMover) c f t ps req :
  dataMovers c !! req = Some dm →
  Phase (dm_Status dm) = "Failed" →
  refusal f 0 = None →
  (∀ key, is_Some (ps !! key) → (String.length (nnString req) ≤ String.length key)%nat) →
  (DataMoverReconciler.Reconcile req (enter c f t ps)).1 = Returned (ResultZero, None).
Proof.
  intros Hdm Hphase H0 Hkeys.
  assert (Forall (λ key, (String.length (nnString req) ≤ String.length key)%nat)
                 (map_to_list ps).*1) as Hlong.
  { apply Forall_forall. intros key Hin. apply Hkeys.
    apply list_elem_of_fmap in Hin as [[k v] [-> Hkv]].
    apply elem_of_map_to_list in Hkv. by exists v. }
  unfold DataMoverReconciler.Reconcile. unfold_client. run_monad.
  next_answer f; rewrite Hdm; simpl; rewrite Hphase; simpl.
  all: match goal with |- context [DataMoverReconciler.forgetPhaseStarts ?nn ?keys ?w] =>
         pose proof (forgetPhaseStarts_returns nn keys w Hlong) as Hret;
         destruct (DataMoverReconciler.forgetPhaseStarts nn keys w) as [o w'] end.
  all: simpl in Hret; subst o; reflexivity.
Qed.

(** C9, at the input where the code leaves it.  The request
    [prod/nightly-database-backup] is in phase [Failed]; the reconciler still
    holds the start time of another request, under the key
    [prod/a-CreatingPod], which is shorter than the name of the failed
    request.  The loop of the [Failed] case slices that key at the length of
    the name, and the invocation panics instead of returning with no requeue.
    The store is untouched. *)
Theorem failed_phase_panics_on_a_shorter_key :
  let dm := Fixtures.mover "nightly-database-backup" "Failed" "app-data-cloned-1700000000" false in
  let c := Fixtures.moverCluster dm [] [] in
  let ps : gmap string Z := {[ "prod/a-CreatingPod" := 1699999000 ]} in
  let r := DataMoverReconciler.Reconcile ("prod", "nightly-database-backup")
             (enter c [] Fixtures.clock ps) in
  phaseOf c ("prod", "nightly-database-backup") = Some "Failed"
  ∧ r.1 = Panicked "slice bounds out of range"
  ∧ cluster r.2 = c.
Proof. vm_compute. repeat split. Qed.

Lemma converged_claim_writes_nothing c f t ps req (pvc : PersistentVolumeClaim) :
  claims c !! req = Some pvc →
  annotation pvc "datamover.a-cup-of.coffee/populated" = Some "true" →
  claims c !! (Namespace pvc, Name pvc +:+ "-prime") = None →
  let r := DataMoverPopulatorReconciler.Reconcile req (enter c f t ps) in
  cluster r.2 = c ∧ writes r.2 = [].
Proof.
  intros Hpvc Hflag Hprime.
  cut (wp (DataMoverPopulatorReconciler.Reconcile req)
          (λ _ w, cluster w = c ∧ Forall (λ e, isWrite e = false) (trace w))
          (enter c f t ps)).
  { unfold wp. intros [? ?]. split; [done|]. by apply no_writes. }
  assert (DataMoverPopulatorReconciler.flagged pvc
            DataMoverPopulatorReconciler.annPopulated = true) as Hflagged
    by (by apply bool_decide_eq_true).
  unfold DataMoverPopulatorReconciler.Reconcile.
  wp_step. wp_step.
  { repeat wp_step. all: split; [done|repeat constructor]. }
  rewrite Hpvc in Hget. injection Hget as <-.
  repeat (wp_step; rewrite ?Hflagged in *; try congruence);
    try (split; [done|repeat constructor]).
  unfold DataMoverPopulatorReconciler.primeName in *. congruence.
Qed.

Lemma converged_claim_returns_done c f t ps req (pvc : PersistentVolumeClaim) :
  claims c !! req = Some pvc →
  annotation pvc "datamover.a-cup-of.coffee/populated" = Some "true" →
  claims c !! (Namespace pvc, Name pvc +:+ "-prime") = None →
  refusal f 0 = None → refusal f 1 = None → refusal f 2 = None →
  (DataMoverPopulatorReconciler.Reconcile req (enter c f t ps)).1
  = Returned (ResultZero, None).
Proof.
  intros Hpvc Hflag Hprime H0 H1 H2.
  assert (DataMoverPopulatorReconciler.flagged pvc
            DataMoverPopulatorReconciler.annPopulated = true) as Hflagged
    by (by apply bool_decide_eq_true).
  unfold DataMoverPopulatorReconciler.Reconcile, DataMoverPopulatorReconciler.primeName.
  unfold_client. run_monad.
  destruct f as [|[e0|] [|[e1|] [|[e2|] f]]]; simpl in *; try discriminate.
  all: rewrite Hpvc; simpl.
  all: destruct (DataSourceRef (pvc_Spec pvc)) as [ref|]; simpl; [|done].
  all: destruct (ref_APIGroup ref) as [g|]; simpl; [|done].
  all: repeat (case_decide; simpl; try done).
  all: destruct (populators c !! _); simpl; rewrite ?Hflagged; simpl.
  all: rewrite ?Hprime; simpl; try done.
  all: repeat (case_decide; simpl; try done).
Qed.

(** C7. A claim whose [populated] annotation is ["true"] and whose prime
    claim [<target>-prime] does not exist: an invocation of the Volume
    Population reconciler leaves the store as it is and attempts no write,
    and it returns done (no error, no requeue) when the environment refuses
    none of its three reads.  A DataMover request in phase [Completed] or
    [Failed]: an invocation of the Phase State Machine leaves the store as it
    is and attempts no write. *)
Theorem converged_states_see_no_mutation :
  (∀ c f t ps req (pvc : PersistentVolumeClaim),
      claims c !! req = Some pvc →
      annotation pvc "datamover.a-cup-of.coffee/populated" = Some "true" →
      claims c !! (Namespace pvc, Name pvc +:+ "-prime") = None →
      let r := DataMoverPopulatorReconciler.Reconcile req (enter c f t ps) in
      cluster r.2 = c
      ∧ writes r.2 = []
      ∧ (refusal f 0 = None → refusal f 1 = None → refusal f 2 = None →
         r.1 = Returned (ResultZero, None)))
  ∧ (∀ c f t ps req (dm : DataMover),
      dataMovers c !! req = Some dm →
      Phase (dm_Status dm) = "Completed" ∨ Phase (dm_Status dm) = "Failed" →
      let r := DataMoverReconciler.Reconcile req (enter c f t ps) in
      cluster r.2 = c ∧ writes r.2 = []).
Proof.
  split.
  - intros c f t ps req pvc Hpvc Hflag Hprime r.
    destruct (converged_claim_writes_nothing c f t ps req pvc Hpvc Hflag Hprime) as [Hc Hw].
    split; [done|]. split; [done|].
    intros. by eapply converged_claim_returns_done.
  - intros c f t ps req dm Hdm Hphase. by eapply terminal_phase_writes_nothing.
Qed.

Lemma converged_states_see_no_mutation_witness :
  let target := Fixtures.target (Some {[ "datamover.a-cup-of.coffee/populated" := "true" ]}) in
  let c := Fixtures.populatorCluster [target] [] in
  let r := DataMoverPopulatorReconciler.Reconcile ("prod", "data")
             (enter c [] Fixtures.clock ∅) in
  let dm := Fixtures.mover "backup" "Completed" "app-data-cloned-1700000000" false in
  let c' := Fixtures.moverCluster dm [Fixtures.clone] [] in
  let r' := DataMoverReconciler.Reconcile ("prod", "backup") (enter c' [] Fixtures.clock ∅) in
  (cluster r.2 = c ∧ writes r.2 = [] ∧ r.1 = Returned (ResultZero, None))
  ∧ (cluster r'.2 = c' ∧ writes r'.2 = []).
Proof.
  intros target c r dm c' r'.
  destruct converged_states_see_no_mutation as [Hclaim Hmover].
  split.
  - destruct (Hclaim c [] Fixtures.clock ∅ ("prod", "data") target) as (Hc & Hw & Hdone);
      [reflexivity..|].
    split; [exact Hc|]. split; [exact Hw|]. apply Hdone; reflexivity.
  - apply (Hmover c' [] Fixtures.clock ∅ ("prod", "backup") dm); [reflexivity|].
    left. reflexivity.
Defined.

(** ** C5: the bounded retries of the hand-off *)

Lemma existsb_quiet (p : Event → bool) tr :
  length (List.filter p tr) = 0%nat → existsb p tr = false.
Proof.
  induction tr as [|e tr IH]; [done|]. simpl.
  destruct (p e); simpl; [done|apply IH].
Qed.

Lemma finalAttempts_quiet tr :
  length (List.filter isUpdateVolume tr) = 0%nat → finalAttempts tr = 0%nat.
Proof.
  destruct tr as [|e tr]; [done|]. simpl.
  destruct (isUpdateVolume e); simpl; [done|].
  intros Hquiet. by rewrite existsb_quiet.
Qed.

(** The counters of a world that the program has reached, against those of
    the world it started from. *)
Ltac count :=
  unfold attempts in *; simpl in *;
  repeat match goal with
         | |- context [existsb isUpdateVolume ?tr] => destruct (existsb isUpdateVolume tr)
         | H : context [existsb isUpdateVolume ?tr] |- _ =>
             destruct (existsb isUpdateVolume tr)
         end;
  simpl in *; lia.

(** Each turn of a retry loop attempts one update; the loop on the volume
    updates no claim, the loop on the claim updates no volume. *)
Lemma clearClaimRef_attempts vol n i left w :
  wp (DataMoverPopulatorReconciler.clearClaimRef vol n i left)
     (λ _ w', (attempts isUpdateVolume w' ≤ attempts isUpdateVolume w + left)%nat
              ∧ (finalAttempts (trace w') ≤ finalAttempts (trace w))%nat) w.
Proof.
  revert i w. induction left as [|left IH]; intros i w; simpl.
  - apply wp_ret. lia.
  - wp_step. wp_step; [wp_step; count|].
    wp_step. wp_step.
    + wp_step; [|wp_step; count].
      wp_step. wp_step.
      eapply wp_mono; [apply IH|]. intros o w' [Hv Hf]. count.
    + wp_step. count.
Qed.

Lemma markPopulated_attempts key n i left w :
  wp (DataMoverPopulatorReconciler.markPopulated key n i left)
     (λ _ w', attempts isUpdateVolume w' = attempts isUpdateVolume w
              ∧ (finalAttempts (trace w') ≤ finalAttempts (trace w) + left)%nat) w.
Proof.
  revert i w. induction left as [|left IH]; intros i w; simpl.
  - apply wp_ret. lia.
  - wp_step. wp_step; [wp_step; count|].
    wp_step. wp_step.
    + wp_step; [|wp_step; count].
      wp_step. wp_step.
      eapply wp_mono; [apply IH|]. intros o w' [Hv Hf]. count.
    + wp_step. count.
Qed.

(** The counters of a world reached from a world without a volume update. *)
Ltac count_from_quiet :=
  unfold attempts in *; simpl in *;
  repeat match goal with
         | H : length (List.filter isUpdateVolume ?tr) = 0%nat |- _ =>
             rewrite ?(existsb_quiet _ tr H), ?(finalAttempts_quiet tr H), ?H in *;
             clear H
         end;
  simpl in *; lia.

(** The loops of the hand-off, run one after the other. *)
Ltac count_loops :=
  lazymatch goal with
  | |- wp (DataMoverPopulatorReconciler.clearClaimRef _ _ _ _) _ _ => idtac
  | |- wp (_ ≫= _) _ _ => apply wp_bind
  end;
  eapply wp_mono; [apply clearClaimRef_attempts|];
  intros [[?e|]|?msg] ?w' [?Hv ?Hf]; wp_simpl; [wp_step; count_from_quiet| |count_from_quiet];
  wp_step;
  (eapply wp_mono; [apply markPopulated_attempts|]);
  intros [[?e|]|?msg] ?w'' [?Hv' ?Hf']; wp_simpl;
  try wp_step; count_from_quiet.

Lemma transferVolume_attempts original prime w :
  attempts isUpdateVolume w = 0%nat →
  wp (DataMoverPopulatorReconciler.transferVolume original prime)
     (λ _ w', (attempts isUpdateVolume w' ≤ 3)%nat ∧ (finalAttempts (trace w') ≤ 3)%nat) w.
Proof.
  intros Hquiet. unfold DataMoverPopulatorReconciler.transferVolume.
  wp_step. wp_step; [wp_step; count_from_quiet|].
  wp_step. wp_step; [wp_step; count_from_quiet|].
  wp_step. wp_step; [wp_step; count_from_quiet|].
  wp_step. wp_step.
  - wp_step; [wp_step; count_from_quiet|].
    wp_step. wp_step; [wp_step; count_from_quiet|].
    wp_step. destruct (DeletionTimestamp pvc0).
    + wp_step. wp_step. count_loops.
    + wp_step. wp_step. wp_step; [wp_step; count_from_quiet|]. count_loops.
  - destruct (DeletionTimestamp job).
    + wp_step. count_from_quiet.
    + repeat wp_step; count_from_quiet.
Qed.

Lemma finalizePopulation_attempts original prime populator w :
  attempts isUpdateVolume w = 0%nat →
  wp (DataMoverPopulatorReconciler.finalizePopulation original prime populator)
     (λ _ w', (attempts isUpdateVolume w' ≤ 3)%nat ∧ (finalAttempts (trace w') ≤ 3)%nat) w.
Proof.
  intros Hquiet. unfold DataMoverPopulatorReconciler.finalizePopulation.
  repeat first
    [ lazymatch goal with
      | |- wp (DataMoverPopulatorReconciler.transferVolume _ _) _ _ =>
          apply transferVolume_attempts
      end
    | wp_step ].
  all: count_from_quiet.
Qed.

Lemma runPopulationJob_attempts pvc prime populator w :
  attempts isUpdateVolume w = 0%nat →
  wp (DataMoverPopulatorReconciler.runPopulationJob pvc prime populator)
     (λ _ w', (attempts isUpdateVolume w' ≤ 3)%nat ∧ (finalAttempts (trace w') ≤ 3)%nat) w.
Proof.
  intros Hquiet. unfold DataMoverPopulatorReconciler.runPopulationJob,
    DataMoverPopulatorReconciler.createPopulationJob.
  repeat first
    [ lazymatch goal with
      | |- wp (DataMoverPopulatorReconciler.finalizePopulation _ _ _) _ _ =>
          apply finalizePopulation_attempts
      end
    | wp_step ].
  all: count_from_quiet.
Qed.

Lemma Reconcile_attempts c f t ps req :
  let r := DataMoverPopulatorReconciler.Reconcile req (enter c f t ps) in
  (attempts isUpdateVolume r.2 ≤ 3)%nat ∧ (finalAttempts (trace r.2) ≤ 3)%nat.
Proof.
  intros r. as_wp.
  unfold DataMoverPopulatorReconciler.Reconcile,
    DataMoverPopulatorReconciler.ensurePopulationJob.
  repeat first
    [ lazymatch goal with
      | |- wp (DataMoverPopulatorReconciler.finalizePopulation _ _ _) _ _ =>
          apply finalizePopulation_attempts
      | |- wp (DataMoverPopulatorReconciler.runPopulationJob _ _ _) _ _ =>
          apply runPopulationJob_attempts
      end
    | wp_step ].
  all: count_from_quiet.
Qed.

(** The hand-off under sustained conflicts on the volume. *)
Lemma volume_conflicts_end_the_handoff c rest t ps req (pvc prime : PersistentVolumeClaim)
    (populator : DataMoverPopulator) (pv : PersistentVolume) :
  handoffUnderWay c req pvc prime populator pv →
  let f := ([None; None; None; None; None; None; None; None; None;
             None; Some ErrConflict; None; Some ErrConflict; None; Some ErrConflict]
              ++ rest)%list in
  let r := DataMoverPopulatorReconciler.Reconcile req (enter c f t ps) in
  let read := EvGet KVolume ("", VolumeName (pvc_Spec prime)) in
  let update := EvUpdateVolume {| pv_ObjectMeta := pv; ClaimRef := None |} in
  r.1 = Returned (ResultZero, Some ErrConflict)
  ∧ drop 9 (events r.2) = [read; update; EvSleep (100 * Millisecond);
                           read; update; EvSleep (200 * Millisecond);
                           read; update]
  ∧ attempts isUpdateVolume r.2 = 3%nat
  ∧ sleeps (events r.2) = [100 * Millisecond; 200 * Millisecond]
  ∧ volumes (cluster r.2) = volumes c.
Proof.
  intros (Hpvc & Hkey & Hname & Hpop & Hflag & Hcleanup & Hmarked & Hphase & Hprime
          & Hprimekey & Hts & Hbound & Hpopulated & Hjob & Hvol & Hpvname) f r read update.
  subst f read update req. unfold metaKey in *. injection Hprimekey as Hprimens Hprimename.
  populator_facts Hname. rewrite <- Hrefname in *. flag_facts.
  assert ((Namespace pvc, Name pvc) ≠ (Namespace pvc, Name pvc +:+ "-prime")) as Hne.
  { intros [= Heq]. by apply (primeName_neq pvc). }
  assert ((Namespace pvc, Name pvc +:+ "-prime") ≠ (Namespace pvc, Name pvc)) as Hne' by done.
  assert (annotationsOrEmpty prime !! DataMoverPopulatorReconciler.annPopulated ≠ None)
    as Hprimemark.
  { rewrite annotation_orEmpty. unfold DataMoverPopulatorReconciler.annPopulated.
    by destruct Hpopulated as [? ->]. }
  assert (annotationsOrEmpty pvc !! DataMoverPopulatorReconciler.annPopulating ≠ None)
    as Htargetmark.
  { rewrite annotation_orEmpty. unfold DataMoverPopulatorReconciler.annPopulating.
    by destruct Hmarked as [? ->]. }
  as_wp; unfold_populator; repeat run_step.
  all: repeat split; reflexivity.
Qed.

(** The hand-off under sustained conflicts on the final update of the
    target claim. *)
Lemma final_conflicts_end_the_handoff c rest t ps req (pvc prime : PersistentVolumeClaim)
    (populator : DataMoverPopulator) (pv : PersistentVolume) :
  handoffUnderWay c req pvc prime populator pv →
  let f := ([None; None; None; None; None; None; None; None; None; None; None;
             None; Some ErrConflict; None; Some ErrConflict; None; Some ErrConflict]
              ++ rest)%list in
  let r := DataMoverPopulatorReconciler.Reconcile req (enter c f t ps) in
  r.1 = Returned (ResultZero, Some ErrConflict)
  ∧ (∃ update : PersistentVolumeClaim,
       finalAnnotations update
       ∧ drop 11 (events r.2)
         = [EvGet KClaim req; EvUpdateClaim update; EvSleep (100 * Millisecond);
            EvGet KClaim req; EvUpdateClaim update; EvSleep (200 * Millisecond);
            EvGet KClaim req; EvUpdateClaim update])
  ∧ finalAttempts (trace r.2) = 3%nat
  ∧ attempts isUpdateVolume r.2 = 1%nat
  ∧ sleeps (events r.2) = [100 * Millisecond; 200 * Millisecond].
Proof.
  intros (Hpvc & Hkey & Hname & Hpop & Hflag & Hcleanup & Hmarked & Hphase & Hprime
          & Hprimekey & Hts & Hbound & Hpopulated & Hjob & Hvol & Hpvname) f r.
  subst f req. unfold metaKey in *. injection Hprimekey as Hprimens Hprimename.
  populator_facts Hname. rewrite <- Hrefname in *. flag_facts.
  assert ((Namespace pvc, Name pvc) ≠ (Namespace pvc, Name pvc +:+ "-prime")) as Hne.
  { intros [= Heq]. by apply (primeName_neq pvc). }
  assert ((Namespace pvc, Name pvc +:+ "-prime") ≠ (Namespace pvc, Name pvc)) as Hne' by done.
  assert (annotationsOrEmpty prime !! DataMoverPopulatorReconciler.annPopulated ≠ None)
    as Hprimemark.
  { rewrite annotation_orEmpty. unfold DataMoverPopulatorReconciler.annPopulated.
    by destruct Hpopulated as [? ->]. }
  assert (annotationsOrEmpty pvc !! DataMoverPopulatorReconciler.annPopulating ≠ None)
    as Htargetmark.
  { rewrite annotation_orEmpty. unfold DataMoverPopulatorReconciler.annPopulating.
    by destruct Hmarked as [? ->]. }
  as_wp; unfold_populator; repeat run_step.
  all: split; [reflexivity|]; split; [|repeat split; reflexivity].
  all: eexists; split; [|reflexivity].
  all: unfold finalAnnotations; cbn [pvcWithMeta pvc_ObjectMeta]; rewrite !annotation_set.
  all: unfold DataMoverPopulatorReconciler.annCleanup,
         DataMoverPopulatorReconciler.annPopulating,
         DataMoverPopulatorReconciler.annPopulated.
  all: split; [by rewrite !lookup_delete_ne, lookup_insert_eq by done|].
  all: split; [by rewrite lookup_delete_ne, lookup_delete_eq by done|].
  all: by rewrite lookup_delete_eq.
Qed.

(** C5. The hand-off of the volume, run by [Reconcile] in a store in which
    it reaches its loops, the nine calls before the loops and the reads of
    the loops going through.  Under sustained version conflicts on the
    update that clears the claim reference of the volume, the invocation
    attempts exactly three updates, sleeps 100ms after the first and 200ms
    after the second, and returns the conflict error after the third; the
    volumes of the store are unchanged.  Under sustained conflicts on the
    final update of the target claim, once the volume update is accepted,
    it does the same with the update that carries the final annotations.
    Whatever the store holds and whatever the environment answers, an
    invocation attempts at most three volume updates and at most three
    final updates. *)
Theorem handoff_retries_are_bounded :
  (∀ c rest t ps req (pvc prime : PersistentVolumeClaim)
     (populator : DataMoverPopulator) (pv : PersistentVolume),
      handoffUnderWay c req pvc prime populator pv →
      let f := ([None; None; None; None; None; None; None; None; None;
                 None; Some ErrConflict; None; Some ErrConflict; None; Some ErrConflict]
                  ++ rest)%list in
      let r := DataMoverPopulatorReconciler.Reconcile req (enter c f t ps) in
      let read := EvGet KVolume ("", VolumeName (pvc_Spec prime)) in
      let update := EvUpdateVolume {| pv_ObjectMeta := pv; ClaimRef := None |} in
      r.1 = Returned (ResultZero, Some ErrConflict)
      ∧ drop 9 (events r.2) = [read; update; EvSleep (100 * Millisecond);
                               read; update; EvSleep (200 * Millisecond);
                               read; update]
      ∧ attempts isUpdateVolume r.2 = 3%nat
      ∧ sleeps (events r.2) = [100 * Millisecond; 200 * Millisecond]
      ∧ volumes (cluster r.2) = volumes c)
  ∧ (∀ c rest t ps req (pvc prime : PersistentVolumeClaim)
       (populator : DataMoverPopulator) (pv : PersistentVolume),
      handoffUnderWay c req pvc prime populator pv →
      let f := ([None; None; None; None; None; None; None; None; None; None; None;
                 None; Some ErrConflict; None; Some ErrConflict; None; Some ErrConflict]
                  ++ rest)%list in
      let r := DataMoverPopulatorReconciler.Reconcile req (enter c f t ps) in
      r.1 = Returned (ResultZero, Some ErrConflict)
      ∧ (∃ update : PersistentVolumeClaim,
           finalAnnotations update
           ∧ drop 11 (events r.2)
             = [EvGet KClaim req; EvUpdateClaim update; EvSleep (100 * Millisecond);
                EvGet KClaim req; EvUpdateClaim update; EvSleep (200 * Millisecond);
                EvGet KClaim req; EvUpdateClaim update])
      ∧ finalAttempts (trace r.2) = 3%nat
      ∧ attempts isUpdateVolume r.2 = 1%nat
      ∧ sleeps (events r.2) = [100 * Millisecond; 200 * Millisecond])
  ∧ (∀ c f t ps req,
      let r := DataMoverPopulatorReconciler.Reconcile req (enter c f t ps) in
      (attempts isUpdateVolume r.2 ≤ 3)%nat ∧ (finalAttempts (trace r.2) ≤ 3)%nat).
Proof.
  split; [|split].
  - intros c rest t ps req pvc prime populator pv Hstore.
    exact (volume_conflicts_end_the_handoff c rest t ps req pvc prime populator pv Hstore).
  - intros c rest t ps req pvc prime populator pv Hstore.
    exact (final_conflicts_end_the_handoff c rest t ps req pvc prime populator pv Hstore).
  - intros c f t ps req. apply Reconcile_attempts.
Qed.

Lemma handoff_retries_are_bounded_witness :
  let target := Fixtures.target (Some {[ "datamover.a-cup-of.coffee/populating" := "true";
                                          "datamover.a-cup-of.coffee/cleanup-in-progress" := "true" ]}) in
  let prime := Fixtures.prime (Some {[ "datamover.a-cup-of.coffee/populated" := "true" ]}) in
  let c := Fixtures.populatorCluster [target; prime] [] in
  let f := [None; None; None; None; None; None; None; None; None;
            None; Some ErrConflict; None; Some ErrConflict; None; Some ErrConflict] in
  let r := DataMoverPopulatorReconciler.Reconcile ("prod", "data")
             (enter c f Fixtures.clock ∅) in
  r.1 = Returned (ResultZero, Some ErrConflict)
  ∧ attempts isUpdateVolume r.2 = 3%nat
  ∧ sleeps (events r.2) = [100 * Millisecond; 200 * Millisecond].
Proof.
  intros target prime c f r.
  destruct handoff_retries_are_bounded as (Hvolume & _ & _).
  destruct (Hvolume c [] Fixtures.clock ∅ ("prod", "data") target prime
              Fixtures.populator Fixtures.volume)
    as (Hreply & _ & Hattempts & Hsleeps & _).
  - unfold handoffUnderWay.
    repeat split; first [ by eexists | discriminate | vm_compute; reflexivity ].
  - split; [exact Hreply|]. split; [exact Hattempts|exact Hsleeps].
Defined.

(** The same hand-off with nothing refused but the final update: the
    invocation gives up after three attempts of it. *)
Example handoff_gives_up_after_three_conflicts :
  let target := Fixtures.target (Some {[ "datamover.a-cup-of.coffee/populating" := "true";
                                          "datamover.a-cup-of.coffee/cleanup-in-progress" := "true" ]}) in
  let prime := Fixtures.prime (Some {[ "datamover.a-cup-of.coffee/populated" := "true" ]}) in
  let c := Fixtures.populatorCluster [target; prime] [] in
  let f := [None; None; None; None; None; None; None; None; None; None; None;
            None; Some ErrConflict; None; Some ErrConflict; None; Some ErrConflict] in
  let r := DataMoverPopulatorReconciler.Reconcile ("prod", "data")
             (enter c f Fixtures.clock ∅) in
  r.1 = Returned (ResultZero, Some ErrConflict)
  ∧ attempts isUpdateVolume r.2 = 1%nat
  ∧ finalAttempts (trace r.2) = 3%nat
  ∧ attempts isUpdateClaim r.2 = 4%nat
  ∧ sleeps (events r.2) = [100 * Millisecond; 200 * Millisecond].
Proof. vm_compute. repeat split. Qed.

(** ** C8: the creation of the prime claim *)













(** ** C6: [populated] is written last *)

Import DataMoverPopulatorReconciler.

















(** ** The steps of the DataMover reconciler *)

(** X1. A DataMover request in phase [CreatingClonedPVC], read from the
    store.  When the store holds no claim under the clone name of the status,
    the invocation returns the not-found error and writes nothing: the
    request stays in its phase.  When the clone is there and not [Bound], the
    invocation asks to be called again after 15 seconds and writes nothing.
    When the clone is [Bound] and the status update is accepted, the phase
    becomes [ClonedPVCReady], the clone name of the status is kept, the
    claims are untouched and a requeue is asked. *)
Theorem clone_is_awaited (dm : DataMover) c f t ps req :
  dataMovers c !! req = Some dm →
  metaKey dm = req →
  Phase (dm_Status dm) = "CreatingClonedPVC" →
  refusal f 0 = None → refusal f 1 = None →
  let cloneKey := (Namespace dm, RestoredPVCName (dm_Status dm)) in
  let r := DataMoverReconciler.Reconcile req (enter c f t ps) in
  (claims c !! cloneKey = None →
     r.1 = Returned (ResultZero, Some ErrNotFound) ∧ cluster r.2 = c ∧ writes r.2 = [])
  ∧ (∀ clone : PersistentVolumeClaim,
       claims c !! cloneKey = Some clone →
       (pvc_Phase clone ≠ "Bound" →
          r.1 = Returned (ResultAfter (15 * Second), None)
          ∧ cluster r.2 = c ∧ writes r.2 = [])
       ∧ (pvc_Phase clone = "Bound" → refusal f 2 = None →
          r.1 = Returned (ResultRequeue, None)
          ∧ dm_Status <$> dataMovers (cluster r.2) !! req
            = Some {| Phase := "ClonedPVCReady";
                      RestoredPVCName := RestoredPVCName (dm_Status dm) |}
          ∧ claims (cluster r.2) = claims c)).
Proof.
  intros Hdm Hkey Hphase H0 H1 cloneKey r. subst req cloneKey. unfold metaKey in *.
  split; [intros Habsent|intros clone Hclone; split; [intros Hpending|intros Hbound H2]].
  all: as_wp; unfold_mover; unfold ClaimBound in *.
  all: repeat run_step.
  all: repeat split.
  cbn. by rewrite lookup_insert_eq.
Qed.

Lemma clone_is_awaited_witness :
  let dm := Fixtures.mover "backup" "CreatingClonedPVC" "app-data-cloned-1700000000" true in
  let c := Fixtures.moverCluster dm [Fixtures.clone] [] in
  let r := DataMoverReconciler.Reconcile ("prod", "backup") (enter c [] Fixtures.clock ∅) in
  r.1 = Returned (ResultRequeue, None)
  ∧ phaseOf (cluster r.2) ("prod", "backup") = Some "ClonedPVCReady".
Proof.
  intros dm c r.
  destruct (clone_is_awaited dm c [] Fixtures.clock ∅ ("prod", "backup"))
    as [_ Hheld]; [reflexivity..|].
  destruct (Hheld Fixtures.clone) as [_ Hbound]; [reflexivity|].
  destruct Hbound as (Hreply & Hstatus & _); [reflexivity..|].
  split; [exact Hreply|].
  unfold phaseOf. subst r.
  destruct (dataMovers _ !! ("prod", "backup")) as [stored|]; [|discriminate].
  simpl in *. injection Hstatus as Hstatus. by rewrite Hstatus.
Defined.

(** X2. A DataMover request in phase [ClonedPVCReady], read from the
    store.  When the store already holds a job under the name
    [verify-<clone>], no creation is attempted, and the phase becomes
    [CreatingPod] once the status update is accepted.  When it holds none,
    exactly one creation is attempted, of the job of [createVerificationJob]:
    it lies under that name and mounts the clone of the status.  When the
    creation is refused, the error is returned and the store is unchanged;
    when the creation and the status update are accepted, the job is the one
    job added, the phase becomes [CreatingPod] and a requeue is asked. *)
Theorem sync_job_is_created_once (dm : DataMover) c f t ps req :
  dataMovers c !! req = Some dm →
  metaKey dm = req →
  Phase (dm_Status dm) = "ClonedPVCReady" →
  refusal f 0 = None → refusal f 1 = None →
  let job := DataMoverReconciler.verificationJob dm in
  let jobKey := (Namespace dm, "verify-" +:+ RestoredPVCName (dm_Status dm)) in
  let r := DataMoverReconciler.Reconcile req (enter c f t ps) in
  (∀ found : Job,
      jobs c !! jobKey = Some found →
      filter (λ e, isCreate e = true) (events r.2) = []
      ∧ (refusal f 2 = None →
         r.1 = Returned (ResultRequeue, None)
         ∧ phaseOf (cluster r.2) req = Some "CreatingPod"
         ∧ jobs (cluster r.2) = jobs c))
  ∧ (jobs c !! jobKey = None →
     filter (λ e, isCreate e = true) (events r.2) = [EvCreateJob job]
     ∧ metaKey job = jobKey
     ∧ Volumes (job_Spec job)
       = [ {| volume_Name := "restored-data";
              volume_Source := FromClaim (RestoredPVCName (dm_Status dm)) |} ]
     ∧ (∀ err, refusal f 2 = Some err →
        r.1 = Returned (ResultZero, Some err) ∧ cluster r.2 = c)
     ∧ (refusal f 2 = None → refusal f 3 = None →
        r.1 = Returned (ResultRequeue, None)
        ∧ phaseOf (cluster r.2) req = Some "CreatingPod"
        ∧ jobs (cluster r.2) = <[jobKey := job]> (jobs c))).
Proof.
  intros Hdm Hkey Hphase H0 H1 job jobKey r. subst req jobKey. unfold metaKey in *.
  split.
  - intros found Hfound. split; [|intros H2]; as_wp; unfold_mover.
    all: repeat run_step.
    all: try reflexivity.
    all: unfold phaseOf; simpl; rewrite lookup_insert_eq; done.
  - intros Hfree.
    split; [|split; [reflexivity|split; [reflexivity|split; [intros err H2|intros H2 H3]]]].
    all: as_wp; unfold_mover.
    all: repeat run_step.
    all: try reflexivity.
    all: try done.
    all: unfold phaseOf; simpl; rewrite lookup_insert_eq; done.
Qed.

Lemma sync_job_is_created_once_witness :
  let dm := Fixtures.mover "backup" "ClonedPVCReady" "app-data-cloned-1700000000" true in
  let c := Fixtures.moverCluster dm [Fixtures.clone] [] in
  let r := DataMoverReconciler.Reconcile ("prod", "backup") (enter c [] Fixtures.clock ∅) in
  jobs (cluster r.2) !! ("prod", "verify-app-data-cloned-1700000000")
  = Some (DataMoverReconciler.verificationJob dm)
  ∧ phaseOf (cluster r.2) ("prod", "backup") = Some "CreatingPod".
Proof.
  intros dm c r.
  destruct (sync_job_is_created_once dm c [] Fixtures.clock ∅ ("prod", "backup"))
    as [_ Hfree]; [reflexivity..|].
  destruct Hfree as (_ & _ & _ & _ & Hdone); [reflexivity|].
  destruct Hdone as (_ & Hphase & Hjobs); [reflexivity..|].
  split; [|exact Hphase].
  subst r. rewrite Hjobs. apply lookup_insert_eq.
Defined.

(** X3. A DataMover request in phase [CreatingPod], read from the store.
    When the store holds no job under the name [verify-<clone>], the
    invocation returns the not-found error and writes nothing: the request
    stays in its phase.  When the job has neither a success nor a failure,
    the invocation asks to be called again after 15 seconds and writes
    nothing.  When the job has a success, whatever its failures, and the
    status update is accepted, the phase becomes [CleaningUp] (cleanup
    requested) or [Completed], and the start time of the phase is
    forgotten. *)
Theorem sync_job_is_awaited (dm : DataMover) c f t ps req :
  dataMovers c !! req = Some dm →
  metaKey dm = req →
  Phase (dm_Status dm) = "CreatingPod" →
  refusal f 0 = None → refusal f 1 = None →
  let jobKey := (Namespace dm, "verify-" +:+ RestoredPVCName (dm_Status dm)) in
  let r := DataMoverReconciler.Reconcile req (enter c f t ps) in
  (jobs c !! jobKey = None →
     r.1 = Returned (ResultZero, Some ErrNotFound)
     ∧ cluster r.2 = c ∧ writes r.2 = [] ∧ PhaseStart r.2 = ps)
  ∧ (∀ job : Job,
       jobs c !! jobKey = Some job →
       (Succeeded (job_Status job) ≤ 0 → Failed (job_Status job) ≤ 0 →
          r.1 = Returned (ResultAfter (15 * Second), None)
          ∧ cluster r.2 = c ∧ writes r.2 = [] ∧ PhaseStart r.2 = ps)
       ∧ (0 < Succeeded (job_Status job) → refusal f 2 = None →
          r.1 = Returned (ResultRequeue, None)
          ∧ phaseOf (cluster r.2) req
            = Some (if DeletePvcAfterBackup (dm_Spec dm) then "CleaningUp" else "Completed")
          ∧ PhaseStart r.2 = delete (nnString req +:+ "-CreatingPod") ps)).
Proof.
  intros Hdm Hkey Hphase H0 H1 jobKey r. subst req jobKey. unfold metaKey in *.
  destruct (DeletePvcAfterBackup (dm_Spec dm)) eqn:Hcleanup.
  all: split; [intros Habsent|intros job Hjob; split; [intros Hs Hf|intros Hs H2]].
  all: as_wp; unfold_mover.
  all: repeat run_step; try lia.
  all: repeat (split; [reflexivity|]); try reflexivity.
  all: split; [|try reflexivity; symmetry; by apply delete_id].
  all: unfold phaseOf; simpl; by rewrite lookup_insert_eq.
Qed.

Lemma sync_job_is_awaited_witness :
  let dm := Fixtures.mover "backup" "CreatingPod" "app-data-cloned-1700000000" true in
  let c := Fixtures.moverCluster dm [Fixtures.clone] [Fixtures.syncJob 1 2] in
  let ps : gmap string Z := {[ "prod/backup-CreatingPod" := 1699999000 ]} in
  let r := DataMoverReconciler.Reconcile ("prod", "backup") (enter c [] Fixtures.clock ps) in
  r.1 = Returned (ResultRequeue, None)
  ∧ phaseOf (cluster r.2) ("prod", "backup") = Some "CleaningUp"
  ∧ PhaseStart r.2 = ∅.
Proof.
  intros dm c ps r.
  destruct (sync_job_is_awaited dm c [] Fixtures.clock ps ("prod", "backup"))
    as [_ Hheld]; [reflexivity..|].
  destruct (Hheld (Fixtures.syncJob 1 2)) as [_ Hsuccess]; [reflexivity|].
  destruct Hsuccess as (Hreply & Hphase & Hstart); [reflexivity..|].
  split; [exact Hreply|]. split; [exact Hphase|].
  subst r. rewrite Hstart. apply delete_singleton_eq.
Defined.

(** X4. A request whose DataMover the store does not hold: the invocation
    returns done, writes nothing, and removes from [PhaseStart] the key
    [<namespace>/<name>] only, so the start times of the request, which lie
    under [<namespace>/<name>-<phase>], all stay.  A read that is refused
    with another error is returned as it is, and [PhaseStart] is
    untouched. *)
Theorem deleted_request_keeps_its_start_times c f t ps req :
  let r := DataMoverReconciler.Reconcile req (enter c f t ps) in
  (dataMovers c !! req = None → refusal f 0 = None →
     r.1 = Returned (ResultZero, None)
     ∧ cluster r.2 = c ∧ writes r.2 = []
     ∧ PhaseStart r.2 = delete (nnString req) ps
     ∧ ∀ phase, PhaseStart r.2 !! (nnString req +:+ "-" +:+ phase)
                = ps !! (nnString req +:+ "-" +:+ phase))
  ∧ (∀ err, refusal f 0 = Some err → err ≠ ErrNotFound →
     r.1 = Returned (ResultZero, Some err)
     ∧ cluster r.2 = c ∧ writes r.2 = [] ∧ PhaseStart r.2 = ps).
Proof.
  intros r. split; [intros Habsent H0|intros err H0 Hother].
  all: as_wp; unfold_mover.
  all: repeat run_step.
  - repeat (split; [reflexivity|]).
    intros phase. cbn. apply lookup_delete_ne.
    intros Heq. apply (f_equal String.length) in Heq.
    rewrite !append_length in Heq. simpl in Heq. lia.
  - by destruct err.
  - repeat split.
Qed.

Lemma deleted_request_keeps_its_start_times_witness :
  let c := Fixtures.moverCluster (Fixtures.mover "other" "Completed" "" false) [] [] in
  let ps : gmap string Z := {[ "prod/backup-CreatingPod" := 1699999000 ]} in
  let r := DataMoverReconciler.Reconcile ("prod", "backup") (enter c [] Fixtures.clock ps) in
  r.1 = Returned (ResultZero, None)
  ∧ PhaseStart r.2 !! "prod/backup-CreatingPod" = Some 1699999000.
Proof.
  intros c ps r.
  destruct (deleted_request_keeps_its_start_times c [] Fixtures.clock ps ("prod", "backup"))
    as [Hgone _].
  destruct Hgone as (Hreply & _ & _ & _ & Hkept); [reflexivity..|].
  split; [exact Hreply|].
  subst r. exact (Hkept "CreatingPod").
Defined.

(** X5. A DataMover whose phase is none of the seven that the state machine
    names: the invocation asks for an immediate requeue, leaves the store and
    [PhaseStart] as they are, and its only calls are the read of the request
    and the phase gauge, which it sets to [0], the value of the initial
    phase. *)
Theorem unknown_phase_is_requeued (dm : DataMover) c f t ps req :
  dataMovers c !! req = Some dm →
  Phase (dm_Status dm) ∉ knownPhases →
  refusal f 0 = None →
  let r := DataMoverReconciler.Reconcile req (enter c f t ps) in
  r.1 = Returned (ResultRequeue, None)
  ∧ cluster r.2 = c
  ∧ PhaseStart r.2 = ps
  ∧ events r.2 = [EvGet KDataMover req;
                  EvMetric "SetCurrentPhase" [Name dm; Namespace dm; "0"]].
Proof.
  intros Hdm Hphase H0 r.
  unfold knownPhases in Hphase. unfold_phases.
  rewrite !not_elem_of_cons in Hphase.
  destruct Hphase as (? & ? & ? & ? & ? & ? & ? & _).
  as_wp; unfold_mover.
  repeat run_step.
  repeat (split; [reflexivity|]).
  unfold events. cbn [trace after enter record]. unfold DataMoverReconciler.GetPhaseMetricValue.
  repeat (case_decide; [done|]). reflexivity.
Qed.

Lemma unknown_phase_is_requeued_witness :
  let dm := Fixtures.mover "backup" "Paused" "" false in
  let c := Fixtures.moverCluster dm [] [] in
  let r := DataMoverReconciler.Reconcile ("prod", "backup") (enter c [] Fixtures.clock ∅) in
  r.1 = Returned (ResultRequeue, None) ∧ cluster r.2 = c.
Proof.
  intros dm c r.
  destruct (unknown_phase_is_requeued dm c [] Fixtures.clock ∅ ("prod", "backup"))
    as (Hreply & Hstore & _); [reflexivity| |reflexivity|].
  - unfold knownPhases. apply (bool_decide_unpack _). vm_compute. exact I.
  - split; [exact Hreply|exact Hstore].
Defined.

(** X6. [GetPhaseMetricValue] numbers the seven phases of the state machine
    by their place in the order initial, [CreatingClonedPVC],
    [ClonedPVCReady], [CreatingPod], [CleaningUp], [Completed], [Failed], so
    the phase is read back from its value; every other phase is given the
    value of the initial phase. *)
Theorem phase_metric_values (phase : string) :
  (phase ∈ knownPhases →
     knownPhases !! Z.to_nat (DataMoverReconciler.GetPhaseMetricValue phase) = Some phase)
  ∧ (phase ∉ knownPhases →
     DataMoverReconciler.GetPhaseMetricValue phase
     = DataMoverReconciler.GetPhaseMetricValue DataMoverReconciler.PhaseInitial).
Proof.
  unfold knownPhases, DataMoverReconciler.GetPhaseMetricValue. unfold_phases.
  split.
  - rewrite !elem_of_cons, elem_of_nil.
    intros [->|[->|[->|[->|[->|[->|[->|[]]]]]]]]; reflexivity.
  - rewrite !not_elem_of_cons. intros (? & ? & ? & ? & ? & ? & ? & _).
    repeat (case_decide; [done|]). reflexivity.
Qed.

Lemma phase_metric_values_witness :
  knownPhases !! Z.to_nat (DataMoverReconciler.GetPhaseMetricValue "CleaningUp")
  = Some "CleaningUp"
  ∧ DataMoverReconciler.GetPhaseMetricValue "Paused" = 0.
Proof.
  destruct (phase_metric_values "CleaningUp") as [Hknown _].
  destruct (phase_metric_values "Paused") as [_ Hunknown].
  split.
  - apply Hknown. unfold knownPhases. apply (bool_decide_unpack _). vm_compute. exact I.
  - apply Hunknown. unfold knownPhases. apply (bool_decide_unpack _). vm_compute. exact I.
Defined.

(** ** The start times that the DataMover reconciler keeps *)

Lemma substring_append (a b : string) :
  String.substring 0 (String.length a) (a +:+ b) = a.
Proof.
  induction a as [|x a IH]; [by destruct b|].
  change (String x a +:+ b) with (String x (a +:+ b)). simpl. by rewrite IH.
Qed.

(** The loop of the [Failed] case, when no key is shorter than the name: it
    returns, and forgets the start times whose key begins with the name. *)
Lemma forgetPhaseStarts_forgets nn keys w :
  Forall (λ key, (String.length nn ≤ String.length key)%nat) keys →
  ∃ p, DataMoverReconciler.forgetPhaseStarts nn keys w = (Returned (), withPhaseStart p w)
       ∧ (∀ key, key ∈ keys → startsWith nn key → p !! key = None)
       ∧ (∀ key, ¬ startsWith nn key → p !! key = PhaseStart w !! key)
       ∧ (∀ key, PhaseStart w !! key = None → p !! key = None).
Proof.
  intros Hkeys. revert w.
  induction Hkeys as [|key rest Hkey _ IH]; intros w; simpl.
  - exists (PhaseStart w). split; [by destruct w|].
    split; [by intros key ?%elem_of_nil|done].
  - case_decide; [lia|]. unfold mbind, M_bind.
    destruct (decide (nn = String.substring 0 (String.length nn) key)) as [Hyes|Hno]; simpl.
    + destruct (IH (withPhaseStart (delete key (PhaseStart w)) w))
        as (p & -> & Hgone & Hkept & Hnone).
      simpl in *. exists p. split; [done|]. split; [|split].
      * intros key' [->|Hin]%elem_of_cons Hstarts; [|by apply Hgone].
        apply Hnone, lookup_delete_eq.
      * intros key' Hstarts. rewrite Hkept by done.
        apply lookup_delete_ne. by intros ->.
      * intros key' Hnot. apply Hnone.
        destruct (decide (key = key')) as [->|Hne];
          [apply lookup_delete_eq|by rewrite lookup_delete_ne].
    + destruct (IH w) as (p & -> & Hgone & Hkept & Hnone).
      exists p. split; [done|]. split; [|done].
      intros key' [->|Hin]%elem_of_cons Hstarts; [done|by apply Hgone].
Qed.

(** X7. A DataMover request in phase [Failed], when no key of [PhaseStart]
    is shorter than [<namespace>/<name>]: the invocation returns done and
    forgets every start time whose key begins with [<namespace>/<name>], so
    also the start times of every other request whose name extends the name
    of this one; the keys that do not begin with it are kept. *)
Theorem failed_request_forgets_by_prefix (dm : DataMover) c f t ps req :
  dataMovers c !! req = Some dm →
  Phase (dm_Status dm) = "Failed" →
  refusal f 0 = None →
  map_Forall (λ key (_ : Z), (String.length (nnString req) ≤ String.length key)%nat) ps →
  let r := DataMoverReconciler.Reconcile req (enter c f t ps) in
  r.1 = Returned (ResultZero, None)
  ∧ (∀ suffix, PhaseStart r.2 !! (nnString req +:+ suffix) = None)
  ∧ (∀ key, ¬ startsWith (nnString req) key → PhaseStart r.2 !! key = ps !! key).
Proof.
  intros Hdm Hphase H0 Hkeys r.
  assert (Forall (λ key, (String.length (nnString req) ≤ String.length key)%nat)
                 (map_to_list ps).*1) as Hlong.
  { apply Forall_forall. intros key Hin.
    apply list_elem_of_fmap in Hin as [[k v] [-> Hkv]].
    apply elem_of_map_to_list in Hkv. by apply (Hkeys k v). }
  as_wp; unfold_mover.
  repeat lazymatch goal with
         | |- wp (DataMoverReconciler.forgetPhaseStarts _ _ ≫= _) _ _ => fail
         | |- _ => run_step
         end.
  apply wp_bind.
  match goal with |- wp (DataMoverReconciler.forgetPhaseStarts ?nn ?keys) _ ?w =>
    destruct (forgetPhaseStarts_forgets nn keys w Hlong) as (p & Heq & Hgone & Hkept & Hnone);
    unfold wp at 1; rewrite Heq
  end.
  cbn [fst snd andThen]. repeat run_step.
  cbn in *. split; [done|]. split; [|done].
  intros suffix. destruct (ps !! (nnString req +:+ suffix)) as [start|] eqn:Hstart.
  - apply Hgone; [|unfold startsWith; by rewrite substring_append].
    apply list_elem_of_fmap. exists (nnString req +:+ suffix, start).
    split; [done|]. by apply elem_of_map_to_list.
  - by apply Hnone.
Qed.

Lemma failed_request_forgets_by_prefix_witness :
  let dm := Fixtures.mover "backup" "Failed" "app-data-cloned-1700000000" false in
  let c := Fixtures.moverCluster dm [] [] in
  let ps : gmap string Z := {[ "prod/backup-CreatingPod" := 1699999000;
                               "prod/backup-2-CreatingPod" := 1699999500;
                               "prod/other-CreatingPod" := 1699999900 ]} in
  let r := DataMoverReconciler.Reconcile ("prod", "backup") (enter c [] Fixtures.clock ps) in
  r.1 = Returned (ResultZero, None)
  ∧ PhaseStart r.2 !! "prod/backup-2-CreatingPod" = None
  ∧ PhaseStart r.2 !! "prod/other-CreatingPod" = Some 1699999900.
Proof.
  intros dm c ps r.
  destruct (failed_request_forgets_by_prefix dm c [] Fixtures.clock ps ("prod", "backup"))
    as (Hreply & Hgone & Hkept); [reflexivity..| |].
  - apply (bool_decide_unpack _). vm_compute. exact I.
  - split; [exact Hreply|]. split.
    + exact (Hgone "-2-CreatingPod").
    + transitivity (ps !! "prod/other-CreatingPod"); [|reflexivity].
      apply Hkept. unfold startsWith. vm_compute. discriminate.
Defined.

(** X8. The start times of the phases.  The invocation of the initial
    phase stores its time under [<namespace>/<name>-CreatingClonedPVC] and
    reports no duration.  The invocation of phase [ClonedPVCReady] reports
    one duration, for the phase [CreatingClonedPVC] in the namespace of the
    request, when that start is there, and none when it is not; it forgets
    the start and stores its own time under
    [<namespace>/<name>-CreatingPod].  All this holds whatever the store
    answers to the calls that follow.  The value of the duration is not
    stated. *)
Theorem phase_start_times (dm : DataMover) c f t ps req :
  dataMovers c !! req = Some dm →
  refusal f 0 = None →
  let cloning := nnString req +:+ "-CreatingClonedPVC" in
  let syncing := nnString req +:+ "-CreatingPod" in
  let r := DataMoverReconciler.Reconcile req (enter c f t ps) in
  (Phase (dm_Status dm) = "" →
     PhaseStart r.2 = <[cloning := Unix t]> ps
     ∧ durationLabels (events r.2) = [])
  ∧ (Phase (dm_Status dm) = "ClonedPVCReady" →
     PhaseStart r.2 = <[syncing := Unix t]> (delete cloning ps)
     ∧ durationLabels (events r.2)
       = match ps !! cloning with
         | Some _ => [["CreatingClonedPVC"; Namespace dm]]
         | None => []
         end).
Proof.
  intros Hdm H0 cloning syncing r. subst cloning syncing.
  change (nnString req +:+ "-CreatingClonedPVC")
    with (nnString req +:+ "-" +:+ "CreatingClonedPVC").
  split; intros Hphase; as_wp; unfold_mover.
  all: repeat run_step.
  all: repeat match goal with H : _ !! (_ +:+ _) = _ |- _ => rewrite H end.
  all: split; [try reflexivity|reflexivity].
  all: by rewrite delete_id.
Qed.

Lemma phase_start_times_witness :
  let dm := Fixtures.mover "backup" "ClonedPVCReady" "app-data-cloned-1700000000" true in
  let c := Fixtures.moverCluster dm [Fixtures.clone] [] in
  let ps : gmap string Z := {[ "prod/backup-CreatingClonedPVC" := 1699999000 ]} in
  let r := DataMoverReconciler.Reconcile ("prod", "backup") (enter c [] Fixtures.clock ps) in
  PhaseStart r.2 = {[ "prod/backup-CreatingPod" := 1700000000 ]}
  ∧ durationLabels (events r.2) = [["CreatingClonedPVC"; "prod"]].
Proof.
  intros dm c ps r.
  destruct (phase_start_times dm c [] Fixtures.clock ps ("prod", "backup"))
    as [_ Hready]; [reflexivity..|].
  destruct Hready as [Hstart Hreported]; [reflexivity|].
  split.
  - subst r. rewrite Hstart. apply map_eq. intros key. vm_compute. reflexivity.
  - exact Hreported.
Defined.

(** ** What the DataMover reconciler asks of the store *)

Lemma cloned_name_neq (a x : string) : a +:+ "-cloned-" +:+ x ≠ a.
Proof.
  intros H. apply (f_equal String.length) in H.
  rewrite !append_length in H. simpl in H. lia.
Qed.

(** X9. The calls of an invocation of the DataMover reconciler.  It reads
    DataMovers, claims and jobs only.  It creates a claim only for a request
    in the initial phase, in the namespace of the request and under a name
    that is not the name of the source claim; it creates a job only for a
    request in phase [ClonedPVCReady], and that job is the one of
    [createVerificationJob]; it deletes only in phase [CleaningUp], and only
    the claim that the store holds under the clone name of the status; its
    status updates carry the metadata and the spec of the request as read.
    It never updates a claim or a volume, and never deletes a job. *)
Theorem mover_calls_are_confined c f t ps req :
  Forall (moverCallOk c req)
         (events (DataMoverReconciler.Reconcile req (enter c f t ps)).2).
Proof.
  unfold events. rewrite Forall_reverse.
  change (wp (DataMoverReconciler.Reconcile req)
             (λ _ w, Forall (moverCallOk c req) (trace w))
             (enter c f t ps)).
  unfold DataMoverReconciler.Reconcile, DataMoverReconciler.createClonedPVC,
    DataMoverReconciler.waitForPVCBound, DataMoverReconciler.createVerificationJob,
    DataMoverReconciler.waitForJobCompletion, DataMoverReconciler.cleanupClonedPVC.
  unfold_phases.
  repeat wp_step.
  all: repeat first [apply Forall_nil_2 | apply Forall_cons_2]; try exact I.
  all: cbn [moverCallOk]; auto.
  all: try (eexists; split; [eassumption|]; split; [done|];
            try (split; [reflexivity|apply cloned_name_neq]); done).
  all: try (eexists; split; [eassumption|];
            by repeat match goal with |- context [if ?b then _ else _] => destruct b end).
  all: eexists _, _; repeat (split; [eassumption || reflexivity|]); reflexivity.
Qed.

(** ** A backup from the first invocation to the last *)

(** The result [r] of a run, as a statement of [wp]. *)
Ltac as_wp_of r :=
  pattern (r.1), (r.2);
  lazymatch goal with
  | |- ?Q _ _ =>
      lazymatch eval unfold r in r with
      | ?m ?w => change (wp m Q w)
      end
  end.

(** The maps of a store that is known, each as an update of the maps of
    the store at the start. *)
Ltac tidy :=
  repeat first
    [ progress cbn [dataMovers claims jobs withDataMovers withClaims withJobs]
    | progress unfold claimIsBound, jobHasSucceeded, id
    | rewrite insert_insert_eq
    | rewrite alter_insert_eq
    | rewrite delete_insert_eq
    | rewrite delete_id by assumption
    | match goal with
      | H : dataMovers _ = _ |- _ => rewrite H
      | H : claims _ = _ |- _ => rewrite H
      | H : jobs _ = _ |- _ => rewrite H
      | H : cluster _ = _ |- _ => rewrite H
      end ].

Ltac tidy_maps := tidy; reflexivity.

(** The invocation [r] that follows the result of [Hc] and [Hp]: the store
    it starts from is named, its maps are stated, and it is run. *)
Ltac run_after r Hc Hp :=
  unfold r, thenReconcile; rewrite Hp;
  match goal with
  | |- context [enter ?c0 _ _ _] =>
      let c' := fresh "c" in
      set (c' := c0);
      eassert (dataMovers c' = _) by (unfold c'; tidy_maps);
      eassert (claims c' = _) by (unfold c'; tidy_maps);
      eassert (jobs c' = _) by (unfold c'; tidy_maps)
  end;
  match goal with
  | |- context [DataMoverReconciler.Reconcile ?q ?w] =>
      let r' := fresh "r" in
      set (r' := DataMoverReconciler.Reconcile q w); as_wp_of r'
  end;
  unfold_mover; unfold ClaimBound;
  repeat run_step; repeat split; reflexivity.

Lemma phaseOf_status c key s :
  dm_Status <$> dataMovers c !! key = Some s → phaseOf c key = Some (Phase s).
Proof. unfold phaseOf. destruct (dataMovers c !! key); simpl; congruence. Qed.

(** X10. A backup in surroundings that refuse nothing.  The request is in
    the initial phase, its source claim exists, and the names of the clone
    and of the job are free.  Five invocations, with the clone bound after
    the first and the job reporting a success after the third, end in phase
    [Completed]: the first four ask for a requeue, the last returns done.
    The job stays in the store.  With cleanup requested the claims of the
    store are as they were at the start; without it the bound clone is the
    one claim added.  No start time of the request is left. *)
Theorem backup_runs_to_completion (dm : DataMover) (src : PersistentVolumeClaim)
    c ps t1 t2 t3 t4 t5 req :
  dataMovers c !! req = Some dm →
  metaKey dm = req →
  Phase (dm_Status dm) = "" →
  claims c !! (Namespace dm, SourcePVC (dm_Spec dm)) = Some src →
  let cloneName := SourcePVC (dm_Spec dm) +:+ "-cloned-" +:+ pretty (Unix t1) in
  let cloneKey := (Namespace dm, cloneName) in
  let jobKey := (Namespace dm, "verify-" +:+ cloneName) in
  claims c !! cloneKey = None →
  jobs c !! jobKey = None →
  let r1 := DataMoverReconciler.Reconcile req (enter c [] t1 ps) in
  let r2 := thenReconcile req t2 (claimIsBound cloneKey) r1 in
  let r3 := thenReconcile req t3 id r2 in
  let r4 := thenReconcile req t4 (jobHasSucceeded jobKey) r3 in
  let r5 := thenReconcile req t5 id r4 in
  (r1.1 = Returned (ResultRequeue, None) ∧ r2.1 = Returned (ResultRequeue, None)
   ∧ r3.1 = Returned (ResultRequeue, None) ∧ r4.1 = Returned (ResultRequeue, None)
   ∧ r5.1 = Returned (ResultZero, None))
  ∧ dm_Status <$> dataMovers (cluster r5.2) !! req
    = Some {| Phase := "Completed"; RestoredPVCName := cloneName |}
  ∧ is_Some (jobs (cluster r5.2) !! jobKey)
  ∧ (if DeletePvcAfterBackup (dm_Spec dm)
     then claims (cluster r5.2) = claims c
     else ∃ clone : PersistentVolumeClaim,
            claims (cluster r5.2) = <[cloneKey := clone]> (claims c)
            ∧ pvc_Phase clone = "Bound"
            ∧ DataSource (pvc_Spec clone)
              = Some {| local_APIGroup := None; local_Kind := "PersistentVolumeClaim";
                        local_Name := SourcePVC (dm_Spec dm) |})
  ∧ PhaseStart r5.2
    = delete (nnString req +:+ "-CreatingPod")
             (delete (nnString req +:+ "-CreatingClonedPVC") ps).
Proof.
  intros Hdm Hkey Hphase Hsrc cloneName cloneKey jobKey Hclone Hjob r1 r2 r3 r4 r5.
  subst req cloneKey jobKey cloneName. unfold metaKey in *.
  change (nnString (Namespace dm, Name dm) +:+ "-CreatingClonedPVC")
    with (nnString (Namespace dm, Name dm) +:+ "-" +:+ "CreatingClonedPVC").
  change (nnString (Namespace dm, Name dm) +:+ "-CreatingPod")
    with (nnString (Namespace dm, Name dm) +:+ "-" +:+ "CreatingPod").
  eassert (r1.1 = Returned (ResultRequeue, None)
           ∧ cluster r1.2 = ?[C1] ∧ PhaseStart r1.2 = ?[P1]) as (Ho1 & Hc1 & Hp1).
  { as_wp_of r1. unfold_mover. repeat run_step. repeat split; reflexivity. }
  eassert (r2.1 = Returned (ResultRequeue, None)
           ∧ cluster r2.2 = ?[C2] ∧ PhaseStart r2.2 = ?[P2]) as (Ho2 & Hc2 & Hp2).
  { run_after r2 Hc1 Hp1. }
  eassert (r3.1 = Returned (ResultRequeue, None)
           ∧ cluster r3.2 = ?[C3] ∧ PhaseStart r3.2 = ?[P3]) as (Ho3 & Hc3 & Hp3).
  { run_after r3 Hc2 Hp2. }
  rewrite delete_insert_eq in Hp3.
  destruct (DeletePvcAfterBackup (dm_Spec dm)) eqn:Hcleanup.
  all: eassert (r4.1 = Returned (ResultRequeue, None)
                ∧ cluster r4.2 = ?[C4] ∧ PhaseStart r4.2 = ?[P4]) as (Ho4 & Hc4 & Hp4).
  1, 3: run_after r4 Hc3 Hp3.
  all: rewrite delete_insert_eq in Hp4.
  all: eassert (r5.1 = Returned (ResultZero, None)
                ∧ cluster r5.2 = ?[C5] ∧ PhaseStart r5.2 = ?[P5]) as (Ho5 & Hc5 & Hp5).
  1, 3: run_after r5 Hc4 Hp4.
  all: split; [done|]; rewrite Hc5, Hp5; tidy.
  all: rewrite ?lookup_insert_eq.
  all: split; [reflexivity|]; split; [by eexists|]; split; [|reflexivity].
  - reflexivity.
  - eexists. split; [reflexivity|]. split; reflexivity.
Qed.
Lemma backup_runs_to_completion_witness :
  let dm := Fixtures.mover "backup" "" "" true in
  let c := Fixtures.moverCluster dm [] [] in
  let t := Fixtures.clock in
  let r1 := DataMoverReconciler.Reconcile ("prod", "backup") (enter c [] t ∅) in
  let r2 := thenReconcile ("prod", "backup") t
              (claimIsBound ("prod", "app-data-cloned-1700000000")) r1 in
  let r3 := thenReconcile ("prod", "backup") t id r2 in
  let r4 := thenReconcile ("prod", "backup") t
              (jobHasSucceeded ("prod", "verify-app-data-cloned-1700000000")) r3 in
  let r5 := thenReconcile ("prod", "backup") t id r4 in
  phaseOf (cluster r5.2) ("prod", "backup") = Some "Completed"
  ∧ claims (cluster r5.2) = claims c
  ∧ PhaseStart r5.2 = ∅.
Proof.
  intros dm c t r1 r2 r3 r4 r5.
  destruct (backup_runs_to_completion dm Fixtures.source c ∅ t t t t t ("prod", "backup"))
    as (_ & Hstatus & _ & Hclaims & Hstart); [reflexivity..|].
  split; [|split; [exact Hclaims|]].
  - exact (phaseOf_status _ _ _ Hstatus).
  - exact (eq_trans Hstart eq_refl).
Defined.

(** ** The steps of the Volume Population reconciler *)

(** X11. A claim that names a populator which the store does not hold: the
    invocation writes nothing; it returns done when the claim is [Bound] or
    carries [populated=true], and asks to be called again after 10 seconds
    otherwise. *)
Theorem missing_populator_is_awaited c f t ps req (pvc : PersistentVolumeClaim) name :
  claims c !! req = Some pvc →
  populatorName pvc = Some name →
  populators c !! (Namespace pvc, name) = None →
  refusal f 0 = None → refusal f 1 = None →
  let r := Reconcile req (enter c f t ps) in
  cluster r.2 = c
  ∧ writes r.2 = []
  ∧ (pvc_Phase pvc = "Bound" ∨ annotation pvc "datamover.a-cup-of.coffee/populated" = Some "true" →
     r.1 = Returned (ResultZero, None))
  ∧ (pvc_Phase pvc ≠ "Bound" →
     annotation pvc "datamover.a-cup-of.coffee/populated" ≠ Some "true" →
     r.1 = Returned (ResultAfter (10 * Second), None)).
Proof.
  intros Hpvc Hname Hpop H0 H1 r. populator_facts Hname. subst name.
  split; [|split; [|split]].
  4: intros Hphase Hflag; flag_facts.
  3: intros [Hphase|Hflag]; flag_facts.
  all: as_wp; unfold_populator; repeat run_step; reflexivity.
Qed.

Lemma missing_populator_is_awaited_witness :
  let c := withClaims {[ ("prod", "data") := Fixtures.target None ]}
             (Fixtures.moverCluster (Fixtures.mover "backup" "" "" false) [] []) in
  let r := Reconcile ("prod", "data") (enter c [] Fixtures.clock ∅) in
  cluster r.2 = c ∧ r.1 = Returned (ResultAfter (10 * Second), None).
Proof.
  intros c r.
  destruct (missing_populator_is_awaited c [] Fixtures.clock ∅ ("prod", "data")
              (Fixtures.target None) "restore")
    as (Hstore & _ & _ & Hwait); [reflexivity..|].
  split; [exact Hstore|]. apply Hwait; discriminate.
Defined.

(** X12. A target claim that is marked neither [populated] nor
    [cleanup-in-progress], whose populator and prime claim the store holds.
    While the prime claim is being deleted the invocation asks to be called
    again after 5 seconds, and while it is not [Bound] after 10 seconds; in
    both cases it writes nothing and does not look at the job. *)
Theorem prime_claim_is_awaited c f t ps req (pvc prime : PersistentVolumeClaim)
    (populator : DataMoverPopulator) :
  claims c !! req = Some pvc →
  populatorName pvc = Some (Name populator) →
  populators c !! (Namespace pvc, Name populator) = Some populator →
  annotation pvc "datamover.a-cup-of.coffee/populated" ≠ Some "true" →
  annotation pvc "datamover.a-cup-of.coffee/cleanup-in-progress" ≠ Some "true" →
  claims c !! (Namespace pvc, Name pvc +:+ "-prime") = Some prime →
  refusal f 0 = None → refusal f 1 = None → refusal f 2 = None →
  let r := Reconcile req (enter c f t ps) in
  let reads := [EvGet KClaim req; EvGet KPopulator (Namespace pvc, Name populator);
                EvGet KClaim (Namespace pvc, Name pvc +:+ "-prime")] in
  (is_Some (DeletionTimestamp prime) →
     r.1 = Returned (ResultAfter (5 * Second), None) ∧ cluster r.2 = c ∧ events r.2 = reads)
  ∧ (DeletionTimestamp prime = None → pvc_Phase prime ≠ "Bound" →
     r.1 = Returned (ResultAfter (10 * Second), None) ∧ cluster r.2 = c ∧ events r.2 = reads).
Proof.
  intros Hpvc Hname Hpop Hflag Hcleanup Hprime H0 H1 H2 r reads. subst reads.
  populator_facts Hname. rewrite <- Hrefname in *. flag_facts.
  split; [intros [ts Hts]|intros Hts Hphase].
  all: as_wp; unfold_populator; repeat run_step; repeat split; reflexivity.
Qed.

Lemma prime_claim_is_awaited_witness :
  let pending : PersistentVolumeClaim :=
    {| pvc_ObjectMeta := newMeta "data-prime" "prod";
       pvc_Spec := Fixtures.claimSpec "" None; pvc_Phase := "Pending" |} in
  let c := Fixtures.populatorCluster [Fixtures.target None; pending] [] in
  let r := Reconcile ("prod", "data") (enter c [] Fixtures.clock ∅) in
  r.1 = Returned (ResultAfter (10 * Second), None) ∧ cluster r.2 = c.
Proof.
  intros pending c r.
  destruct (prime_claim_is_awaited c [] Fixtures.clock ∅ ("prod", "data")
              (Fixtures.target None) pending Fixtures.populator)
    as [_ Hwait]; [reflexivity| reflexivity | reflexivity | discriminate | discriminate
                  | reflexivity..|].
  destruct Hwait as (Hreply & Hstore & _); [reflexivity|discriminate|].
  split; [exact Hreply|exact Hstore].
Defined.

(** X13. The same target, with a prime claim that is [Bound] and not being
    deleted, and a population job in the store under the name
    [datamover-populator-<target>-prime].  While the job has neither a
    success nor a failure, the invocation asks to be called again after one
    minute and writes nothing.  When the job has failed and never succeeded,
    the invocation attempts exactly one deletion, of that job: when it is
    refused the error is returned and the store is unchanged; when it is
    accepted the invocation asks to be called again after two minutes, the
    claims are untouched, and a job without finalizers is gone, so the next
    invocation creates it anew. *)
Theorem population_job_is_watched c f t ps req (pvc prime : PersistentVolumeClaim)
    (populator : DataMoverPopulator) (job : Job) :
  claims c !! req = Some pvc →
  populatorName pvc = Some (Name populator) →
  populators c !! (Namespace pvc, Name populator) = Some populator →
  annotation pvc "datamover.a-cup-of.coffee/populated" ≠ Some "true" →
  annotation pvc "datamover.a-cup-of.coffee/cleanup-in-progress" ≠ Some "true" →
  claims c !! (Namespace pvc, Name pvc +:+ "-prime") = Some prime →
  DeletionTimestamp prime = None →
  pvc_Phase prime = "Bound" →
  let jobKey := (Namespace pvc, "datamover-populator-" +:+ Name pvc +:+ "-prime") in
  jobs c !! jobKey = Some job →
  metaKey job = jobKey →
  Succeeded (job_Status job) ≤ 0 →
  refusal f 0 = None → refusal f 1 = None → refusal f 2 = None → refusal f 3 = None →
  let r := Reconcile req (enter c f t ps) in
  (Failed (job_Status job) ≤ 0 →
     r.1 = Returned (ResultAfter (1 * Minute), None) ∧ cluster r.2 = c ∧ writes r.2 = [])
  ∧ (0 < Failed (job_Status job) →
     writes r.2 = [EvDelete KJob jobKey]
     ∧ (∀ err, refusal f 4 = Some err →
        r.1 = Returned (ResultZero, Some err) ∧ cluster r.2 = c)
     ∧ (refusal f 4 = None →
        r.1 = Returned (ResultAfter (2 * Minute), None)
        ∧ claims (cluster r.2) = claims c
        ∧ (Finalizers job = [] → jobs (cluster r.2) !! jobKey = None))).
Proof.
  intros Hpvc Hname Hpop Hflag Hcleanup Hprime Hts Hphase jobKey Hjob Hkey Hs H0 H1 H2 H3 r.
  subst jobKey. injection Hkey as Hjobns Hjobname.
  populator_facts Hname. rewrite <- Hrefname in *. flag_facts.
  split; [intros Hf|intros Hf; split; [|split; [intros err H4|intros H4]]].
  all: as_wp; unfold_populator; repeat run_step; try lia.
  all: unfold metaKey; rewrite ?Hjobns, ?Hjobname.
  all: repeat split; try reflexivity; try done.
  all: intros _; cbn; apply lookup_delete_eq.
Qed.

Lemma population_job_is_watched_witness :
  let job : Job :=
    {| job_ObjectMeta := newMeta "datamover-populator-data-prime" "prod";
       job_Spec := {| BackoffLimit := Some 2; InitContainers := []; Containers := [];
                      Volumes := []; RestartPolicy := "Never" |};
       job_Status := {| Active := 0; Succeeded := 0; Failed := 3 |} |} in
  let c := Fixtures.populatorCluster [Fixtures.target None; Fixtures.prime None] [job] in
  let r := Reconcile ("prod", "data") (enter c [] Fixtures.clock ∅) in
  r.1 = Returned (ResultAfter (2 * Minute), None)
  ∧ jobs (cluster r.2) !! ("prod", "datamover-populator-data-prime") = None.
Proof.
  intros job c r.
  destruct (population_job_is_watched c [] Fixtures.clock ∅ ("prod", "data")
              (Fixtures.target None) (Fixtures.prime None) Fixtures.populator job)
    as [_ Hfailed];
    [reflexivity | reflexivity | reflexivity | discriminate | discriminate
    | reflexivity | reflexivity | reflexivity | reflexivity | reflexivity
    | simpl; lia | reflexivity..|].
  destruct Hfailed as (_ & _ & Hdone); [simpl; lia|].
  destruct Hdone as (Hreply & _ & Hgone); [reflexivity|].
  split; [exact Hreply|]. apply Hgone. reflexivity.
Defined.

(** X14. The same target, with a [Bound] prime claim and no population job
    in the store.  When the secret of the populator is missing, the
    invocation returns the not-found error and writes nothing.  When the
    secret is there and the prime claim lies under its own name, exactly one
    creation is attempted, of a job that lies under the name that the next
    invocation reads, is owned by the prime claim and mounts the prime
    claim, not the target, and to each container of which every key of the
    secret is passed as a reference into the secret.  When the creation is
    accepted that job is the one job added and the invocation asks to be
    called again after one minute.  Nothing is stated of the order of the
    variables of the job. *)
Theorem population_job_is_created c f t ps req (pvc prime : PersistentVolumeClaim)
    (populator : DataMoverPopulator) :
  claims c !! req = Some pvc →
  populatorName pvc = Some (Name populator) →
  populators c !! (Namespace pvc, Name populator) = Some populator →
  annotation pvc "datamover.a-cup-of.coffee/populated" ≠ Some "true" →
  annotation pvc "datamover.a-cup-of.coffee/cleanup-in-progress" ≠ Some "true" →
  let primeKey := (Namespace pvc, Name pvc +:+ "-prime") in
  let jobKey := (Namespace pvc, "datamover-populator-" +:+ Name pvc +:+ "-prime") in
  let secretKey := (Namespace pvc, pop_SecretName (pop_Spec populator)) in
  claims c !! primeKey = Some prime →
  metaKey prime = primeKey →
  DeletionTimestamp prime = None →
  pvc_Phase prime = "Bound" →
  jobs c !! jobKey = None →
  refusal f 0 = None → refusal f 1 = None → refusal f 2 = None →
  refusal f 3 = None → refusal f 4 = None →
  let r := Reconcile req (enter c f t ps) in
  (secrets c !! secretKey = None →
     r.1 = Returned (ResultZero, Some ErrNotFound) ∧ cluster r.2 = c ∧ writes r.2 = [])
  ∧ (∀ secret : Secret,
       secrets c !! secretKey = Some secret →
       ∃ job : Job,
         writes r.2 = [EvCreateJob job]
         ∧ metaKey job = jobKey
         ∧ OwnerReferences job
           = [ {| owner_Kind := "PersistentVolumeClaim"; owner_Name := Name prime;
                  owner_Controller := true |} ]
         ∧ Volumes (job_Spec job)
           = [ {| volume_Name := "target-data"; volume_Source := FromClaim (Name prime) |};
               {| volume_Name := "config-dir"; volume_Source := EmptyDir |} ]
         ∧ (∀ key container,
              is_Some (Data secret !! key) → container ∈ Containers (job_Spec job) →
              {| env_Name := key; env_Value := "";
                 env_SecretKeyRef :=
                   Some {| selector_Name := pop_SecretName (pop_Spec populator);
                           selector_Key := key |} |} ∈ Env container)
         ∧ (refusal f 5 = None →
            r.1 = Returned (ResultAfter (1 * Minute), None)
            ∧ jobs (cluster r.2) = <[jobKey := job]> (jobs c)
            ∧ claims (cluster r.2) = claims c)).
Proof.
  intros Hpvc Hname Hpop Hflag Hcleanup primeKey jobKey secretKey Hprime Hkey Hts Hphase
    Hjob H0 H1 H2 H3 H4 r.
  subst primeKey jobKey secretKey. injection Hkey as Hprimens Hprimename.
  populator_facts Hname. rewrite <- Hrefname in *. flag_facts.
  split; [intros Hsecret|intros secret Hsecret].
  - as_wp; unfold_populator; repeat run_step; repeat split; reflexivity.
  - set (job := populationJob prime populator secret). exists job.
    assert (metaKey job = (Namespace pvc, "datamover-populator-" +:+ Name pvc +:+ "-prime"))
      as Hjobkey.
    { unfold metaKey, job. by rewrite populationJob_name, populationJob_namespace,
        Hprimens, Hprimename. }
    split; [|split; [exact Hjobkey|split; [|split; [|split]]]].
    + subst job. as_wp; unfold_populator; repeat run_step; reflexivity.
    + unfold job, populationJob. by destruct (pop_Image _).
    + unfold job, populationJob. by destruct (pop_Image _).
    + intros key container [value Hvalue] Hin.
      assert (Env container
              = (((λ key, {| env_Name := key; env_Value := "";
                             env_SecretKeyRef :=
                               Some {| selector_Name := pop_SecretName (pop_Spec populator);
                                       selector_Key := key |} |})
                    <$> (map_to_list (Data secret)).*1)
                 ++ [envValue "SOURCE_PATH" (Path (pop_Spec populator))]
                 ++ [envValue "POPULATION_MODE" "true"]
                 ++ (if decide (0 < length (pop_AdditionalEnv (pop_Spec populator)))%nat
                     then pop_AdditionalEnv (pop_Spec populator) else []))%list) as ->.
      { revert Hin. unfold job, populationJob. destruct (pop_Image _); cbn.
        all: by intros ->%list_elem_of_singleton. }
      apply elem_of_app. left. apply list_elem_of_fmap. exists key. split; [done|].
      apply list_elem_of_fmap. exists (key, value). split; [done|].
      by apply elem_of_map_to_list.
    + intros H5. subst job. as_wp; unfold_populator; repeat run_step.
      all: repeat split; try reflexivity.
      all: rewrite Hjob in *; done.
Qed.

Lemma population_job_is_created_witness :
  let secret : Secret := {| secret_ObjectMeta := newMeta "s3-credentials" "prod";
                            Data := {[ "AWS_ACCESS_KEY_ID" := "id";
                                       "AWS_SECRET_ACCESS_KEY" := "key" ]} |} in
  let c0 := Fixtures.populatorCluster [Fixtures.target None; Fixtures.prime None] [] in
  let c := {| dataMovers := dataMovers c0; populators := populators c0; claims := claims c0;
              jobs := jobs c0; secrets := {[ ("prod", "s3-credentials") := secret ]};
              volumes := volumes c0 |} in
  let r := Reconcile ("prod", "data") (enter c [] Fixtures.clock ∅) in
  r.1 = Returned (ResultAfter (1 * Minute), None)
  ∧ ∃ job : Job,
      jobs (cluster r.2) !! ("prod", "datamover-populator-data-prime") = Some job
      ∧ Volumes (job_Spec job)
        = [ {| volume_Name := "target-data"; volume_Source := FromClaim "data-prime" |};
            {| volume_Name := "config-dir"; volume_Source := EmptyDir |} ].
Proof.
  intros secret c0 c r.
  destruct (population_job_is_created c [] Fixtures.clock ∅ ("prod", "data")
              (Fixtures.target None) (Fixtures.prime None) Fixtures.populator)
    as [_ Hcreated];
    [reflexivity | reflexivity | reflexivity | discriminate | discriminate
    | reflexivity..|].
  destruct (Hcreated secret) as (job & _ & _ & _ & Hvolumes & _ & Hdone); [reflexivity|].
  destruct Hdone as (Hreply & Hjobs & _); [reflexivity|].
  split; [exact Hreply|]. exists job. split; [|exact Hvolumes].
  subst r. rewrite Hjobs. apply lookup_insert_eq.
Defined.

(** X15. A target claim that is marked [cleanup-in-progress] and not
    [populated], while the store holds no prime claim for it: the invocation
    writes nothing and asks to be called again after 3 seconds, whatever the
    read of the prime claim answers.  The store is as before, so a later
    invocation on it does the same: the reconciler by itself does not take
    up again a hand-off that stopped after the prime claim was removed, and
    does not mark the target [populated]. *)
Theorem cleanup_without_prime_claim_stalls c f t ps req (pvc : PersistentVolumeClaim)
    (populator : DataMoverPopulator) :
  claims c !! req = Some pvc →
  populatorName pvc = Some (Name populator) →
  populators c !! (Namespace pvc, Name populator) = Some populator →
  annotation pvc "datamover.a-cup-of.coffee/populated" ≠ Some "true" →
  annotation pvc "datamover.a-cup-of.coffee/cleanup-in-progress" = Some "true" →
  claims c !! (Namespace pvc, Name pvc +:+ "-prime") = None →
  refusal f 0 = None → refusal f 1 = None →
  let r := Reconcile req (enter c f t ps) in
  r.1 = Returned (ResultAfter (3 * Second), None)
  ∧ cluster r.2 = c
  ∧ writes r.2 = [].
Proof.
  intros Hpvc Hname Hpop Hflag Hcleanup Hprime H0 H1 r.
  populator_facts Hname. rewrite <- Hrefname in *. flag_facts.
  as_wp; unfold_populator; repeat run_step; repeat split; reflexivity.
Qed.

Lemma cleanup_without_prime_claim_stalls_witness :
  let target := Fixtures.target (Some {[ "datamover.a-cup-of.coffee/populating" := "true";
                                          "datamover.a-cup-of.coffee/cleanup-in-progress" := "true" ]}) in
  let prime := Fixtures.prime (Some {[ "datamover.a-cup-of.coffee/populated" := "true" ]}) in
  let c := Fixtures.populatorCluster [target; prime] [] in
  let f := [None; None; None; None; None; None; None; None; None;
            None; Some ErrConflict; None; Some ErrConflict; None; Some ErrConflict] in
  let r := Reconcile ("prod", "data") (enter c f Fixtures.clock ∅) in
  let r' := Reconcile ("prod", "data") (enter (cluster r.2) [] Fixtures.clock ∅) in
  r.1 = Returned (ResultZero, Some ErrConflict)
  ∧ r'.1 = Returned (ResultAfter (3 * Second), None)
  ∧ cluster r'.2 = cluster r.2.
Proof.
  intros target prime c f r r'.
  split; [vm_compute; reflexivity|].
  destruct (claims (cluster r.2) !! ("prod", "data")) as [pvc|] eqn:Hp;
    [|vm_compute in Hp; discriminate Hp].
  assert (Hpvc := Hp). vm_compute in Hp. injection Hp as <-.
  destruct (cleanup_without_prime_claim_stalls (cluster r.2) [] Fixtures.clock ∅
              ("prod", "data") _ Fixtures.populator Hpvc) as (Hreply & Hstore & _);
    [ reflexivity | vm_compute; reflexivity | discriminate | reflexivity
    | vm_compute; reflexivity | reflexivity | reflexivity | ].
  split; [exact Hreply|exact Hstore].
Defined.

(** ** The hand-off of the volume *)

(** X16. The hand-off, when the population job has succeeded.  The target
    claim is [Pending] and carries neither [populated=true] nor
    [cleanup-in-progress=true]; its prime claim is [Bound] to a volume that
    the store holds; the population job reports a success and is not being
    deleted.  An invocation that no call of is refused starts the hand-off
    and stops after the deletion of the job: the target names the volume of
    the prime claim and carries [cleanup-in-progress=true] and a
    [populating] annotation, but not [populated=true]; the deletion of the
    job is the only deletion, and a job without finalizers is gone; the
    prime claim is still in the store and the volume is as it was, so still
    bound to the prime claim; the invocation asks to be called again after 3
    seconds. *)
Theorem handoff_begins c t ps req (pvc prime : PersistentVolumeClaim)
    (populator : DataMoverPopulator) (job : Job) (pv : PersistentVolume) :
  claims c !! req = Some pvc →
  metaKey pvc = req →
  populatorName pvc = Some (Name populator) →
  populators c !! (Namespace pvc, Name populator) = Some populator →
  annotation pvc "datamover.a-cup-of.coffee/populated" ≠ Some "true" →
  annotation pvc "datamover.a-cup-of.coffee/cleanup-in-progress" ≠ Some "true" →
  pvc_Phase pvc = "Pending" →
  let primeKey := (Namespace pvc, Name pvc +:+ "-prime") in
  let jobKey := (Namespace pvc, "datamover-populator-" +:+ Name pvc +:+ "-prime") in
  claims c !! primeKey = Some prime →
  metaKey prime = primeKey →
  DeletionTimestamp prime = None →
  pvc_Phase prime = "Bound" →
  jobs c !! jobKey = Some job →
  metaKey job = jobKey →
  DeletionTimestamp job = None →
  0 < Succeeded (job_Status job) →
  volumes c !! VolumeName (pvc_Spec prime) = Some pv →
  let r := Reconcile req (enter c [] t ps) in
  r.1 = Returned (ResultAfter (3 * Second), None)
  ∧ filter (λ e, isDelete e = true) (events r.2) = [EvDelete KJob jobKey]
  ∧ (Finalizers job = [] → jobs (cluster r.2) !! jobKey = None)
  ∧ is_Some (claims (cluster r.2) !! primeKey)
  ∧ volumes (cluster r.2) = volumes c
  ∧ ∃ marked : PersistentVolumeClaim,
      claims (cluster r.2) !! req = Some marked
      ∧ VolumeName (pvc_Spec marked) = VolumeName (pvc_Spec prime)
      ∧ annotation marked "datamover.a-cup-of.coffee/cleanup-in-progress" = Some "true"
      ∧ is_Some (annotation marked "datamover.a-cup-of.coffee/populating")
      ∧ annotation marked "datamover.a-cup-of.coffee/populated" ≠ Some "true".
Proof.
  intros Hpvc Hkey Hname Hpop Hflag Hcleanup Hphase primeKey jobKey Hprime Hprimekey Hts
    Hbound Hjob Hjobkey Hjobts Hs Hvol r.
  subst primeKey jobKey req. unfold metaKey in *.
  injection Hprimekey as Hprimens Hprimename. injection Hjobkey as Hjobns Hjobname.
  populator_facts Hname. rewrite <- Hrefname in *.
  flag_facts.
  assert ((Namespace pvc, Name pvc) ≠ (Namespace pvc, Name pvc +:+ "-prime")) as Hne.
  { intros [= Heq]. by apply (primeName_neq pvc). }
  assert ((Namespace pvc, Name pvc +:+ "-prime") ≠ (Namespace pvc, Name pvc)) as Hne' by done.
  as_wp; unfold_populator; repeat run_step; try lia.
  all: unfold metaKey; cbn [Name Namespace pvcWithMeta pvc_ObjectMeta setAnnotations
                            setDeletionTimestamp].
  all: rewrite ?Hprimens, ?Hprimename, ?Hjobns, ?Hjobname.
  all: split; [reflexivity|]; split; [reflexivity|].
  all: split; [intros Hfin; try congruence; by store_lookups|].
  all: split; [store_lookups; by eexists|].
  all: split; [reflexivity|].
  all: eexists; split; [by store_lookups|].
  all: split; [reflexivity|].
  all: apply bool_decide_eq_false in Hflagged.
  all: unfold annPopulated, annPopulating, annCleanup, annPrimePVC, annPopulatedAt,
         annPopulatedBy in *;
       cbn [pvc_ObjectMeta]; rewrite !annotation_set.
  all: split; [by rewrite lookup_insert_eq|].
  all: repeat first [ rewrite annotation_set | rewrite lookup_insert_eq
                    | rewrite lookup_insert_ne by done | rewrite annotation_orEmpty ].
  all: split; [|done].
  all: try by eexists.
  all: apply bool_decide_eq_false in Heqb0; rewrite annotation_orEmpty in Heqb0.
  all: by destruct (annotation pvc "datamover.a-cup-of.coffee/populating"); [eexists|].
Qed.

Lemma handoff_begins_witness :
  let job : Job :=
    {| job_ObjectMeta := newMeta "datamover-populator-data-prime" "prod";
       job_Spec := {| BackoffLimit := Some 2; InitContainers := []; Containers := [];
                      Volumes := []; RestartPolicy := "Never" |};
       job_Status := {| Active := 0; Succeeded := 1; Failed := 0 |} |} in
  let c := Fixtures.populatorCluster [Fixtures.target None; Fixtures.prime None] [job] in
  let r := Reconcile ("prod", "data") (enter c [] Fixtures.clock ∅) in
  r.1 = Returned (ResultAfter (3 * Second), None)
  ∧ jobs (cluster r.2) !! ("prod", "datamover-populator-data-prime") = None
  ∧ volumes (cluster r.2) = volumes c.
Proof.
  intros job c r.
  destruct (handoff_begins c Fixtures.clock ∅ ("prod", "data") (Fixtures.target None)
              (Fixtures.prime None) Fixtures.populator job Fixtures.volume)
    as (Hreply & _ & Hgone & _ & Hvolumes & _);
    [ vm_compute; reflexivity | reflexivity | reflexivity | vm_compute; reflexivity
    | discriminate | discriminate | reflexivity | vm_compute; reflexivity | reflexivity
    | reflexivity | reflexivity | vm_compute; reflexivity | reflexivity | reflexivity
    | simpl; lia | vm_compute; reflexivity | ].
  split; [exact Hreply|]. split; [exact (Hgone eq_refl)|exact Hvolumes].
Defined.

(** X17. The hand-off, once the population job is gone.  The target claim
    is [Pending] and marked [cleanup-in-progress] but not [populated]; its
    prime claim is [Bound] to a volume that the store holds, and is not yet
    being deleted; the store holds no population job.  An invocation that no
    call of is refused ends the hand-off: the prime claim is asked to be
    deleted, and is gone when it has no finalizers; the claim reference of
    the volume is cleared; the target names the volume of the prime claim and
    carries [populated=true] and neither [populating] nor
    [cleanup-in-progress], while its phase is left as it was; and the
    invocation asks to be called again after 5 seconds. *)
Theorem handoff_completes c t ps req (pvc prime : PersistentVolumeClaim)
    (populator : DataMoverPopulator) (pv : PersistentVolume) :
  claims c !! req = Some pvc →
  metaKey pvc = req →
  populatorName pvc = Some (Name populator) →
  populators c !! (Namespace pvc, Name populator) = Some populator →
  annotation pvc "datamover.a-cup-of.coffee/populated" ≠ Some "true" →
  annotation pvc "datamover.a-cup-of.coffee/cleanup-in-progress" = Some "true" →
  pvc_Phase pvc = "Pending" →
  let primeKey := (Namespace pvc, Name pvc +:+ "-prime") in
  let jobKey := (Namespace pvc, "datamover-populator-" +:+ Name pvc +:+ "-prime") in
  claims c !! primeKey = Some prime →
  metaKey prime = primeKey →
  DeletionTimestamp prime = None →
  pvc_Phase prime = "Bound" →
  jobs c !! jobKey = None →
  volumes c !! VolumeName (pvc_Spec prime) = Some pv →
  Name pv = VolumeName (pvc_Spec prime) →
  let r := Reconcile req (enter c [] t ps) in
  r.1 = Returned (ResultAfter (5 * Second), None)
  ∧ filter (λ e, isDelete e = true) (events r.2) = [EvDelete KClaim primeKey]
  ∧ (Finalizers prime = [] → claims (cluster r.2) !! primeKey = None)
  ∧ volumes (cluster r.2) !! VolumeName (pvc_Spec prime)
    = Some {| pv_ObjectMeta := pv; ClaimRef := None |}
  ∧ ∃ final : PersistentVolumeClaim,
      claims (cluster r.2) !! req = Some final
      ∧ VolumeName (pvc_Spec final) = VolumeName (pvc_Spec prime)
      ∧ annotation final "datamover.a-cup-of.coffee/populated" = Some "true"
      ∧ annotation final "datamover.a-cup-of.coffee/populating" = None
      ∧ annotation final "datamover.a-cup-of.coffee/cleanup-in-progress" = None
      ∧ pvc_Phase final = "Pending".
Proof.
  intros Hpvc Hkey Hname Hpop Hflag Hcleanup Hphase primeKey jobKey Hprime Hprimekey Hts
    Hbound Hjob Hvol Hpvname r.
  subst primeKey jobKey req. unfold metaKey in *. injection Hprimekey as Hprimens Hprimename.
  populator_facts Hname. rewrite <- Hrefname in *. flag_facts.
  assert ((Namespace pvc, Name pvc) ≠ (Namespace pvc, Name pvc +:+ "-prime")) as Hne.
  { intros [= Heq]. by apply (primeName_neq pvc). }
  assert ((Namespace pvc, Name pvc +:+ "-prime") ≠ (Namespace pvc, Name pvc)) as Hne' by done.
  as_wp; unfold_populator; repeat run_step.
  all: unfold metaKey; cbn [Name Namespace pvcWithMeta pvc_ObjectMeta setAnnotations
                            setDeletionTimestamp].
  all: rewrite ?Hprimens, ?Hprimename.
  all: split; [reflexivity|]; split; [reflexivity|].
  all: split; [intros Hfin; try congruence; by store_lookups|].
  all: split; [store_lookups; by rewrite ?Hpvname, ?lookup_insert_eq|].
  all: eexists; split; [by store_lookups|].
  all: split; [reflexivity|].
  all: unfold annotation, annPopulated, annPopulating, annCleanup;
       cbn [Annotations setAnnotations pvc_ObjectMeta pvc_Phase].
  all: split; [by rewrite !lookup_delete_ne, lookup_insert_eq by done|].
  all: split; [by rewrite lookup_delete_ne, lookup_delete_eq by done|].
  all: split; [by rewrite lookup_delete_eq|done].
Qed.

Lemma handoff_completes_witness :
  let target := Fixtures.target (Some {[ "datamover.a-cup-of.coffee/populating" := "true";
                                          "datamover.a-cup-of.coffee/cleanup-in-progress" := "true" ]}) in
  let prime := Fixtures.prime (Some {[ "datamover.a-cup-of.coffee/populated" := "true" ]}) in
  let c := Fixtures.populatorCluster [target; prime] [] in
  let r := Reconcile ("prod", "data") (enter c [] Fixtures.clock ∅) in
  r.1 = Returned (ResultAfter (5 * Second), None)
  ∧ claims (cluster r.2) !! ("prod", "data-prime") = None
  ∧ volumes (cluster r.2) !! "pv-1"
    = Some {| pv_ObjectMeta := Fixtures.volume; ClaimRef := None |}.
Proof.
  intros target prime c r.
  destruct (handoff_completes c Fixtures.clock ∅ ("prod", "data") target prime
              Fixtures.populator Fixtures.volume)
    as (Hreply & _ & Hgone & Hvolume & _);
    [ vm_compute; reflexivity | reflexivity | reflexivity | vm_compute; reflexivity
    | discriminate | reflexivity | reflexivity | vm_compute; reflexivity | reflexivity
    | reflexivity | reflexivity | vm_compute; reflexivity | vm_compute; reflexivity
    | reflexivity | ].
  split; [exact Hreply|]. split; [exact (Hgone eq_refl)|exact Hvolume].
Defined.

(** ** What the Volume Population reconciler asks of the store *)

Lemma keyed_update (o : PersistentVolumeClaim) phase c :
  claimsKeyed c →
  claimsKeyed (withClaims (<[metaKey o := {| pvc_ObjectMeta := pvc_ObjectMeta o;
                                             pvc_Spec := pvc_Spec o;
                                             pvc_Phase := phase |}]> (claims c)) c).
Proof. intros Hc. unfold claimsKeyed. simpl. by apply map_Forall_insert_2. Qed.

Lemma keyed_delete m c :
  (∀ k (p : PersistentVolumeClaim), m !! k = Some p →
     ∃ old : PersistentVolumeClaim, claims c !! k = Some old ∧ metaKey p = metaKey old) →
  claimsKeyed c → claimsKeyed (withClaims m c).
Proof.
  intros Hm Hc k p Hp. destruct (Hm k p Hp) as (old & Hold & Heq).
  simpl. rewrite Heq. by apply (Hc k old).
Qed.

(** A deletion that is accepted leaves every claim that stays under the
    identity it had. *)
Lemma wp_DeleteClaim_keyed t (o : PersistentVolumeClaim) Q w :
  (∀ err, Q (Returned (Some err))
            (after (EvDelete KClaim (metaKey o)) (cluster w) (tail (faults w)) w)) →
  (∀ m,
      (∀ k (p : PersistentVolumeClaim), m !! k = Some p →
         ∃ old : PersistentVolumeClaim,
           claims (cluster w) !! k = Some old ∧ metaKey p = metaKey old) →
      Q (Returned None)
        (after (EvDelete KClaim (metaKey o)) (withClaims m (cluster w)) (tail (faults w)) w)) →
  wp (DeleteClaim t o) Q w.
Proof.
  intros Herr Hok. apply wp_write; [done|]. intros c.
  destruct (claims (cluster w) !! metaKey o) as [old|] eqn:Hold; [|done].
  destruct (Finalizers old) as [|x l]; [|destruct (DeletionTimestamp old)].
  - intros [= <-]. apply Hok. intros k p.
    destruct (decide (metaKey o = k)) as [<-|Hne].
    + by rewrite lookup_delete_eq.
    + rewrite lookup_delete_ne by done. eauto.
  - intros [= <-].
    replace (cluster w) with (withClaims (claims (cluster w)) (cluster w)) at 1
      by (by destruct (cluster w)).
    apply Hok. eauto.
  - intros [= <-]. apply Hok. intros k p.
    destruct (decide (metaKey o = k)) as [<-|Hne].
    + rewrite lookup_insert_eq. intros [= <-]. eauto.
    + rewrite lookup_insert_ne by done. eauto.
Qed.

(** Closes [confined] for the world of the goal, from the facts at hand. *)
Ltac confined_now :=
  split; [|split]; simpl;
  [ first [ assumption | by apply keyed_update ]
  | assumption
  | repeat apply Forall_cons_2; try assumption; simpl; auto ].

Ltac confined_trace :=
  simpl; repeat apply Forall_cons_2; try assumption; simpl; auto.

Lemma clearClaimRef_confined req vol n i left w :
  confined req w → wp (clearClaimRef vol n i left) (λ _ w', confined req w') w.
Proof.
  revert i w. induction left as [|left IH]; intros i w (Hc & Hj & Ht); simpl.
  - by apply wp_ret.
  - wp_step. wp_step; [wp_step; confined_now|].
    wp_step. wp_step.
    + wp_step; [|wp_step; confined_now].
      wp_step. wp_step. apply IH. confined_now.
    + wp_step. confined_now.
Qed.

Lemma markPopulated_confined req n i left w :
  confined req w → wp (markPopulated req n i left) (λ _ w', confined req w') w.
Proof.
  revert i w. induction left as [|left IH]; intros i w (Hc & Hj & Ht); simpl.
  - by apply wp_ret.
  - wp_step. wp_step; [wp_step; confined_now|].
    pose proof (Hc _ _ Hget) as Hkey. simpl in Hkey.
    wp_step.
    match goal with |- wp (UpdateClaim ?o) _ _ => set (upd := o) end.
    assert (metaKey upd = req) as Hupd by done.
    clearbody upd.
    wp_step.
    + wp_step; [|wp_step; confined_now].
      wp_step. wp_step. apply IH. confined_now.
    + wp_step. confined_now.
Qed.

(** The loops of the hand-off, run one after the other. *)
Ltac confined_loops req :=
  lazymatch goal with
  | |- wp (clearClaimRef _ _ _ _) _ _ => idtac
  | |- wp (_ ≫= _) _ _ => apply wp_bind
  end;
  eapply wp_mono;
    [apply (clearClaimRef_confined req); split; [|split]; simpl; [assumption..|confined_trace]|];
  intros [[?e|]|?msg] ?w' (?Hc' & ?Hj' & ?Ht'); wp_simpl; [by wp_step| |done];
  wp_step;
  (eapply wp_mono; [by apply (markPopulated_confined req)|]);
  intros [[?e|]|?msg] ?w'' (?Hc'' & ?Hj'' & ?Ht''); wp_simpl;
  try wp_step; done.

Lemma transferVolume_confined ns name (original prime : PersistentVolumeClaim) w :
  confined (ns, name) w →
  metaKey original = (ns, name) →
  metaKey prime = (ns, name +:+ "-prime") →
  wp (transferVolume original prime)
     (λ _ w', Forall (populatorCallOk (ns, name)) (trace w')) w.
Proof.
  intros (Hc & Hj & Ht) [= Hns Hname] [= Hpns Hpname]. unfold transferVolume.
  rewrite Hns, Hname, Hpns, Hpname.
  wp_step. wp_step; [wp_step; confined_trace|].
  wp_step. wp_step; [wp_step; confined_trace|].
  rename pvc into fresh.
  pose proof (Hc _ _ Hget0) as Hfresh. simpl in Hfresh.
  wp_step.
  match goal with |- wp (UpdateClaim ?o) _ _ => set (upd := o) end.
  assert (metaKey upd = (ns, name)) as Hupd by done.
  clearbody upd.
  wp_step; [wp_step; confined_trace|].
  pose proof (keyed_update upd (pvc_Phase old) _ Hc) as Hc1.
  wp_step. wp_step.
  - wp_step; [wp_step; confined_trace|].
    wp_step. wp_step; [wp_step; confined_trace|].
    rename pvc into latest.
    pose proof (Hc1 _ _ Hget1) as Hlatest. simpl in Hlatest.
    wp_step.
    destruct (DeletionTimestamp latest) eqn:Hdel.
    + wp_step. wp_step. confined_loops (ns, name).
    + wp_step. wp_step. apply wp_DeleteClaim_keyed; [intros err'|intros m Hm]; wp_simpl.
      * wp_step. confined_trace.
      * pose proof (keyed_delete m _ Hm Hc1) as Hc2. confined_loops (ns, name).
  - rename job into existing.
    pose proof (Hj _ _ Hget1) as Hexisting. simpl in Hexisting.
    destruct (DeletionTimestamp existing).
    + wp_step. confined_trace.
    + wp_step. wp_step. wp_step; wp_step; confined_trace.
Qed.

Lemma finalizePopulation_confined ns name (original prime : PersistentVolumeClaim)
    populator w :
  confined (ns, name) w →
  metaKey original = (ns, name) →
  metaKey prime = (ns, name +:+ "-prime") →
  wp (finalizePopulation original prime populator)
     (λ _ w', Forall (populatorCallOk (ns, name)) (trace w')) w.
Proof.
  intros (Hc & Hj & Ht) Hkey Hprime. unfold finalizePopulation.
  wp_step. wp_step.
  set (prime' := (if bool_decide (annotationsOrEmpty prime !! annPopulated = None)
                  then _ else _) : PersistentVolumeClaim).
  assert (metaKey prime' = (ns, name +:+ "-prime")) as Hprime'
    by (unfold prime'; by case_bool_decide).
  clearbody prime'.
  set (original' := (if bool_decide (annotationsOrEmpty original !! annPopulating = None)
                     then _ else _) : PersistentVolumeClaim).
  assert (metaKey original' = (ns, name)) as Hkey'
    by (unfold original'; by case_bool_decide).
  clearbody original'.
  assert (∀ W, confined (ns, name) W →
            wp (if bool_decide (pvc_Phase original' = ClaimPending)
                   && bool_decide (pvc_Phase prime' = ClaimBound)
                then transferVolume original' prime' else mret (ResultZero, None))
               (λ _ w', Forall (populatorCallOk (ns, name)) (trace w')) W) as Hguard.
  { intros W HW. destruct (_ && _); [by apply transferVolume_confined|].
    apply wp_ret. apply HW. }
  assert (∀ W, confined (ns, name) W →
            wp ((if bool_decide (annotationsOrEmpty original !! annPopulating = None)
                 then UpdateClaim original' else mret None)
                ≫= λ err, match err with
                          | Some e => mret (ResultZero, Some e)
                          | None =>
                              if bool_decide (pvc_Phase original' = ClaimPending)
                                 && bool_decide (pvc_Phase prime' = ClaimBound)
                              then transferVolume original' prime'
                              else mret (ResultZero, None)
                          end)
               (λ _ w', Forall (populatorCallOk (ns, name)) (trace w')) W) as Hsecond.
  { intros W (HcW & HjW & HtW). wp_step. wp_step.
    - wp_step; [wp_step; confined_trace|].
      apply Hguard. confined_now.
    - wp_step. apply Hguard. by split. }
  wp_step. wp_step.
  - wp_step; [wp_step; confined_trace|].
    apply Hsecond. confined_now.
  - wp_step. apply Hsecond. by split.
Qed.

Lemma runPopulationJob_confined (pvc prime : PersistentVolumeClaim) populator w :
  confined (metaKey pvc) w →
  metaKey prime = (Namespace pvc, Name pvc +:+ "-prime") →
  wp (runPopulationJob pvc prime populator)
     (λ _ w', Forall (populatorCallOk (metaKey pvc)) (trace w')) w.
Proof.
  intros (Hc & Hj & Ht) Hprime.
  assert (∀ secret, metaKey (populationJob prime populator secret)
                    = (Namespace pvc, "datamover-populator-" +:+ Name pvc +:+ "-prime"))
    as Hjobkey.
  { intros secret. unfold metaKey in *.
    rewrite populationJob_name, populationJob_namespace. by injection Hprime as -> ->. }
  unfold runPopulationJob, createPopulationJob, primeName.
  wp_step. wp_step.
  - wp_step; [wp_step; confined_trace|].
    wp_step. wp_step. wp_step; [wp_step; confined_trace|].
    wp_step. wp_step. wp_step; wp_step; confined_trace.
  - pose proof (Hj _ _ Hget) as Hjob. simpl in Hjob.
    wp_step.
    + apply (finalizePopulation_confined (Namespace pvc) (Name pvc)); [confined_now|done..].
    + wp_step; [|wp_step; confined_trace].
      wp_step. wp_step. wp_step; wp_step; confined_trace.
Qed.

(** X18. The calls of an invocation of the Volume Population reconciler, in
    a store whose claims and jobs lie under their own identities, whatever
    the store holds and whichever calls are refused.  For the claim
    [<ns>/<name>] it creates no claim but [<ns>/<name>-prime], and that one
    without a data-source reference; it creates no job but
    [<ns>/datamover-populator-<name>-prime]; it deletes nothing but that
    claim and that job, so never the target claim and never a volume; it
    updates no claim but the target and its prime claim; every volume update
    clears the claim reference; it never reads a DataMover and never writes a
    status. *)
Theorem populator_calls_are_confined c f t ps req :
  claimsKeyed c → jobsKeyed c →
  Forall (populatorCallOk req) (events (Reconcile req (enter c f t ps)).2).
Proof.
  intros Hc Hj. unfold events. rewrite Forall_reverse.
  change (wp (Reconcile req) (λ _ w, Forall (populatorCallOk req) (trace w))
             (enter c f t ps)).
  assert (Forall (populatorCallOk req) []) as Ht by constructor.
  unfold Reconcile.
  wp_step. wp_step; [repeat wp_step; confined_trace|].
  pose proof (Hc _ _ Hget) as Hkey. simpl in Hkey. subst req.
  assert (∀ prime : PersistentVolumeClaim,
            claims c !! (Namespace pvc, primeName pvc) = Some prime →
            metaKey prime = (Namespace pvc, Name pvc +:+ "-prime")) as Hprime.
  { intros prime Hp. apply (Hc _ _ Hp). }
  wp_step; [|wp_step; confined_trace].
  wp_step; [|wp_step; confined_trace].
  wp_step; [wp_step; confined_trace|].
  wp_step; [wp_step; confined_trace|].
  wp_step. wp_step; [repeat wp_step; confined_trace|].
  assert (∀ W, confined (metaKey pvc) W → claims (cluster W) = claims c →
            wp (ensurePopulationJob pvc pop)
               (λ _ w', Forall (populatorCallOk (metaKey pvc)) (trace w')) W) as Hensure.
  { intros W (HcW & HjW & HtW) Hsame. unfold ensurePopulationJob.
    wp_step; [wp_step; confined_trace|].
    wp_step.
    - wp_step. wp_step; [wp_step; confined_trace|].
      rewrite Hsame in Hget1.
      apply (finalizePopulation_confined (Namespace pvc) (Name pvc));
        [confined_now|done|by apply Hprime].
    - wp_step. wp_step.
      + repeat wp_step; confined_trace.
      + rewrite Hsame in Hget1.
        wp_step; [wp_step; confined_trace|].
        wp_step; [wp_step; confined_trace|].
        apply runPopulationJob_confined; [confined_now|by apply Hprime]. }
  wp_step.
  - wp_step. wp_step; [repeat wp_step; confined_trace|].
    apply Hensure; [confined_now|done].
  - apply Hensure; [confined_now|done].
Qed.

Lemma populator_calls_are_confined_witness :
  let target := Fixtures.target (Some {[ "datamover.a-cup-of.coffee/populating" := "true";
                                          "datamover.a-cup-of.coffee/cleanup-in-progress" := "true" ]}) in
  let prime := Fixtures.prime (Some {[ "datamover.a-cup-of.coffee/populated" := "true" ]}) in
  let c := Fixtures.populatorCluster [target; prime] [] in
  let f := [None; None; None; None; None; None; None; None; None; None; Some ErrConflict] in
  Forall (populatorCallOk ("prod", "data"))
         (events (Reconcile ("prod", "data") (enter c f Fixtures.clock ∅)).2).
Proof.
  intros target prime c f.
  apply (populator_calls_are_confined c f Fixtures.clock ∅ ("prod", "data")).
  - unfold claimsKeyed. apply (bool_decide_unpack _). vm_compute. exact I.
  - unfold jobsKeyed. apply (bool_decide_unpack _). vm_compute. exact I.
Defined.

(** ** The creation of the prime claim *)

(** X19. A target claim whose populator the store holds and for which the
    store holds no prime claim, when the target carries none of
    [populated], [populating] and [cleanup-in-progress] with the value
    ["true"], whatever other annotations and values it carries.  The
    invocation attempts exactly one write, the creation of the prime claim
    [<target>-prime], labelled with the names of the target and of the
    populator.  When the creation is refused the error is returned and the
    store is unchanged; when it is accepted the prime claim is the one claim
    added and the invocation asks to be called again after 10 seconds. *)
Theorem prime_claim_is_created c f t ps req (pvc : PersistentVolumeClaim)
    (populator : DataMoverPopulator) :
  claims c !! req = Some pvc →
  populatorName pvc = Some (Name populator) →
  populators c !! (Namespace pvc, Name populator) = Some populator →
  annotation pvc "datamover.a-cup-of.coffee/populated" ≠ Some "true" →
  annotation pvc "datamover.a-cup-of.coffee/cleanup-in-progress" ≠ Some "true" →
  annotation pvc "datamover.a-cup-of.coffee/populating" ≠ Some "true" →
  let primeKey := (Namespace pvc, Name pvc +:+ "-prime") in
  claims c !! primeKey = None →
  refusal f 0 = None → refusal f 1 = None → refusal f 2 = None →
  let r := Reconcile req (enter c f t ps) in
  let prime := newPrimePVC pvc populator in
  writes r.2 = [EvCreateClaim prime]
  ∧ metaKey prime = primeKey
  ∧ Labels prime = {[ "datamover.a-cup-of.coffee/prime-for" := Name pvc;
                      "datamover.a-cup-of.coffee/populator" := Name populator ]}
  ∧ (∀ err, refusal f 3 = Some err →
     r.1 = Returned (ResultZero, Some err) ∧ cluster r.2 = c)
  ∧ (refusal f 3 = None →
     r.1 = Returned (ResultAfter (10 * Second), None)
     ∧ claims (cluster r.2) = <[primeKey := prime]> (claims c)
     ∧ createsClaim c f t ps req prime).
Proof.
  intros Hpvc Hname Hpop Hflag Hcleanup Hpopulating primeKey Hfree H0 H1 H2 r prime.
  subst primeKey prime.
  populator_facts Hname. flag_facts.
  split; [|split; [reflexivity|split; [reflexivity|split; [intros err H3|intros H3]]]].
  3: split; [|split];
       [| |change (EvCreateClaim (newPrimePVC pvc populator) ∈ events r.2
                   ∧ ∃ result, r.1 = Returned (result, None))].
  all: rewrite <- Hrefname in *.
  all: assert (claims c !! (Namespace (newPrimePVC pvc populator),
                            Name (newPrimePVC pvc populator)) = None)
         as Hfree' by exact Hfree.
  all: as_wp; unfold_populator; repeat run_step.
  all: repeat split; try reflexivity.
  - apply list_elem_of_lookup_2 with 3%nat. reflexivity.
  - by eexists.
Qed.

Lemma prime_claim_is_created_witness :
  let target := Fixtures.target (Some {[ "datamover.a-cup-of.coffee/populating" := "done";
                                          "team" := "storage" ]}) in
  let c := Fixtures.populatorCluster [target] [] in
  let r := Reconcile ("prod", "data") (enter c [] Fixtures.clock ∅) in
  r.1 = Returned (ResultAfter (10 * Second), None)
  ∧ claims (cluster r.2) !! ("prod", "data-prime")
    = Some (newPrimePVC target Fixtures.populator).
Proof.
  intros target c r.
  destruct (prime_claim_is_created c [] Fixtures.clock ∅ ("prod", "data") target
              Fixtures.populator)
    as (_ & _ & _ & _ & Hcreated);
    [ reflexivity | reflexivity | reflexivity | discriminate | discriminate
    | vm_compute; discriminate | reflexivity.. | ].
  destruct Hcreated as (Hreply & Hclaims & _); [reflexivity|].
  split; [exact Hreply|].
  subst r. rewrite Hclaims. apply lookup_insert_eq.
Defined.
